(** * Letterboxd scraping service: job store, crawler and profile extractor

    A shallow embedding of the Letterboxd route of the API server
    ([scrapeProfile], [startScraping] and the two request handlers, in the
    current selector scheme [ul.grid] / [li.griditem] /
    [div.react-component]) and the properties of its job life cycle and of
    its text parsers.

    Conventions of the embedding.
    - A JavaScript string is its sequence of UTF-16 code units, [list Z].
    - A JavaScript number that the code only ever uses as an integer
      ([totalPages], [Date.now()], the profile counters) is a [Z]; [NaN] out
      of [parseInt] is [None], and [parseInt] rounds the integer it reads
      as a double does ([Js.toNumber]).  Arithmetic on such numbers is
      exact up to [2 ^ 53] in magnitude ([safeInteger]), the range the
      statements about their values are made for; [Infinity] has no
      counterpart.  The two numbers that are fractions ([Rating],
      [progress]) are exact rationals [Q]; the values the code builds
      ([n + 0.5], [k / n]) are exact there, and the rounding of a double
      is monotone, so order statements carry over.
    - What cheerio's [.data()] gives for a [data-*] attribute is a value
      of any type ([Parse.DataValue]); what [.attr()] and [.text()] give
      is a string.
    - The browser and the markup parser are collaborators: what they answer
      is an input of the model (an environment record), including the
      exception they may raise.
    - An [async] function is a state transformer on the job object it
      drives that records the job at every [await] (the only points where
      a poll can observe it). *)

From Stdlib Require Import ZArith QArith List Bool Lia String Ascii Sorted.
From Stdlib Require Import Numbers.DecimalString Numbers.DecimalZ.
From stdpp Require Import base option list gmap.
Import ListNotations.

Local Open Scope Z_scope.

(* ===================================================================== *)
(** ** JavaScript strings *)
(* ===================================================================== *)

Module Js.

(** A string literal of the source whose characters are all ASCII. *)
Definition lit (s : string) : list Z :=
  List.map (fun a => Z.of_N (N_of_ascii a)) (list_ascii_of_string s).

(** [WhiteSpace] and [LineTerminator] of ECMAScript: what [\s] matches and
    what [String.prototype.trim] strips. *)
Definition isWhiteSpace (c : Z) : bool :=
  ((9 <=? c) && (c <=? 13))          (* TAB LF VT FF CR *)
  || (c =? 32) || (c =? 160)         (* SP, NBSP *)
  || (c =? 5760)                     (* U+1680 *)
  || ((8192 <=? c) && (c <=? 8202))  (* U+2000 .. U+200A *)
  || (c =? 8232) || (c =? 8233)      (* LS, PS *)
  || (c =? 8239) || (c =? 8287)      (* U+202F, U+205F *)
  || (c =? 12288) || (c =? 65279).   (* U+3000, U+FEFF *)

(** [\d]: the ten ASCII digits. *)
Definition isDigit (c : Z) : bool := (48 <=? c) && (c <=? 57).

Fixpoint dropWhile (p : Z -> bool) (s : list Z) : list Z :=
  match s with
  | [] => []
  | c :: s' => if p c then dropWhile p s' else s
  end.

Fixpoint takeWhile (p : Z -> bool) (s : list Z) : list Z :=
  match s with
  | [] => []
  | c :: s' => if p c then c :: takeWhile p s' else []
  end.

Definition trimStart (s : list Z) : list Z := dropWhile isWhiteSpace s.
Definition trimEnd (s : list Z) : list Z := rev (dropWhile isWhiteSpace (rev s)).

(** [s.trim()] *)
Definition trim (s : list Z) : list Z := trimEnd (trimStart s).

(** Truthiness of a string: only the empty string is falsy. *)
Definition truthy (s : list Z) : bool :=
  match s with [] => false | _ :: _ => true end.

(** [s.startsWith(p)] *)
Fixpoint startsWith (p s : list Z) : bool :=
  match p, s with
  | [], _ => true
  | _ :: _, [] => false
  | a :: p', b :: s' => (a =? b) && startsWith p' s'
  end.

(** [s.replace(pat, rep)] with a string pattern: the first occurrence of
    [pat] in [s], scanning from the left, is replaced; [rep] has no [$]. *)
Fixpoint replaceFirst (pat rep s : list Z) : list Z :=
  if startsWith pat s then rep ++ drop (length pat) s
  else match s with
       | [] => []
       | c :: s' => c :: replaceFirst pat rep s'
       end.

(** [s.includes(c)] for a one-unit search string. *)
Definition includes (c : Z) (s : list Z) : bool := existsb (Z.eqb c) s.

(** [(s.match(/c/g) || []).length] for a one-unit pattern: the number of
    occurrences of [c]. *)
Fixpoint countOf (c : Z) (s : list Z) : Z :=
  match s with
  | [] => 0
  | x :: s' => (if x =? c then 1 else 0) + countOf c s'
  end.

(** [s.replace(/c/g, "")] for a one-unit pattern. *)
Definition removeAll (c : Z) (s : list Z) : list Z :=
  List.filter (fun x => negb (x =? c)) s.

(** [String(n)] / template interpolation of an integer number (decimal
    digits, a leading minus sign when negative). *)
Definition numberToString (n : Z) : list Z :=
  lit (NilEmpty.string_of_int (Z.to_int n)).

(** Value of a digit in radix 10 or 16, if it is one. *)
Definition digitValue (radix c : Z) : option Z :=
  if isDigit c then Some (c - 48)
  else if (radix =? 16) && (97 <=? c) && (c <=? 102) then Some (c - 87)
  else if (radix =? 16) && (65 <=? c) && (c <=? 70) then Some (c - 55)
  else None.

(** The longest prefix of digits, read left to right; [None] when the
    first unit is not a digit. *)
Fixpoint readDigits (radix : Z) (acc : option Z) (s : list Z) : option Z :=
  match s with
  | [] => acc
  | c :: s' =>
      match digitValue radix c with
      | Some d => readDigits radix (Some (radix * default 0 acc + d)) s'
      | None => acc
      end
  end.

(** The Number value for an integer: the nearest double, a tie going to
    the even mantissa.  An integer of magnitude up to [2 ^ 53] is its own
    double; above, the 53 leading bits are kept and rounded.  An integer
    is all this can show: where the code would hold [Infinity] (a
    magnitude of [2 ^ 1024] or more) the value here is the rounding with
    the exponent left unbounded. *)
Definition toNumber (v : Z) : Z :=
  let a := Z.abs v in
  if a <=? 2 ^ 53 then v
  else
    let e := Z.log2 a - 52 in
    let mantissa := Z.shiftr a e in
    let rest := a - Z.shiftl mantissa e in
    let halfway := Z.shiftl 1 (e - 1) in
    let rounded :=
      if (halfway <? rest) || ((rest =? halfway) && Z.odd mantissa)
      then mantissa + 1
      else mantissa in
    Z.sgn v * Z.shiftl rounded e.

(** [parseInt(s)] with no radix argument: leading white space is skipped,
    then an optional sign, then a [0x]/[0X] prefix selects radix 16, then
    the longest run of digits is read, and the integer they denote is
    turned into a Number; [None] is [NaN]. *)
Definition parseInt (s : list Z) : option Z :=
  let s1 := trimStart s in
  let '(sign, s2) :=
    match s1 with
    | 45 :: r => (-1, r)
    | 43 :: r => (1, r)
    | _ => (1, s1)
    end in
  let '(radix, s3) :=
    match s2 with
    | 48 :: 120 :: r => (16, r)
    | 48 :: 88 :: r => (16, r)
    | _ => (10, s2)
    end in
  match readDigits radix None s3 with
  | Some v => Some (toNumber (sign * v))
  | None => None
  end.

End Js.

(* ===================================================================== *)
(** ** Data model *)
(* ===================================================================== *)

Inductive JobStatus := Pending | InProgress | Completed | Failed.

(** A property of a JavaScript object that may be missing, [null] or set. *)
Inductive Nullable (A : Type) :=
  | Undefined
  | Null
  | Value (a : A).
Arguments Undefined {A}.
Arguments Null {A}.
Arguments Value {A} a.

(** One scraped film: [{ Name, Year, "Letterboxd URI", Rating }]. *)
Record FilmRecord := {
  Name : list Z;
  Year : option (list Z);          (* [null] or the four digits *)
  LetterboxdURI : list Z;
  Rating : Q
}.

Record ProfileStats := {
  totalFilms : Z;
  filmsThisYear : Z;
  following : Z;
  followers : Z
}.

Record ProfileSummary := {
  displayName : list Z;
  username : list Z;
  avatarUrl : Nullable (list Z);
  location : Nullable (list Z);
  bio : Nullable (list Z);
  stats : ProfileStats
}.

(** The object stored in [scrapingJobs].  [error] is [None] until the
    [catch] block assigns it (the object is created without the key). *)
Record Job := {
  status : JobStatus;
  data : list FilmRecord;
  profileData : option ProfileSummary;
  progress : Q;
  totalPages : Z;
  error : option (list Z)
}.

Definition setStatus (s : JobStatus) (j : Job) : Job :=
  {| status := s; data := data j; profileData := profileData j;
     progress := progress j; totalPages := totalPages j; error := error j |}.

Definition setData (d : list FilmRecord) (j : Job) : Job :=
  {| status := status j; data := d; profileData := profileData j;
     progress := progress j; totalPages := totalPages j; error := error j |}.

Definition setProfileData (p : ProfileSummary) (j : Job) : Job :=
  {| status := status j; data := data j; profileData := Some p;
     progress := progress j; totalPages := totalPages j; error := error j |}.

Definition setProgress (q : Q) (j : Job) : Job :=
  {| status := status j; data := data j; profileData := profileData j;
     progress := q; totalPages := totalPages j; error := error j |}.

Definition setTotalPages (n : Z) (j : Job) : Job :=
  {| status := status j; data := data j; profileData := profileData j;
     progress := progress j; totalPages := n; error := error j |}.

Definition setError (m : list Z) (j : Job) : Job :=
  {| status := status j; data := data j; profileData := profileData j;
     progress := progress j; totalPages := totalPages j; error := Some m |}.

(** An exception object; the code reads only [error.message]. *)
Record Exn := { message : list Z }.

Inductive result (A : Type) :=
  | Ok (a : A)
  | Throw (e : Exn).
Arguments Ok {A} a.
Arguments Throw {A} e.

(* ===================================================================== *)
(** ** Text parsers of the crawler and of the profile extractor *)
(* ===================================================================== *)

Module Parse.

Definition star : Z := 9733.        (* U+2605, the full-star glyph *)
Definition half : Z := 189.         (* U+00BD, the one-half glyph *)
Definition lparen : Z := 40.
Definition rparen : Z := 41.

(** [/\s\((\d{4})\)$/] tried at the start of [s]: seven units and then the
    end of the input.  The answer is [(yearMatch[0], yearMatch[1])]. *)
Definition yearHere (s : list Z) : option (list Z * list Z) :=
  match s with
  | [w; lp; d1; d2; d3; d4; rp] =>
      if Js.isWhiteSpace w && (lp =? lparen)
         && Js.isDigit d1 && Js.isDigit d2 && Js.isDigit d3 && Js.isDigit d4
         && (rp =? rparen)
      then Some (s, [d1; d2; d3; d4])
      else None
  | _ => None
  end.

(** [nameWithYear.match(/\s\((\d{4})\)$/)]: start positions are tried from
    the left and the first that matches wins. *)
Fixpoint yearMatch (s : list Z) : option (list Z * list Z) :=
  match yearHere s with
  | Some m => Some m
  | None =>
      match s with
      | [] => None
      | _ :: s' => yearMatch s'
      end
  end.

(** Lines 367-373: [name] and [year] out of the combined string. *)
Definition parseNameYear (nameWithYear : list Z) : list Z * option (list Z) :=
  match yearMatch nameWithYear with
  | Some (m0, m1) => (Js.trim (Js.replaceFirst m0 [] nameWithYear), Some m1)
  | None => (nameWithYear, None)
  end.

(** Lines 376-385: [rawText] is what [.text()] gave ([""] when no rating
    element is there). *)
Definition parseRating (rawText : list Z) : Q :=
  let ratingText := Js.trim rawText in
  if Js.truthy ratingText then
    let stars := Js.countOf star ratingText in
    let halfStar := (if Js.includes half ratingText then 1 # 2 else 0)%Q in
    (inject_Z stars + halfStar)%Q
  else 0%Q.

(** What cheerio's [.data(key)] hands back for a [data-*] attribute.  The
    text of the attribute comes back as a string unless cheerio coerces
    it: [null], [true] and [false] become the primitive, a text that is
    the canonical form of a number becomes that number, and a text in
    braces or brackets that is valid JSON becomes the object or array.  Of
    a coerced value the callback uses two things only: whether it is
    truthy, and the text a template literal gives for it, or the
    exception its conversion to a string throws (an object that came with
    a [toString] key of its own). *)
Inductive DataValue :=
  | NoData                                     (* [undefined]: no attribute *)
  | Text (s : list Z)                          (* a string *)
  | Coerced (isTruthy : bool) (shown : result (list Z)) (* anything else *).

(** [!!v] *)
Definition truthyData (v : DataValue) : bool :=
  match v with
  | NoData => false
  | Text s => Js.truthy s
  | Coerced isTruthy _ => isTruthy
  end.

(** What [`${v}`] gives. *)
Definition interpolate (v : DataValue) : result (list Z) :=
  match v with
  | NoData => Ok (Js.lit "undefined")
  | Text s => Ok s
  | Coerced _ shown => shown
  end.

(** What cheerio finds in one [li.griditem]: the data of the first
    [div.react-component] below it, if there is one, and the text of
    [.poster-viewingdata .rating]. *)
Record ReactComponent := {
  itemName : DataValue;             (* .data("item-name") *)
  itemSlug : DataValue              (* .data("item-slug") *)
}.

Record GridItem := {
  dataContainer : option ReactComponent;
  ratingElText : list Z
}.

(** [!x] for an attribute that may be missing. *)
Definition present (x : option (list Z)) : option (list Z) :=
  match x with
  | Some s => if Js.truthy s then Some s else None
  | None => None
  end.

(** The [TypeError] of a call of [match] on a value that has no such
    method. *)
Definition matchIsNotAFunction : Exn :=
  {| message := Js.lit "nameWithYear.match is not a function" |}.

(** The callback of [filmsOnPage.each], lines 349-403: the record it
    pushes for one item, [None] when it returns early, or the exception it
    throws.  Only a string has a [match] method to call; the slug is
    turned into text when the record is built, after the name, the year
    and the rating are worked out. *)
Definition parseItem (el : GridItem) : result (option FilmRecord) :=
  match dataContainer el with
  | None => Ok None
  | Some dc =>
      let nameWithYear := itemName dc in
      let slug := itemSlug dc in
      if negb (truthyData nameWithYear) || negb (truthyData slug) then Ok None
      else
        match nameWithYear with
        | Text nameWithYear =>
            let '(name, year) := parseNameYear nameWithYear in
            let rating := parseRating (ratingElText el) in
            match interpolate slug with
            | Ok slugText =>
                Ok (Some {| Name := name;
                            Year := year;
                            LetterboxdURI := Js.lit "https://letterboxd.com" ++ slugText;
                            Rating := rating |})
            | Throw e => Throw e
            end
        | _ => Throw matchIsNotAFunction
        end
  end.

(** Lines 308-315: [pageItems] are the texts of [.paginate-pages li a]. *)
Definition computeTotalPages (pageItems : list (list Z)) : Z :=
  match last pageItems with
  | Some lastText =>
      let lastPageText := Js.trim lastText in
      match Js.parseInt lastPageText with
      | Some parsedPage => parsedPage
      | None => 1
      end
  | None => 1
  end.

(** One [\d+] of the avatar pattern: all the digits that are there (what
    follows in the pattern is never a digit, so giving digits back cannot
    help); fails when there is none. *)
Definition eatDigits (s : list Z) : option (list Z) :=
  match Js.takeWhile Js.isDigit s with
  | [] => None
  | _ :: _ => Some (Js.dropWhile Js.isDigit s)
  end.

Definition eatLit (p s : list Z) : option (list Z) :=
  if Js.startsWith p s then Some (drop (length p) s) else None.

(** [/\/avtr-\d+-\d+-\d+-\d+-crop/] tried at the start of [s]; the answer
    is what follows the match. *)
Definition cropHere (s : list Z) : option (list Z) :=
  s1 ← eatLit (Js.lit "/avtr-") s;
  s2 ← eatDigits s1;
  s3 ← eatLit (Js.lit "-") s2;
  s4 ← eatDigits s3;
  s5 ← eatLit (Js.lit "-") s4;
  s6 ← eatDigits s5;
  s7 ← eatLit (Js.lit "-") s6;
  s8 ← eatDigits s7;
  eatLit (Js.lit "-crop") s8.

Definition maxCrop : list Z := Js.lit "/avtr-0-1000-0-1000-crop".

(** [avatarUrl.replace(/\/avtr-\d+-\d+-\d+-\d+-crop/, "/avtr-0-1000-0-1000-crop")]:
    the leftmost match is replaced, nothing else (no [g] flag). *)
Fixpoint rewriteAvatar (s : list Z) : list Z :=
  match cropHere s with
  | Some rest => maxCrop ++ rest
  | None =>
      match s with
      | [] => []
      | c :: s' => c :: rewriteAvatar s'
      end
  end.

(** Lines 206-212: [src] is the attribute of [.profile-avatar .avatar img],
    missing when there is no such element. *)
Definition avatarUrlOf (src : option (list Z)) : Nullable (list Z) :=
  match src with
  | None => Undefined
  | Some s => if Js.truthy s then Value (rewriteAvatar s) else Value s
  end.

(** [text.trim() || null] *)
Definition textOrNull (text : list Z) : Nullable (list Z) :=
  let t := Js.trim text in
  if Js.truthy t then Value t else Null.

(** [parseInt(text.trim().replace(/,/g, "")) || 0] *)
Definition parseCounter (text : list Z) : Z :=
  match Js.parseInt (Js.removeAll 44 (Js.trim text)) with
  | Some n => n
  | None => 0
  end.

End Parse.

(* ===================================================================== *)
(** ** Asynchronous tasks over the job they drive *)
(* ===================================================================== *)

Module Async.

(** What running a piece of an [async] function from a given job state
    gives: the job as it stood at each [await] on the way, the job at the
    end, and the value returned or the exception thrown. *)
Record Run (A : Type) := {
  seen : list Job;
  final : Job;
  outcome : result A
}.
Arguments seen {A} _.
Arguments final {A} _.
Arguments outcome {A} _.

Definition Task (A : Type) : Type := Job -> Run A.

Definition ret {A} (a : A) : Task A :=
  fun j => {| seen := []; final := j; outcome := Ok a |}.

Definition bind {A B} (m : Task A) (k : A -> Task B) : Task B :=
  fun j =>
    let r := m j in
    match outcome r with
    | Ok a =>
        let r' := k a (final r) in
        {| seen := seen r ++ seen r'; final := final r'; outcome := outcome r' |}
    | Throw e => {| seen := seen r; final := final r; outcome := Throw e |}
    end.

(** [await p]: the task is suspended with the job as it is, then resumes
    with the value of [p] or its rejection. *)
Definition await {A} (p : result A) : Task A :=
  fun j => {| seen := [j]; final := j; outcome := p |}.

(** An assignment to a field of the job. *)
Definition update (f : Job -> Job) : Task unit :=
  fun j => {| seen := []; final := f j; outcome := Ok tt |}.

(** An exception thrown by synchronous code of the task. *)
Definition throw {A} (e : Exn) : Task A :=
  fun j => {| seen := []; final := j; outcome := Throw e |}.

(** [try { m } catch (e) { h e }] *)
Definition tryCatch {A} (m : Task A) (h : Exn -> Task A) : Task A :=
  fun j =>
    let r := m j in
    match outcome r with
    | Ok _ => r
    | Throw e =>
        let r' := h e (final r) in
        {| seen := seen r ++ seen r'; final := final r'; outcome := outcome r' |}
    end.

(** [try { m } finally { f }] where [m] yields no value: [f] runs on every
    exit of [m]; an exception of [f] replaces the completion of [m]. *)
Definition tryFinally {B} (m : Task unit) (f : Task B) : Task B :=
  fun j =>
    let r := m j in
    let r' := f (final r) in
    {| seen := seen r ++ seen r';
       final := final r';
       outcome := match outcome r', outcome r with
                  | Throw e, _ => Throw e
                  | Ok _, Throw e => Throw e
                  | Ok b, Ok _ => Ok b
                  end |}.

(** [promise.catch(() => ...)] with a handler that cannot fail. *)
Definition swallow (p : result unit) : result unit := Ok tt.

(** Every job state of a run, in order, the starting one first. *)
Definition states {A} (j : Job) (r : Run A) : list Job :=
  j :: seen r ++ [final r].

End Async.

#[global] Instance task_ret : MRet Async.Task := @Async.ret.
#[global] Instance task_bind : MBind Async.Task :=
  fun A B k m => Async.bind m k.

(* ===================================================================== *)
(** ** Profile extractor *)
(* ===================================================================== *)

Module Profile.
Import Async.

(** What the selectors of [scrapeProfile] find in the profile page. *)
Record ProfileDom := {
  displaynameText : list Z;           (* .person-display-name .displayname *)
  displaynameTitle : option (list Z); (* its data-original-title *)
  avatarSrc : option (list Z);        (* .profile-avatar .avatar img [src] *)
  locationText : list Z;              (* .profile-metadata .metadatum .label *)
  bioText : list Z;                   (* .profile-bio .collapsible-text *)
  filmsText : list Z;                 (* .profile-statistic 'Films' .value *)
  thisYearText : list Z;
  followingText : list Z;
  followersText : list Z
}.

(** The answers of the browser during [scrapeProfile]. *)
Record ProfileEnv := {
  profileGoto : result unit;          (* page.goto(profileUrl) *)
  profileSummaryWait : result unit;   (* waitForSelector(".profile-summary") *)
  profileContent : result ProfileDom  (* page.content() then cheerio.load *)
}.

Definition extractProfile (dom : ProfileDom) (user : list Z) : ProfileSummary :=
  {| displayName := Js.trim (displaynameText dom);
     username := match Parse.present (displaynameTitle dom) with
                 | Some t => t
                 | None => user
                 end;
     avatarUrl := Parse.avatarUrlOf (avatarSrc dom);
     location := Parse.textOrNull (locationText dom);
     bio := Parse.textOrNull (bioText dom);
     stats := {| totalFilms := Parse.parseCounter (filmsText dom);
                 filmsThisYear := Parse.parseCounter (thisYearText dom);
                 following := Parse.parseCounter (followingText dom);
                 followers := Parse.parseCounter (followersText dom) |} |}.

(** The object the [catch] block returns. *)
Definition degradedProfile (user : list Z) : ProfileSummary :=
  {| displayName := user;
     username := user;
     avatarUrl := Null;
     location := Null;
     bio := Null;
     stats := {| totalFilms := 0; filmsThisYear := 0;
                 following := 0; followers := 0 |} |}.

(** The [try] block of [scrapeProfile]. *)
Definition scrapeProfileTry (penv : ProfileEnv) (user : list Z) : Task ProfileSummary :=
  await (profileGoto penv);;
  await (profileSummaryWait penv);;
  dom ← await (profileContent penv);
  mret (extractProfile dom user).

Definition scrapeProfile (penv : ProfileEnv) (user : list Z) : Task ProfileSummary :=
  tryCatch (scrapeProfileTry penv user)
           (fun _ => mret (degradedProfile user)).

End Profile.

(* ===================================================================== *)
(** ** Scrape orchestrator *)
(* ===================================================================== *)

Module Scraper.
Import Async.

(** The answers of the browser for one listing page. *)
Record PageEnv := {
  pageGoto : result unit;                  (* page.goto(pageUrl), pages 2.. *)
  gridExists : result bool;                (* page.evaluate(... "ul.grid") *)
  gridItems : result (list Parse.GridItem) (* page.$eval, then li.griditem *)
}.

(** The answers of the browser during one [startScraping]. *)
Record Env := {
  launch : result unit;                    (* puppeteer.launch *)
  newPage : result unit;
  setUserAgent : result unit;
  profileEnv : Profile.ProfileEnv;
  filmsGoto : result unit;                 (* page.goto(filmsUrl) *)
  gridWait : result unit;                  (* waitForSelector("ul.grid") *)
  paginateItems : result (list (list Z));  (* page.content(), then the
                                              texts of .paginate-pages li a *)
  pages : Z -> PageEnv;
  browserClose : result unit
}.

(** The timer set in the [finally] block. *)
Record Timer := { timerJobId : list Z; timerDelay : Z }.

(** [job.data.push(filmData)] *)
Definition pushFilm (filmData : FilmRecord) (j : Job) : Job :=
  setData (data j ++ [filmData]) j.

(** [filmsOnPage.each(callback)]: the callback runs on the items in
    document order, with no [await] in between; an exception it throws
    ends the iteration and leaves what was pushed before. *)
Fixpoint eachItem (filmsOnPage : list Parse.GridItem) : Task unit :=
  match filmsOnPage with
  | [] => mret tt
  | el :: rest =>
      match Parse.parseItem el with
      | Throw e => throw e
      | Ok None => eachItem rest
      | Ok (Some filmData) => update (pushFilm filmData);; eachItem rest
      end
  end.

(** The [for] loop at [currentPage] with [n] iterations left to run.  It
    is entered with [currentPage = 1] and [n = Z.to_nat totalPages], so
    there is an iteration left exactly when [currentPage <= totalPages];
    [continue] goes on with the next page like the end of the body. *)
Fixpoint pageLoop (env : Env) (n : nat) (currentPage totalPages : Z) : Task unit :=
  match n with
  | O => mret tt
  | S n' =>
      (if 1 <? currentPage
       then await (pageGoto (pages env currentPage))
       else mret tt);;
      posterListExists ← await (gridExists (pages env currentPage));
      if negb posterListExists
      then pageLoop env n' (currentPage + 1) totalPages       (* continue *)
      else
        filmsOnPage ← await (gridItems (pages env currentPage));
        eachItem filmsOnPage;;
        update (setProgress (inject_Z currentPage / inject_Z totalPages)%Q);;
        await (Ok tt);;                                       (* 500 ms *)
        pageLoop env n' (currentPage + 1) totalPages
  end.

(** The [try] block of [startScraping]. *)
Definition startScrapingTry (env : Env) (user : list Z) : Task unit :=
  update (setStatus InProgress);;
  await (launch env);;
  await (newPage env);;
  await (setUserAgent env);;
  profile ← Profile.scrapeProfile (profileEnv env) user;
  await (Ok tt);;
  update (setProfileData profile);;
  await (filmsGoto env);;
  await (swallow (gridWait env));;
  pageItems ← await (paginateItems env);
  let totalPages := Parse.computeTotalPages pageItems in
  update (setTotalPages totalPages);;
  pageLoop env (Z.to_nat totalPages) 1 totalPages;;
  update (setStatus Completed).

(** The [catch] block. *)
Definition onError (e : Exn) : Task unit :=
  update (fun j => setError (message e) (setStatus Failed j)).

(** The [finally] block; [browser] is set exactly when the launch
    succeeded. *)
Definition cleanup (env : Env) (jobId : list Z) : Task Timer :=
  match launch env with
  | Ok _ => await (browserClose env)
  | Throw _ => mret tt
  end;;
  mret {| timerJobId := jobId; timerDelay := 3600000 |}.

Definition startScraping (env : Env) (user jobId : list Z) : Task Timer :=
  tryFinally (tryCatch (startScrapingTry env user) onError)
             (cleanup env jobId).

End Scraper.

(* ===================================================================== *)
(** ** Submission and status handlers *)
(* ===================================================================== *)

Module Api.
Import Async.

(** The object [scrapingJobs.set] stores for a new job. *)
Definition newJob : Job :=
  {| status := Pending; data := []; profileData := None;
     progress := 0%Q; totalPages := 1; error := None |}.

Inductive PostReply :=
  | Post200 (jobId : list Z) (st : JobStatus) (msg : list Z)
  | Post400 (msg : list Z).

(** The job as the first [await] of a task leaves it. *)
Definition atFirstAwait {A} (r : Run A) : Job :=
  match seen r with
  | j :: _ => j
  | [] => final r
  end.

(** [POST /]: [now] is [Date.now()], [user] the [username] of the body
    ([None] when the key is missing).  The call of [startScraping] runs up
    to its first [await] before the handler returns; the rest of the task
    goes on mutating the same job object afterwards. *)
Definition postHandler (now : Z) (user : option (list Z)) (env : Scraper.Env)
    (scrapingJobs : gmap (list Z) Job) : gmap (list Z) Job * PostReply :=
  match Parse.present user with
  | None => (scrapingJobs, Post400 (Js.lit "Username is required."))
  | Some u =>
      let jobId := Js.lit "job_" ++ Js.numberToString now in
      let started := atFirstAwait (Scraper.startScraping env u jobId newJob) in
      (<[jobId := started]> scrapingJobs,
       Post200 jobId Pending (Js.lit "Scraping started"))
  end.

Record StatusReply := {
  replyStatus : JobStatus;
  replyProgress : Q;
  replyTotalPages : Z;
  replyData : list FilmRecord;
  replyProfileData : option ProfileSummary;
  replyError : option (list Z)
}.

Inductive GetReply :=
  | Get200 (r : StatusReply)
  | Get400 (msg : list Z).

Definition isCompleted (s : JobStatus) : bool :=
  match s with Completed => true | _ => false end.

(** [GET /?jobId=...] *)
Definition getHandler (jobId : option (list Z))
    (scrapingJobs : gmap (list Z) Job) : GetReply :=
  match Parse.present jobId with
  | None => Get400 (Js.lit "Invalid job ID")
  | Some id =>
      match scrapingJobs !! id with
      | None => Get400 (Js.lit "Invalid job ID")
      | Some job =>
          Get200 {| replyStatus := status job;
                    replyProgress := progress job;
                    replyTotalPages := totalPages job;
                    replyData := if isCompleted (status job) then data job else [];
                    replyProfileData := profileData job;
                    replyError := error job |}
      end
  end.

(** The timer of [startScraping] firing. *)
Definition evict (t : Scraper.Timer) (scrapingJobs : gmap (list Z) Job) : gmap (list Z) Job :=
  delete (Scraper.timerJobId t) scrapingJobs.

End Api.

(* ===================================================================== *)
(** ** Sample inputs *)
(* ===================================================================== *)

Module Sample.

Definition alice : list Z := Js.lit "alice".
Definition bob : list Z := Js.lit "bob".

Definition threeAndHalf : list Z := [Parse.star; Parse.star; Parse.star; Parse.half].
Definition fiveStars : list Z := repeat Parse.star 5.
Definition sixStars : list Z := repeat Parse.star 6.

Definition item (name slug rating : list Z) : Parse.GridItem :=
  {| Parse.dataContainer :=
       Some {| Parse.itemName := Parse.Text name; Parse.itemSlug := Parse.Text slug |};
     Parse.ratingElText := rating |}.

Definition arrivalItem : Parse.GridItem :=
  item (Js.lit "Arrival (2016)") (Js.lit "/film/arrival-2016/") threeAndHalf.

Definition arrival : FilmRecord :=
  {| Name := Js.lit "Arrival";
     Year := Some (Js.lit "2016");
     LetterboxdURI := Js.lit "https://letterboxd.com/film/arrival-2016/";
     Rating := (inject_Z 3 + (1 # 2))%Q |}.

Definition sixStarItem : Parse.GridItem :=
  item (Js.lit "Heat (1995)") (Js.lit "/film/heat-1995/") sixStars.

(** An item whose [data-item-name] is the text [1917]: a number once
    cheerio has read it. *)
Definition numericNameItem : Parse.GridItem :=
  {| Parse.dataContainer :=
       Some {| Parse.itemName := Parse.Coerced true (Ok (Js.lit "1917"));
               Parse.itemSlug := Parse.Text (Js.lit "/film/1917/") |};
     Parse.ratingElText := fiveStars |}.

(** An item whose [data-item-slug] is the text of an empty array. *)
Definition emptyArraySlugItem : Parse.GridItem :=
  {| Parse.dataContainer :=
       Some {| Parse.itemName := Parse.Text (Js.lit "Heat (1995)");
               Parse.itemSlug := Parse.Coerced true (Ok []) |};
     Parse.ratingElText := fiveStars |}.

(** An item whose [data-item-name] is the text [0]: the number zero. *)
Definition zeroNameItem : Parse.GridItem :=
  {| Parse.dataContainer :=
       Some {| Parse.itemName := Parse.Coerced false (Ok (Js.lit "0"));
               Parse.itemSlug := Parse.Text (Js.lit "/film/0/") |};
     Parse.ratingElText := fiveStars |}.

Definition timeout : Exn :=
  {| message := Js.lit "Navigation timeout of 60000 ms exceeded" |}.

Definition aliceDom : Profile.ProfileDom :=
  {| Profile.displaynameText := Js.lit " Alice ";
     Profile.displaynameTitle := Some alice;
     Profile.avatarSrc :=
       Some (Js.lit "https://a.ltrbxd.com/resized/avatar/upload/1/2/3/shard/avtr-0-220-0-220-crop.jpg");
     Profile.locationText := Js.lit "Lisbon";
     Profile.bioText := [];
     Profile.filmsText := Js.lit "1,204";
     Profile.thisYearText := Js.lit "37";
     Profile.followingText := Js.lit "12";
     Profile.followersText := [] |}.

Definition profileOk : Profile.ProfileEnv :=
  {| Profile.profileGoto := Ok tt;
     Profile.profileSummaryWait := Ok tt;
     Profile.profileContent := Ok aliceDom |}.

Definition profileDown : Profile.ProfileEnv :=
  {| Profile.profileGoto := Throw timeout;
     Profile.profileSummaryWait := Ok tt;
     Profile.profileContent := Ok aliceDom |}.

Definition pageOf (items : list Parse.GridItem) : Scraper.PageEnv :=
  {| Scraper.pageGoto := Ok tt;
     Scraper.gridExists := Ok true;
     Scraper.gridItems := Ok items |}.

Definition pageDown : Scraper.PageEnv :=
  {| Scraper.pageGoto := Throw timeout;
     Scraper.gridExists := Ok true;
     Scraper.gridItems := Ok [] |}.

Definition envWith (pageItems : list (list Z)) (pgs : Z -> Scraper.PageEnv) : Scraper.Env :=
  {| Scraper.launch := Ok tt;
     Scraper.newPage := Ok tt;
     Scraper.setUserAgent := Ok tt;
     Scraper.profileEnv := profileOk;
     Scraper.filmsGoto := Ok tt;
     Scraper.gridWait := Ok tt;
     Scraper.paginateItems := Ok pageItems;
     Scraper.pages := pgs;
     Scraper.browserClose := Ok tt |}.

(** Two listing pages; the second navigation times out. *)
Definition envSecondPageDown : Scraper.Env :=
  envWith [Js.lit "1"; Js.lit "2"]
          (fun p => if p =? 1 then pageOf [arrivalItem] else pageDown).

(** Two listing pages, both read. *)
Definition envTwoPages : Scraper.Env :=
  envWith [Js.lit "1"; Js.lit "2"]
          (fun p => if p =? 1 then pageOf [arrivalItem] else pageOf [sixStarItem]).

(** One listing page whose second item makes the callback throw. *)
Definition envItemThrows : Scraper.Env :=
  envWith [Js.lit "1"]
          (fun _ => pageOf [arrivalItem; numericNameItem; sixStarItem]).

Definition someJobId : list Z := Js.lit "job_1700000000000".

End Sample.

(* ===================================================================== *)
(** ** Vocabulary of the statements *)
(* ===================================================================== *)

(** Each state of the list is related to the next one, starting from [j]. *)
Fixpoint chainFrom (R : Job -> Job -> Prop) (j : Job) (l : list Job) : Prop :=
  match l with
  | [] => True
  | x :: l' => R j x /\ chainFrom R x l'
  end.

(** Running [m] from [j] moves the job along [R] from one observable state
    to the next, and ends in [Q] on a return and in [E] on an exception. *)
Definition wp {A} (R : Job -> Job -> Prop) (m : Async.Task A)
    (Q : A -> Job -> Prop) (E : Exn -> Job -> Prop) (j : Job) : Prop :=
  chainFrom R j (Async.seen (m j) ++ [Async.final (m j)]) /\
  match Async.outcome (m j) with
  | Ok a => Q a (Async.final (m j))
  | Throw e => E e (Async.final (m j))
  end.

(** [progress] is still 0, or it is [currentPage / totalPages] for a page
    number of the listing. *)
Definition pageFraction (j : Job) : Prop :=
  (progress j == 0)%Q \/
  exists currentPage,
    1 <= currentPage <= totalPages j /\
    (progress j == inject_Z currentPage / inject_Z (totalPages j))%Q.

(** The page count a run settles on: what the pagination list of the first
    listing page gives, or the initial 1 when that page could not be read. *)
Definition determinedTotalPages (env : Scraper.Env) : Z :=
  match Scraper.paginateItems env with
  | Ok pageItems => Parse.computeTotalPages pageItems
  | Throw _ => 1
  end.

(** A number that is a whole count of halves. *)
Definition halfMultiple (q : Q) : Prop := exists k : Z, (q == k # 2)%Q.

(** A non-empty run of decimal digits. *)
Definition digits (d : list Z) : Prop :=
  d <> [] /\ Forall (fun c => Js.isDigit c = true) d.

(** The strings the avatar pattern matches in full. *)
Definition cropSegment (seg : list Z) : Prop :=
  exists d1 d2 d3 d4,
    digits d1 /\ digits d2 /\ digits d3 /\ digits d4 /\
    seg = Js.lit "/avtr-" ++ d1 ++ Js.lit "-" ++ d2 ++ Js.lit "-" ++ d3
          ++ Js.lit "-" ++ d4 ++ Js.lit "-crop".

(** [s] holds a match of the avatar pattern somewhere. *)
Definition hasCrop (s : list Z) : Prop :=
  exists pre seg post, s = pre ++ seg ++ post /\ cropSegment seg.


(** The strings the year pattern matches in full: a white-space unit and a
    parenthesised run of exactly four digits, [y]. *)
Definition yearSuffix (m y : list Z) : Prop :=
  exists w d1 d2 d3 d4,
    Js.isWhiteSpace w = true /\
    Js.isDigit d1 = true /\ Js.isDigit d2 = true /\
    Js.isDigit d3 = true /\ Js.isDigit d4 = true /\
    y = [d1; d2; d3; d4] /\
    m = [w; Parse.lparen; d1; d2; d3; d4; Parse.rparen].

(** [s] ends with a match of the year pattern. *)
Definition endsWithYear (s : list Z) : Prop :=
  exists p m y, s = p ++ m /\ yearSuffix m y.

(** Whether two job states show the same to a poll, the profile apart. *)
Definition sameShown (a b : Job) : bool :=
  match status a, status b with
  | Pending, Pending | InProgress, InProgress
  | Completed, Completed | Failed, Failed => true
  | _, _ => false
  end
  && Qeq_bool (progress a) (progress b)
  && (totalPages a =? totalPages b)
  && (length (data a) =? length (data b))%nat.

(** A trace with the repetitions of a state left out. *)
Fixpoint distinctStates (l : list Job) : list Job :=
  match l with
  | [] => []
  | a :: l' =>
      match l' with
      | b :: _ => if sameShown a b then distinctStates l'
                  else a :: distinctStates l'
      | [] => [a]
      end
  end.

(** The job once the [catch] block has run. *)
Definition failedWith (m : list Z) (j : Job) : Job :=
  setError m (setStatus Failed j).

(** One step of a job as far as [progress] is concerned. *)
Definition progressStep (a b : Job) : Prop :=
  (progress a <= progress b)%Q /\ (pageFraction a -> pageFraction b).

(** Before page [q] of [tp] is read, [progress] is 0 or the fraction of an
    earlier page. *)
Definition progressBefore (tp q : Z) (j : Job) : Prop :=
  totalPages j = tp /\
  ((progress j == 0)%Q \/
   exists k, 1 <= k < q /\ k <= tp /\
     (progress j == inject_Z k / inject_Z tp)%Q).

(** One step of a job as far as [totalPages] is concerned: it stays, or it
    goes from the initial 1 to [T]; a completed job has [T]. *)
Definition totalPagesStep (T : Z) (a b : Job) : Prop :=
  (totalPages b = totalPages a \/ (totalPages a = 1 /\ totalPages b = T)) /\
  ((status a = Completed -> totalPages a = T) ->
   (status b = Completed -> totalPages b = T)).

(** What is known of the rating of a record the crawler built. *)
Definition crawledRating (f : FilmRecord) : Prop :=
  (exists ratingText, Rating f = Parse.parseRating ratingText) /\
  (0 <= Rating f)%Q /\ halfMultiple (Rating f).

(** One step of a job as far as the ratings in [data] are concerned. *)
Definition ratingsStep (a b : Job) : Prop :=
  Forall crawledRating (data a) -> Forall crawledRating (data b).

(** What a poll answers for a failed job [j] stored under a usable id. *)
Definition failedReply (j : Job) (msg : list Z) : Api.GetReply :=
  Api.Get200 {| Api.replyStatus := Failed;
                Api.replyProgress := progress j;
                Api.replyTotalPages := totalPages j;
                Api.replyData := [];
                Api.replyProfileData := profileData j;
                Api.replyError := Some msg |}.

(** A failed job carries an error message. *)
Definition failedHasError (j : Job) : Prop :=
  status j = Failed -> exists msg, error j = Some msg.

(** One step of a job as far as [data] and [error] are concerned. *)
Definition dataStep (a b : Job) : Prop :=
  data a `prefix_of` data b /\ (failedHasError a -> failedHasError b).

(** The job after the first assignment of [startScraping], after the
    profile is stored, and after the page count is stored. *)
Definition started : Job := setStatus InProgress Api.newJob.
Definition profiled (p : ProfileSummary) : Job := setProfileData p started.
Definition counted (p : ProfileSummary) (tp : Z) : Job := setTotalPages tp (profiled p).

(* ===================================================================== *)
(** ** The older selector scheme *)
(* ===================================================================== *)

(** The item callback and the counter parser of the variant of the route
    that reads [ul.poster-list] / [li.poster-container]. *)
Module Legacy.

(** [/\(\d{4}\)$/] tried at the start of [s]: six units and then the end
    of the input. *)
Definition yearTailHere (s : list Z) : bool :=
  match s with
  | [lp; d1; d2; d3; d4; rp] =>
      (lp =? Parse.lparen)
      && Js.isDigit d1 && Js.isDigit d2 && Js.isDigit d3 && Js.isDigit d4
      && (rp =? Parse.rparen)
  | _ => false
  end.

(** [titleAttr.replace(/\(\d{4}\)$/, "")]: the text the pattern matched,
    where it matched, is taken out. *)
Fixpoint stripYearTail (s : list Z) : list Z :=
  if yearTailHere s then []
  else match s with
       | [] => []
       | c :: s' => c :: stripYearTail s'
       end.





(** [parseInt(text.trim()) || 0] *)
Definition parseCounter (text : list Z) : Z :=
  match Js.parseInt (Js.trim text) with
  | Some n => n
  | None => 0
  end.

End Legacy.

(* ===================================================================== *)
(** ** Vocabulary of the statements about whole runs *)
(* ===================================================================== *)

(** The exception of a rejected promise. *)
Definition failure {A} (r : result A) : option Exn :=
  match r with
  | Ok _ => None
  | Throw e => Some e
  end.

(** The exception that ends [filmsOnPage.each]: the first one the
    callback throws, if it throws. *)
Fixpoint itemsFailure (items : list Parse.GridItem) : option Exn :=
  match items with
  | [] => None
  | el :: rest =>
      match Parse.parseItem el with
      | Throw e => Some e
      | Ok _ => itemsFailure rest
      end
  end.

(** The records [filmsOnPage.each] pushes, in document order: those of the
    items ahead of the first one the callback throws on. *)
Fixpoint pushedRecords (items : list Parse.GridItem) : list FilmRecord :=
  match items with
  | [] => []
  | el :: rest =>
      match Parse.parseItem el with
      | Throw _ => []
      | Ok None => pushedRecords rest
      | Ok (Some filmData) => filmData :: pushedRecords rest
      end
  end.

(** The first step of the page loop that fails, over [n] pages from
    [currentPage] on, in the order the loop performs them: a navigation,
    the look for the grid, the reading of the grid, or the item callback. *)
Fixpoint pagesFailure (env : Scraper.Env) (n : nat) (currentPage : Z) : option Exn :=
  match n with
  | O => None
  | S n' =>
      match (if 1 <? currentPage
             then failure (Scraper.pageGoto (Scraper.pages env currentPage))
             else None) with
      | Some e => Some e
      | None =>
          match Scraper.gridExists (Scraper.pages env currentPage) with
          | Throw e => Some e
          | Ok false => pagesFailure env n' (currentPage + 1)
          | Ok true =>
              match Scraper.gridItems (Scraper.pages env currentPage) with
              | Throw e => Some e
              | Ok items =>
                  match itemsFailure items with
                  | Some e => Some e
                  | None => pagesFailure env n' (currentPage + 1)
                  end
              end
          end
      end
  end.

(** The first step of the [try] block of [startScraping] that fails, the
    profile page and the wait for [ul.grid] left out. *)
Definition firstFailure (env : Scraper.Env) : option Exn :=
  match Scraper.launch env with
  | Throw e => Some e
  | Ok _ =>
  match Scraper.newPage env with
  | Throw e => Some e
  | Ok _ =>
  match Scraper.setUserAgent env with
  | Throw e => Some e
  | Ok _ =>
  match Scraper.filmsGoto env with
  | Throw e => Some e
  | Ok _ =>
  match Scraper.paginateItems env with
  | Throw e => Some e
  | Ok pageItems =>
      pagesFailure env (Z.to_nat (Parse.computeTotalPages pageItems)) 1
  end end end end end.

(** The records of the listing page [p]: those its items give when the
    page has a grid, none otherwise. *)
Definition pageRecords (env : Scraper.Env) (p : Z) : list FilmRecord :=
  match Scraper.gridExists (Scraper.pages env p), Scraper.gridItems (Scraper.pages env p) with
  | Ok true, Ok items => pushedRecords items
  | _, _ => []
  end.

(** The page numbers [1 .. totalPages]. *)
Definition pageNumbers (totalPages : Z) : list Z :=
  List.map Z.of_nat (seq 1 (Z.to_nat totalPages)).

(** The records of all listing pages, in page order. *)
Definition crawlRecords (env : Scraper.Env) : list FilmRecord :=
  flat_map (pageRecords env) (pageNumbers (determinedTotalPages env)).

(** Whether the listing page [p] shows a grid. *)
Definition hasGrid (env : Scraper.Env) (p : Z) : bool :=
  match Scraper.gridExists (Scraper.pages env p) with
  | Ok true => true
  | _ => false
  end.

(** What [scrapeProfile] returns. *)
Definition scrapedProfile (penv : Profile.ProfileEnv) (user : list Z) : ProfileSummary :=
  match Profile.profileGoto penv, Profile.profileSummaryWait penv, Profile.profileContent penv with
  | Ok _, Ok _, Ok dom => Profile.extractProfile dom user
  | _, _, _ => Profile.degradedProfile user
  end.

(** How far a status is in the life of a job. *)
Definition rank (s : JobStatus) : Z :=
  match s with
  | Pending => 0
  | InProgress => 1
  | Completed => 2
  | Failed => 2
  end.

(** One step of a job as far as [status] is concerned: never backwards,
    and a completed or failed job stays what it is. *)
Definition statusStep (a b : Job) : Prop :=
  rank (status a) <= rank (status b) /\
  (rank (status a) = 2 -> status b = status a).


(** A record of the current item callback: an address that is the site's
    origin followed by what the slug shows as, and a year that is four
    digits when there is one. *)
Definition crawledRecord (f : FilmRecord) : Prop :=
  (exists slug slugText,
     Parse.truthyData slug = true /\ Parse.interpolate slug = Ok slugText /\
     LetterboxdURI f = Js.lit "https://letterboxd.com" ++ slugText) /\
  (forall y, Year f = Some y ->
     length y = 4%nat /\ Forall (fun c => Js.isDigit c = true) y).

Definition recordsStep (a b : Job) : Prop :=
  Forall crawledRecord (data a) -> Forall crawledRecord (data b).

(** The pages whose [progress] assignment the loop reaches, over [n] pages
    from [currentPage] on: those that show a grid and whose items the
    callback gets through, up to the first step that fails. *)
Fixpoint progressPagesFrom (env : Scraper.Env) (n : nat) (currentPage : Z) : list Z :=
  match n with
  | O => []
  | S n' =>
      match (if 1 <? currentPage
             then failure (Scraper.pageGoto (Scraper.pages env currentPage))
             else None) with
      | Some _ => []
      | None =>
          match Scraper.gridExists (Scraper.pages env currentPage) with
          | Throw _ => []
          | Ok false => progressPagesFrom env n' (currentPage + 1)
          | Ok true =>
              match Scraper.gridItems (Scraper.pages env currentPage) with
              | Throw _ => []
              | Ok items =>
                  match itemsFailure items with
                  | Some _ => []
                  | None => currentPage :: progressPagesFrom env n' (currentPage + 1)
                  end
              end
          end
      end
  end.

(** The pages whose [progress] assignment a run reaches, in order. *)
Definition progressPages (env : Scraper.Env) : list Z :=
  match Scraper.launch env, Scraper.newPage env, Scraper.setUserAgent env,
        Scraper.filmsGoto env, Scraper.paginateItems env with
  | Ok _, Ok _, Ok _, Ok _, Ok pageItems =>
      progressPagesFrom env (Z.to_nat (Parse.computeTotalPages pageItems)) 1
  | _, _, _, _, _ => []
  end.

(** [progress] as the assignment for page [currentPage] leaves it in a job
    whose page count is [T]. *)
Definition progressOfPage (T currentPage : Z) (j : Job) : Prop :=
  totalPages j = T /\ progress j = (inject_Z currentPage / inject_Z T)%Q.

(** An integer that a double holds exactly, and every integer of smaller
    magnitude with it. *)
Definition safeInteger (n : Z) : Prop := Z.abs n <= 2 ^ 53.

(** One step of a job as far as [profileData] is concerned: it stays, or
    it goes from unset to [p]. *)
Definition profileStep (p : ProfileSummary) (a b : Job) : Prop :=
  profileData b = profileData a \/ (profileData a = None /\ profileData b = Some p).

(** The number a run of decimal digits denotes. *)
Definition decimalValue (d : list Z) : Z :=
  fold_left (fun acc c => 10 * acc + (c - 48)) d 0.

(** A text of digits and thousands separators. *)
Definition grouped (t : list Z) : Prop :=
  Forall (fun c => Js.isDigit c = true \/ c = 44) t.

(* ===================================================================== *)
(** ** Evaluation of the definitions on small inputs *)
(* ===================================================================== *)

Example lit_job : Js.lit "job_" = [106; 111; 98; 95].
Proof. reflexivity. Qed.

Example trim_example : Js.trim (Js.lit "  a b  ") = Js.lit "a b".
Proof. reflexivity. Qed.

Example parseInt_12 : Js.parseInt (Js.lit " 12abc") = Some 12.
Proof. reflexivity. Qed.

Example parseInt_nan : Js.parseInt (Js.lit "Next") = None.
Proof. reflexivity. Qed.

Example parseInt_hex : Js.parseInt (Js.lit "0x1f") = Some 31.
Proof. reflexivity. Qed.

Example parseInt_rounds :
  Js.parseInt (Js.lit "9007199254740993") = Some 9007199254740992 /\
  Js.parseInt (Js.lit "9007199254740995") = Some 9007199254740996 /\
  Js.parseInt (Js.lit "-9007199254740992") = Some (-9007199254740992).
Proof. repeat split. Qed.

Example item_throws_run :
  let j := Async.final (Scraper.startScraping Sample.envItemThrows Sample.alice
                          Sample.someJobId Api.newJob) in
  status j = Failed /\ data j = [Sample.arrival] /\ progress j = 0%Q /\
  error j = Some (Js.lit "nameWithYear.match is not a function").
Proof. repeat split. Qed.

Example parseItem_empty_array_slug :
  LetterboxdURI <$> (match Parse.parseItem Sample.emptyArraySlugItem with
                     | Ok r => r
                     | Throw _ => None
                     end)
  = Some (Js.lit "https://letterboxd.com").
Proof. reflexivity. Qed.

Example parseItem_zero_name :
  Parse.parseItem Sample.zeroNameItem = Ok None.
Proof. reflexivity. Qed.

Example numberToString_example : Js.numberToString 1700000000000 = Js.lit "1700000000000".
Proof. reflexivity. Qed.

Example replaceFirst_example :
  Js.replaceFirst (Js.lit "ab") [] (Js.lit "xabyab") = Js.lit "xyab".
Proof. reflexivity. Qed.

Example two_pages_run :
  List.map (fun j => (status j, progress j, totalPages j, length (data j)))
    (distinctStates
       (Async.states Api.newJob
          (Scraper.startScraping Sample.envTwoPages Sample.alice
             Sample.someJobId Api.newJob)))
  = [(Pending, 0%Q, 1, 0%nat); (InProgress, 0%Q, 1, 0%nat);
     (InProgress, 0%Q, 2, 0%nat); (InProgress, 1 # 2, 2, 1%nat);
     (InProgress, 2 # 2, 2, 2%nat); (Completed, 2 # 2, 2, 2%nat)].
Proof. reflexivity. Qed.

Example second_page_down_run :
  List.map (fun j => (status j, progress j, totalPages j, length (data j)))
    (distinctStates
       (Async.states Api.newJob
          (Scraper.startScraping Sample.envSecondPageDown Sample.alice
             Sample.someJobId Api.newJob)))
  = [(Pending, 0%Q, 1, 0%nat); (InProgress, 0%Q, 1, 0%nat);
     (InProgress, 0%Q, 2, 0%nat); (InProgress, 1 # 2, 2, 1%nat);
     (Failed, 1 # 2, 2, 1%nat)].
Proof. reflexivity. Qed.

(* ===================================================================== *)
(** ** Counting glyphs through [trim] *)
(* ===================================================================== *)

Section Glyphs.

Variable c : Z.
Hypothesis c_not_space : Js.isWhiteSpace c = false.

Lemma countOf_app (s t : list Z) :
  Js.countOf c (s ++ t) = Js.countOf c s + Js.countOf c t.
Proof. induction s as [|x s IH]; simpl; [reflexivity | rewrite IH; lia]. Qed.

Lemma countOf_rev (s : list Z) : Js.countOf c (rev s) = Js.countOf c s.
Proof.
  induction s as [|x s IH]; simpl; [reflexivity|].
  rewrite countOf_app, IH. simpl. lia.
Qed.

Lemma countOf_nonneg (s : list Z) : 0 <= Js.countOf c s.
Proof. induction s as [|x s IH]; simpl; [lia | destruct (x =? c); lia]. Qed.

Lemma countOf_dropWhile (s : list Z) :
  Js.countOf c (Js.dropWhile Js.isWhiteSpace s) = Js.countOf c s.
Proof using c_not_space.
  induction s as [|x s IH]; simpl; [reflexivity|].
  destruct (Js.isWhiteSpace x) eqn:Hx; simpl; [|reflexivity].
  rewrite IH. destruct (Z.eqb_spec x c) as [->|]; [congruence | lia].
Qed.

Lemma countOf_trim (s : list Z) : Js.countOf c (Js.trim s) = Js.countOf c s.
Proof using c_not_space.
  unfold Js.trim, Js.trimEnd, Js.trimStart.
  now rewrite countOf_rev, countOf_dropWhile, countOf_rev, countOf_dropWhile.
Qed.

Lemma includes_app (s t : list Z) :
  Js.includes c (s ++ t) = Js.includes c s || Js.includes c t.
Proof. unfold Js.includes. apply existsb_app. Qed.

Lemma includes_rev (s : list Z) : Js.includes c (rev s) = Js.includes c s.
Proof.
  induction s as [|x s IH]; simpl; [reflexivity|].
  rewrite includes_app, IH. simpl. unfold Js.includes at 2. simpl.
  rewrite orb_false_r. apply orb_comm.
Qed.

Lemma includes_dropWhile (s : list Z) :
  Js.includes c (Js.dropWhile Js.isWhiteSpace s) = Js.includes c s.
Proof using c_not_space.
  induction s as [|x s IH]; simpl; [reflexivity|].
  destruct (Js.isWhiteSpace x) eqn:Hx; simpl; [|reflexivity].
  rewrite IH. destruct (Z.eqb_spec c x) as [->|]; [congruence | reflexivity].
Qed.

Lemma includes_trim (s : list Z) : Js.includes c (Js.trim s) = Js.includes c s.
Proof using c_not_space.
  unfold Js.trim, Js.trimEnd, Js.trimStart.
  now rewrite includes_rev, includes_dropWhile, includes_rev, includes_dropWhile.
Qed.

End Glyphs.

Lemma star_not_space : Js.isWhiteSpace Parse.star = false.
Proof. reflexivity. Qed.

Lemma half_not_space : Js.isWhiteSpace Parse.half = false.
Proof. reflexivity. Qed.

(** The rating in terms of the text as [.text()] gave it, before [trim]. *)
Lemma parseRating_raw (t : list Z) :
  Parse.parseRating t =
  (inject_Z (Js.countOf Parse.star t)
   + (if Js.includes Parse.half t then 1 # 2 else 0))%Q.
Proof.
  unfold Parse.parseRating.
  pose proof (countOf_trim Parse.star star_not_space t) as Hc.
  pose proof (includes_trim Parse.half half_not_space t) as Hi.
  destruct (Js.trim t) as [|x r] eqn:Ht; simpl Js.truthy; cbv iota.
  - rewrite <- Hc, <- Hi. reflexivity.
  - rewrite <- Hc, <- Hi. reflexivity.
Qed.

(** The rating as a count of halves. *)
Lemma parseRating_halves (t : list Z) :
  (Parse.parseRating t ==
   (2 * Js.countOf Parse.star t + (if Js.includes Parse.half t then 1 else 0)) # 2)%Q.
Proof.
  rewrite parseRating_raw.
  destruct (Js.includes Parse.half t); unfold Qeq, Qplus, inject_Z; simpl; lia.
Qed.

(* ===================================================================== *)
(** ** Reasoning rules for tasks *)
(* ===================================================================== *)

Import Async.

Section Rules.

Context (R : Job -> Job -> Prop) {R_pre : PreOrder R}.

Lemma chainFrom_app (j x : Job) (l1 l2 : list Job) :
  chainFrom R j (l1 ++ [x]) -> chainFrom R x l2 -> chainFrom R j (l1 ++ l2).
Proof using R_pre.
  revert j. induction l1 as [|a l1 IH]; simpl; intros j.
  - intros [Hjx _] H2. destruct l2 as [|y l2]; simpl in *; [exact I|].
    destruct H2 as [Hxy H2]. split; [|exact H2]. now transitivity x.
  - intros [Hja H1] H2. split; [exact Hja|]. now apply IH.
Qed.

Lemma chainFrom_sorted (j : Job) (l : list Job) :
  chainFrom R j l -> Sorted.StronglySorted R (j :: l).
Proof using R_pre.
  revert j. induction l as [|x l IH]; simpl; intros j.
  - intros _. constructor; constructor.
  - intros [Hjx Hx]. specialize (IH x Hx).
    constructor; [exact IH|].
    constructor; [exact Hjx|].
    inversion IH as [|? ? _ Hall]; subst.
    eapply Forall_impl; [exact Hall|]. intros y Hy. now transitivity x.
Qed.

Lemma wp_ret {A} (a : A) (Q : A -> Job -> Prop) E j :
  Q a j -> wp R (mret a) Q E j.
Proof using R_pre. intros HQ. split; simpl; [split; [reflexivity | exact I] | exact HQ]. Qed.

Lemma wp_update (f : Job -> Job) (Q : unit -> Job -> Prop) E j :
  R j (f j) -> Q tt (f j) -> wp R (update f) Q E j.
Proof. intros HR HQ. split; simpl; [split; [exact HR | exact I] | exact HQ]. Qed.

Lemma wp_await {A} (p : result A) (Q : A -> Job -> Prop) E j :
  match p with Ok a => Q a j | Throw e => E e j end ->
  wp R (await p) Q E j.
Proof using R_pre.
  intros H. split; simpl; [|exact H].
  repeat split; reflexivity.
Qed.

Lemma wp_bind {A B} (m : Task A) (k : A -> Task B) (Q : B -> Job -> Prop) E j :
  wp R m (fun a j' => wp R (k a) Q E j') E j ->
  wp R (m ≫= k) Q E j.
Proof using R_pre.
  unfold wp, mbind, task_bind, bind. intros [Hc Ho].
  destruct (outcome (m j)) as [a|e]; simpl.
  - destruct Ho as [Hc' Ho']. split; [|exact Ho'].
    rewrite <- app_assoc. eapply chainFrom_app; eassumption.
  - split; assumption.
Qed.

Lemma wp_tryCatch {A} (m : Task A) (h : Exn -> Task A) (Q : A -> Job -> Prop) E j :
  wp R m Q (fun e j' => wp R (h e) Q E j') j ->
  wp R (tryCatch m h) Q E j.
Proof using R_pre.
  unfold wp, tryCatch. intros [Hc Ho].
  destruct (outcome (m j)) as [a|e] eqn:Hout; simpl.
  - rewrite Hout. split; assumption.
  - destruct Ho as [Hc' Ho']. split; [|exact Ho'].
    rewrite <- app_assoc. eapply chainFrom_app; eassumption.
Qed.

Lemma wp_tryFinally {B} (m : Task unit) (f : Task B) (Q : B -> Job -> Prop) E j :
  wp R m (fun _ j' => wp R f Q E j')
         (fun e j' => wp R f (fun _ j'' => E e j'') E j') j ->
  wp R (tryFinally m f) Q E j.
Proof using R_pre.
  unfold wp, tryFinally. intros [Hc Ho]. simpl.
  destruct (outcome (m j)) as [a|e]; destruct Ho as [Hc' Ho'];
    (split; [rewrite <- app_assoc; eapply chainFrom_app; eassumption|]);
    destruct (outcome (f (final (m j)))); assumption.
Qed.

Lemma wp_mono {A} (m : Task A) (Q Q' : A -> Job -> Prop) (E E' : Exn -> Job -> Prop) j :
  wp R m Q E j ->
  (forall a j', Q a j' -> Q' a j') ->
  (forall e j', E e j' -> E' e j') ->
  wp R m Q' E' j.
Proof.
  unfold wp. intros [Hc Ho] HQ HE. split; [exact Hc|].
  destruct (outcome (m j)); auto.
Qed.

(** The profile extractor leaves the job alone and always returns. *)
Lemma wp_scrapeProfile penv user (Q : ProfileSummary -> Job -> Prop) E j :
  (forall p, Q p j) -> wp R (Profile.scrapeProfile penv user) Q E j.
Proof using R_pre.
  intros HQ. unfold Profile.scrapeProfile, Profile.scrapeProfileTry.
  apply wp_tryCatch.
  apply wp_bind, wp_await. destruct (Profile.profileGoto penv); [|now apply wp_ret].
  apply wp_bind, wp_await. destruct (Profile.profileSummaryWait penv); [|now apply wp_ret].
  apply wp_bind, wp_await. destruct (Profile.profileContent penv); [|now apply wp_ret].
  now apply wp_ret.
Qed.

Lemma wp_throw {A} (e : Exn) (Q : A -> Job -> Prop) (E : Exn -> Job -> Prop) j :
  E e j -> wp R (throw e) Q E j.
Proof using R_pre. intros HE. split; simpl; [split; [reflexivity | exact I] | exact HE]. Qed.

(** The iteration over the items of a page under an invariant that every
    push keeps. *)
Lemma wp_eachItem (Inv : Job -> Prop) :
  (forall j el f, Parse.parseItem el = Ok (Some f) -> Inv j ->
     R j (Scraper.pushFilm f j) /\ Inv (Scraper.pushFilm f j)) ->
  forall items j, Inv j ->
    wp R (Scraper.eachItem items) (fun _ j' => Inv j') (fun _ j' => Inv j') j.
Proof using R_pre.
  intros Hpush. induction items as [|el rest IH]; intros j Hj; simpl.
  - now apply wp_ret.
  - destruct (Parse.parseItem el) as [[f|]|e] eqn:Hel.
    + destruct (Hpush j el f Hel Hj) as [HR HI].
      apply wp_bind, wp_update; [exact HR|]. now apply IH.
    + now apply IH.
    + now apply wp_throw.
Qed.

(** The page loop under an invariant indexed by the page about to be read:
    [Inv p] holds when pages below [p] have been dealt with. *)
Lemma wp_pageLoop env tp (Inv : Z -> Job -> Prop) :
  (forall p j, Inv p j -> Inv (p + 1) j) ->
  (forall p j el f, Parse.parseItem el = Ok (Some f) -> Inv p j ->
     R j (Scraper.pushFilm f j) /\ Inv p (Scraper.pushFilm f j)) ->
  (forall p j, 1 <= p <= tp -> Inv p j ->
     R j (setProgress (inject_Z p / inject_Z tp)%Q j) /\
     Inv (p + 1) (setProgress (inject_Z p / inject_Z tp)%Q j)) ->
  forall n p j,
    (n <> O -> p + Z.of_nat n <= tp + 1) -> 1 <= p -> Inv p j ->
    wp R (Scraper.pageLoop env n p tp)
       (fun _ j' => exists q, Inv q j') (fun _ j' => exists q, Inv q j') j.
Proof using R_pre.
  intros Hskip Hpush Hpage.
  induction n as [|n IH]; intros p j Hn Hp Hj; simpl.
  - apply wp_ret. now exists p.
  - assert (Hthrow : exists q, Inv q j) by now exists p.
    specialize (Hn ltac:(discriminate)).
    apply wp_bind.
    assert (Hnext : wp R
      (posterListExists ← await (Scraper.gridExists (Scraper.pages env p));
       if negb posterListExists
       then Scraper.pageLoop env n (p + 1) tp
       else
         filmsOnPage ← await (Scraper.gridItems (Scraper.pages env p));
         Scraper.eachItem filmsOnPage;;
         update (setProgress (inject_Z p / inject_Z tp)%Q);;
         await (Ok tt);; Scraper.pageLoop env n (p + 1) tp)
      (fun _ j' => exists q, Inv q j') (fun _ j' => exists q, Inv q j') j).
    { apply wp_bind, wp_await.
      destruct (Scraper.gridExists (Scraper.pages env p)) as [[|]|e]; simpl;
        [ | apply IH; [lia | lia | now apply Hskip] | exact Hthrow ].
      apply wp_bind, wp_await.
      destruct (Scraper.gridItems (Scraper.pages env p)) as [items|e];
        [|exact Hthrow].
      apply wp_bind.
      eapply wp_mono.
      - apply (wp_eachItem (Inv p)); [|exact Hj].
        intros j0 el f Hel Hj0. now apply (Hpush p j0 el f).
      - intros u j1 Hj1. simpl.
        destruct (Hpage p j1 ltac:(lia) Hj1) as [HR HI].
        apply wp_bind, wp_update; [exact HR|].
        apply wp_bind, wp_await.
        apply IH; [lia | lia | exact HI].
      - intros e j1 Hj1. now exists p. }
    destruct (1 <? p).
    + apply wp_await.
      destruct (Scraper.pageGoto (Scraper.pages env p)); [exact Hnext | exact Hthrow].
    + apply wp_ret. exact Hnext.
Qed.

End Rules.

(* ===================================================================== *)
(** ** The shape of every run of the orchestrator *)
(* ===================================================================== *)

Section RunShape.

Context (R : Job -> Job -> Prop) {R_pre : PreOrder R}.

(** [Inv tp p j]: [j] can be the job when page [p] of [tp] is about to be
    read.  [Live j]: [j] can be the job when an exception is caught. *)
Variable Inv : Z -> Z -> Job -> Prop.
Variable Live : Job -> Prop.
Variable env : Scraper.Env.

Hypothesis R_started : R Api.newJob started.
Hypothesis R_profiled : forall p, R started (profiled p).
Hypothesis R_counted : forall p pageItems,
  Scraper.paginateItems env = Ok pageItems ->
  R (profiled p) (counted p (Parse.computeTotalPages pageItems)).
Hypothesis Inv_counted : forall p pageItems,
  Scraper.paginateItems env = Ok pageItems ->
  Inv (Parse.computeTotalPages pageItems) 1 (counted p (Parse.computeTotalPages pageItems)).
Hypothesis Inv_skip : forall tp q j, Inv tp q j -> Inv tp (q + 1) j.
Hypothesis Inv_push : forall tp q j el f,
  Parse.parseItem el = Ok (Some f) -> Inv tp q j ->
  R j (Scraper.pushFilm f j) /\ Inv tp q (Scraper.pushFilm f j).
Hypothesis Inv_page : forall tp q j, 1 <= q <= tp -> Inv tp q j ->
  R j (setProgress (inject_Z q / inject_Z tp)%Q j) /\
  Inv tp (q + 1) (setProgress (inject_Z q / inject_Z tp)%Q j).
Hypothesis R_completed : forall tp q j, Inv tp q j -> R j (setStatus Completed j).
Hypothesis Live_started : Live started.
Hypothesis Live_profiled : forall p, Live (profiled p).
Hypothesis Live_loop : forall tp q j, Inv tp q j -> Live j.
Hypothesis R_failed : forall m j, Live j -> R j (failedWith m j).

Lemma wp_cleanup jobId (j : Job) :
  wp R (Scraper.cleanup env jobId) (fun _ _ => True) (fun _ _ => True) j.
Proof using R_pre.
  unfold Scraper.cleanup. apply wp_bind; [exact R_pre|].
  destruct (Scraper.launch env).
  - apply wp_await; [exact R_pre|].
    destruct (Scraper.browserClose env); [|exact I]. now apply wp_ret.
  - apply wp_ret; [exact R_pre|]. now apply wp_ret.
Qed.

Lemma wp_onError e (j : Job) :
  Live j -> wp R (Scraper.onError e) (fun _ _ => True) (fun _ _ => True) j.
Proof using R_failed.
  intros Hj. apply wp_update; [|exact I]. now apply R_failed.
Qed.

Lemma wp_startScraping user jobId :
  wp R (Scraper.startScraping env user jobId)
     (fun _ _ => True) (fun _ _ => True) Api.newJob.
Proof using All.
  unfold Scraper.startScraping.
  apply wp_tryFinally; [exact R_pre|].
  apply wp_mono with (Q := fun _ _ => True) (E := fun _ _ => True);
    [|intros; apply wp_cleanup..].
  apply wp_tryCatch; [exact R_pre|].
  apply wp_mono with (Q := fun _ _ => True) (E := fun _ j' => Live j');
    [|trivial|intros; now apply wp_onError].
  unfold Scraper.startScrapingTry.
  apply wp_bind, wp_update; [exact R_pre|exact R_started|]. fold started.
  apply wp_bind, wp_await; try exact R_pre.
  destruct (Scraper.launch env); [|exact Live_started].
  apply wp_bind, wp_await; try exact R_pre.
  destruct (Scraper.newPage env); [|exact Live_started].
  apply wp_bind, wp_await; try exact R_pre.
  destruct (Scraper.setUserAgent env); [|exact Live_started].
  apply wp_bind, wp_scrapeProfile; try exact R_pre. intros p.
  apply wp_bind, wp_await; try exact R_pre.
  apply wp_bind, wp_update; [exact R_pre|apply R_profiled|]. fold (profiled p).
  apply wp_bind, wp_await; try exact R_pre.
  destruct (Scraper.filmsGoto env); [|apply Live_profiled].
  apply wp_bind, wp_await; try exact R_pre. simpl.
  apply wp_bind, wp_await; try exact R_pre.
  destruct (Scraper.paginateItems env) as [pageItems|] eqn:Hitems; [|apply Live_profiled].
  set (tp := Parse.computeTotalPages pageItems).
  apply wp_bind, wp_update; [exact R_pre|now apply R_counted|]. fold (counted p tp).
  apply wp_bind; [exact R_pre|].
  eapply wp_mono.
  - apply (wp_pageLoop R env tp (Inv tp));
      [apply Inv_skip | apply Inv_push | apply Inv_page | | | now apply Inv_counted].
    + lia.
    + lia.
  - intros _ j' [q Hj']. simpl. apply wp_update; [|exact I]. now apply (R_completed tp q).
  - intros _ j' [q Hj']. now apply (Live_loop tp q).
Qed.

(** Every run from a new job moves along [R], whatever the browser does. *)
Lemma run_sorted user jobId :
  StronglySorted R (states Api.newJob (Scraper.startScraping env user jobId Api.newJob)).
Proof using All.
  apply chainFrom_sorted; [exact R_pre|].
  apply (wp_startScraping user jobId).
Qed.

End RunShape.

(* ===================================================================== *)
(** ** Sorted traces *)
(* ===================================================================== *)

Lemma StronglySorted_weaken {A} (R R' : A -> A -> Prop) (l : list A) :
  (forall a b, R a b -> R' a b) -> StronglySorted R l -> StronglySorted R' l.
Proof.
  intros HRR'. induction 1 as [|a l Hs IH Hall]; constructor; [exact IH|].
  eapply Forall_impl; [exact Hall|]. intros; now apply HRR'.
Qed.

(** A property that every step hands on holds all along when it holds at
    the start. *)
Lemma StronglySorted_invariant {A} (R : A -> A -> Prop) (P : A -> Prop) a (l : list A) :
  (forall x y, R x y -> P x -> P y) ->
  StronglySorted R (a :: l) -> P a -> Forall P (a :: l).
Proof.
  intros Hstep Hs Ha. inversion Hs as [|? ? _ Hall]; subst.
  constructor; [exact Ha|].
  eapply Forall_impl; [exact Hall|]. intros y Hy. now apply (Hstep a).
Qed.

(* ===================================================================== *)
(** ** Progress *)
(* ===================================================================== *)

Lemma fraction_le (k q tp : Z) :
  0 < tp -> k <= q -> (inject_Z k / inject_Z tp <= inject_Z q / inject_Z tp)%Q.
Proof.
  intros Htp Hkq. unfold Qdiv. apply Qmult_le_compat_r.
  - now rewrite <- Zle_Qle.
  - apply Qinv_le_0_compat. change 0%Q with (inject_Z 0). rewrite <- Zle_Qle. lia.
Qed.

Lemma fraction_nonneg (k tp : Z) :
  0 < tp -> 0 <= k -> (0 <= inject_Z k / inject_Z tp)%Q.
Proof.
  intros Htp Hk. unfold Qdiv. apply Qmult_le_0_compat.
  - change 0%Q with (inject_Z 0). now rewrite <- Zle_Qle.
  - apply Qinv_le_0_compat. change 0%Q with (inject_Z 0). rewrite <- Zle_Qle. lia.
Qed.

Lemma fraction_le_1 (k tp : Z) :
  0 < tp -> k <= tp -> (inject_Z k / inject_Z tp <= 1)%Q.
Proof.
  intros Htp Hk.
  assert (H1 : (inject_Z tp / inject_Z tp == 1)%Q).
  { unfold Qdiv. apply Qmult_inv_r. unfold Qeq, inject_Z; simpl. lia. }
  rewrite <- H1. now apply fraction_le.
Qed.

Lemma pageFraction_range (j : Job) :
  pageFraction j -> (0 <= progress j <= 1)%Q.
Proof.
  intros [H0 | (k & Hk & Hp)]; rewrite ?H0, ?Hp.
  - split; [apply Qle_refl | discriminate].
  - split; [apply fraction_nonneg | apply fraction_le_1]; lia.
Qed.

Lemma progressStep_pre : PreOrder progressStep.
Proof.
  split.
  - intros a. split; [apply Qle_refl | trivial].
  - intros a b c [Hab Iab] [Hbc Ibc]. split; [eapply Qle_trans; eassumption | auto].
Qed.

#[local] Existing Instance progressStep_pre.

Lemma progress_run_sorted env user jobId :
  StronglySorted progressStep
    (states Api.newJob (Scraper.startScraping env user jobId Api.newJob)).
Proof.
  apply (run_sorted progressStep progressBefore (fun _ => True)).
  - split; [apply Qle_refl | trivial].
  - intros p. split; [apply Qle_refl | trivial].
  - intros p items _. split; [apply Qle_refl | intros _; now left].
  - intros p items _. split; [reflexivity | now left].
  - intros tp q j [Htp [H0 | (k & Hk & Hktp & Hp)]]; (split; [exact Htp|]);
      [now left | right; exists k; split; [lia | split; [lia | exact Hp]]].
  - intros tp q j el f _ Hj. split; [|exact Hj].
    split; [apply Qle_refl | exact (fun H => H)].
  - intros tp q j Hq [Htp Hj].
    assert (Hle : (progress j <= inject_Z q / inject_Z tp)%Q).
    { destruct Hj as [H0 | (k & Hk & Hktp & Hp)]; rewrite ?H0, ?Hp.
      - apply fraction_nonneg; lia.
      - apply fraction_le; lia. }
    split; [split | split].
    + exact Hle.
    + intros _. right. exists q. simpl. rewrite Htp. split; [lia | reflexivity].
    + exact Htp.
    + right. exists q. simpl. split; [lia | split; [lia | reflexivity]].
  - intros tp q j _. split; [apply Qle_refl | trivial].
  - exact I.
  - intros; exact I.
  - intros; exact I.
  - intros m j _. split; [apply Qle_refl | trivial].
Qed.

(* ===================================================================== *)
(** ** Total page count *)
(* ===================================================================== *)

Section TotalPages.

Variable T : Z.

Lemma totalPagesStep_pre : PreOrder (totalPagesStep T).
Proof.
  split.
  - intros a. split; [now left | trivial].
  - intros a b c [Hab Iab] [Hbc Ibc]. split; [|auto].
    destruct Hab as [Hab | [Ha Hb]], Hbc as [Hbc | [Hb' Hc]].
    + left. congruence.
    + right. split; congruence.
    + right. split; congruence.
    + right. split; congruence.
Qed.

(** A trace whose steps are [totalPagesStep] and that starts at 1 is a run
    of 1s followed by a run of [T]s. *)
Lemma totalPages_split (l : list Job) :
  StronglySorted (totalPagesStep T) l ->
  Forall (fun j => totalPages j = 1 \/ totalPages j = T) l ->
  exists before after,
    l = before ++ after /\
    Forall (fun j => totalPages j = 1) before /\
    Forall (fun j => totalPages j = T) after.
Proof.
  induction 1 as [|a l Hs IH Hall]; intros Hvals.
  - exists [], []. repeat split; constructor.
  - inversion Hvals as [|? ? Ha Hl]; subst.
    destruct (Z.eq_dec (totalPages a) 1) as [H1|H1].
    + destruct (IH Hl) as (before & after & -> & Hb & Hafter).
      exists (a :: before), after. repeat split; [constructor|]; assumption.
    + exists [], (a :: l). repeat split; [constructor|].
      assert (HaT : totalPages a = T) by (destruct Ha; [contradiction | assumption]).
      constructor; [exact HaT|].
      eapply Forall_impl; [exact Hall|].
      intros x [[Hx | [Hx _]] _]; [congruence | contradiction].
Qed.

End TotalPages.

#[local] Existing Instance totalPagesStep_pre.

Lemma totalPages_run_sorted env user jobId :
  StronglySorted (totalPagesStep (determinedTotalPages env))
    (states Api.newJob (Scraper.startScraping env user jobId Api.newJob)).
Proof.
  set (T := determinedTotalPages env).
  apply (run_sorted (totalPagesStep T)
           (fun tp _ j => totalPages j = T /\ status j <> Completed)
           (fun _ => True)).
  - split; [now left | discriminate].
  - intros p. split; [now left | discriminate].
  - intros p items Hitems. split; [|discriminate].
    right. split; [reflexivity|]. unfold T, determinedTotalPages. now rewrite Hitems.
  - intros p items Hitems. split; [|discriminate].
    unfold T, determinedTotalPages. now rewrite Hitems.
  - trivial.
  - intros tp q j el f _ [Htp Hst]. split; [|split; assumption].
    split; [now left | exact (fun H => H)].
  - intros tp q j _ [Htp Hst]. split; [|split; assumption].
    split; [now left | exact (fun H => H)].
  - intros tp q j [Htp _]. split; [now left | intros _ _; exact Htp].
  - exact I.
  - intros; exact I.
  - intros; exact I.
  - intros m j _. split; [now left | discriminate].
Qed.

(** C5.  [totalPages] is taken from the last entry of the pagination list
    of the first listing page: 1 when the list is empty, 1 when the
    trimmed text of the last entry is [NaN] for [parseInt], the parsed
    number otherwise.  Along any run a job has the initial 1 up to the
    assignment and the determined value from then on, never anything
    else, and a completed job has the determined value. *)
Theorem totalPages_determined_once :
  Parse.computeTotalPages [] = 1 /\
  (forall pageItems lastText,
     Parse.computeTotalPages (pageItems ++ [lastText]) =
     match Js.parseInt (Js.trim lastText) with
     | Some parsedPage => parsedPage
     | None => 1
     end) /\
  (forall env user jobId,
     let trace := states Api.newJob (Scraper.startScraping env user jobId Api.newJob) in
     (exists before after,
        trace = before ++ after /\
        Forall (fun j => totalPages j = 1) before /\
        Forall (fun j => totalPages j = determinedTotalPages env) after) /\
     Forall (fun j => status j = Completed ->
                      totalPages j = determinedTotalPages env) trace).
Proof.
  split; [reflexivity|]. split.
  - intros pageItems lastText. unfold Parse.computeTotalPages.
    now rewrite last_snoc.
  - intros env user jobId trace.
    pose proof (totalPages_run_sorted env user jobId) as Hs. fold trace in Hs.
    split.
    + apply (totalPages_split _ _ Hs).
      apply (StronglySorted_invariant (totalPagesStep (determinedTotalPages env)));
        [|exact Hs|now left].
      intros x y [[Hxy | [_ Hy]] _] [Hx | Hx]; [left | right | right | right]; congruence.
    + apply (StronglySorted_invariant (totalPagesStep (determinedTotalPages env)));
        [|exact Hs|discriminate].
      intros x y [_ Hxy]. exact Hxy.
Qed.

Lemma totalPages_determined_once_witness :
  totalPages (final (Scraper.startScraping Sample.envTwoPages Sample.alice
                       Sample.someJobId Api.newJob))
  = determinedTotalPages Sample.envTwoPages.
Proof.
  destruct totalPages_determined_once as (_ & _ & H).
  destruct (H Sample.envTwoPages Sample.alice Sample.someJobId) as [_ Hall].
  rewrite Forall_forall in Hall. apply Hall.
  - unfold states. right. apply elem_of_app. right. left.
  - reflexivity.
Defined.

(* ===================================================================== *)
(** ** Ratings of the records a job holds *)
(* ===================================================================== *)

Lemma parseRating_nonneg (t : list Z) : (0 <= Parse.parseRating t)%Q.
Proof.
  rewrite parseRating_halves.
  pose proof (countOf_nonneg Parse.star t).
  destruct (Js.includes Parse.half t); unfold Qle; simpl; lia.
Qed.

Lemma parseRating_le_5 (t : list Z) :
  (Parse.parseRating t <= 5)%Q <->
  2 * Js.countOf Parse.star t + (if Js.includes Parse.half t then 1 else 0) <= 10.
Proof.
  rewrite parseRating_halves.
  destruct (Js.includes Parse.half t); unfold Qle; simpl; lia.
Qed.

(** A record the callback pushes comes from an item with a container, a
    name that is a non-empty string and a slug that is truthy and shows
    as some text. *)
Lemma parseItem_Some (el : Parse.GridItem) (f : FilmRecord) :
  Parse.parseItem el = Ok (Some f) ->
  exists dc nameWithYear slugText,
    Parse.dataContainer el = Some dc /\
    Parse.itemName dc = Parse.Text nameWithYear /\ nameWithYear <> [] /\
    Parse.truthyData (Parse.itemSlug dc) = true /\
    Parse.interpolate (Parse.itemSlug dc) = Ok slugText /\
    f = {| Name := fst (Parse.parseNameYear nameWithYear);
           Year := snd (Parse.parseNameYear nameWithYear);
           LetterboxdURI := Js.lit "https://letterboxd.com" ++ slugText;
           Rating := Parse.parseRating (Parse.ratingElText el) |}.
Proof.
  unfold Parse.parseItem.
  destruct (Parse.dataContainer el) as [dc|]; [|discriminate].
  destruct (Parse.truthyData (Parse.itemName dc)) eqn:Hn; [|discriminate].
  destruct (Parse.truthyData (Parse.itemSlug dc)) eqn:Hs; [|discriminate].
  simpl. destruct (Parse.itemName dc) as [|n|b t] eqn:Hname; try discriminate.
  destruct (Parse.parseNameYear n) as [name year] eqn:Hny.
  destruct (Parse.interpolate (Parse.itemSlug dc)) as [slugText|e] eqn:Hi;
    [|discriminate].
  intros [= <-]. exists dc, n, slugText. rewrite Hny.
  split; [reflexivity|]. split; [exact Hname|].
  split; [now destruct n|]. split; [exact Hs|]. split; [exact Hi | reflexivity].
Qed.

Lemma parseItem_rating (el : Parse.GridItem) (f : FilmRecord) :
  Parse.parseItem el = Ok (Some f) ->
  Rating f = Parse.parseRating (Parse.ratingElText el).
Proof.
  intros Hel. apply parseItem_Some in Hel as (dc & n & t & _ & _ & _ & _ & _ & ->).
  reflexivity.
Qed.

Lemma parseItem_crawled (el : Parse.GridItem) (f : FilmRecord) :
  Parse.parseItem el = Ok (Some f) -> crawledRating f.
Proof.
  intros Hel. apply parseItem_rating in Hel.
  split; [eauto|]. rewrite Hel.
  split; [apply parseRating_nonneg | eexists; apply parseRating_halves].
Qed.

Lemma ratingsStep_pre : PreOrder ratingsStep.
Proof. split; [intros a; exact id | intros a b c Hab Hbc Ha; auto]. Qed.

#[local] Existing Instance ratingsStep_pre.

Lemma ratings_run_sorted env user jobId :
  StronglySorted ratingsStep
    (states Api.newJob (Scraper.startScraping env user jobId Api.newJob)).
Proof.
  apply (run_sorted ratingsStep (fun _ _ _ => True) (fun _ => True));
    try (intros; exact I); try (intros; exact id).
  - intros tp q j el f Hel _. split; [|exact I].
    intros Hj. simpl. apply Forall_app.
    split; [exact Hj | constructor; [now apply (parseItem_crawled el) | constructor]].
  - intros tp q j _ _. split; [exact (fun H => H) | exact I].
Qed.

(** C6 (as the code has it).  Every record in the [data] of a job, at any
    state of any run, has a [Rating] that the rating parser gave for some
    text, that is not negative and that is a whole number of halves.  For
    any rating text the parser's value is at most 5 exactly when twice the
    number of full-star glyphs, plus one for a half-star glyph, is at most
    10: nothing caps it. *)
Theorem rating_nonneg_half_multiple :
  (forall env user jobId,
     Forall (fun j => Forall crawledRating (data j))
       (states Api.newJob (Scraper.startScraping env user jobId Api.newJob))) /\
  (forall ratingText,
     (0 <= Parse.parseRating ratingText)%Q /\
     halfMultiple (Parse.parseRating ratingText) /\
     ((Parse.parseRating ratingText <= 5)%Q <->
      2 * Js.countOf Parse.star ratingText
      + (if Js.includes Parse.half ratingText then 1 else 0) <= 10)).
Proof.
  split.
  - intros env user jobId.
    apply (StronglySorted_invariant ratingsStep);
      [|apply ratings_run_sorted|constructor].
    intros x y Hxy. exact Hxy.
  - intros t. split; [apply parseRating_nonneg|].
    split; [eexists; apply parseRating_halves | apply parseRating_le_5].
Qed.

(** C6 as stated fails: a rating element with six full-star glyphs gives a
    record with [Rating] 6 in the data of a completed job. *)
Lemma rating_above_five :
  exists f,
    last (data (final (Scraper.startScraping Sample.envTwoPages Sample.alice
                         Sample.someJobId Api.newJob))) = Some f /\
    Rating f = 6%Q /\ ~ (0 <= Rating f <= 5)%Q.
Proof.
  eexists. split; [reflexivity|]. split; [reflexivity|].
  intros [_ H]. vm_compute in H. now apply H.
Qed.

(* ===================================================================== *)
(** ** Failed jobs *)
(* ===================================================================== *)

Lemma dataStep_pre : PreOrder dataStep.
Proof.
  split.
  - intros a. split; [reflexivity | trivial].
  - intros a b c [Hab Iab] [Hbc Ibc]. split; [now transitivity (data b) | auto].
Qed.

#[local] Existing Instance dataStep_pre.

Lemma data_run_sorted env user jobId :
  StronglySorted dataStep
    (states Api.newJob (Scraper.startScraping env user jobId Api.newJob)).
Proof.
  apply (run_sorted dataStep (fun _ _ _ => True) (fun _ => True)).
  - split; [reflexivity | discriminate].
  - intros p. split; [reflexivity | discriminate].
  - intros p items _. split; [reflexivity | discriminate].
  - intros; exact I.
  - intros; exact I.
  - intros tp q j el f _ _. split; [|exact I].
    split; [now apply prefix_app_r | exact (fun H => H)].
  - intros tp q j _ _. split; [|exact I].
    split; [reflexivity | exact (fun H => H)].
  - intros tp q j _. split; [reflexivity | discriminate].
  - exact I.
  - intros; exact I.
  - intros; exact I.
  - intros m j _. split; [reflexivity|]. intros _ _. now exists m.
Qed.

Lemma getHandler_failed (j : Job) (msg id : list Z) (store : gmap (list Z) Job) :
  status j = Failed -> error j = Some msg ->
  id <> [] -> store !! id = Some j ->
  Api.getHandler (Some id) store = failedReply j msg.
Proof.
  intros Hst Herr Hid Hj. unfold Api.getHandler, failedReply.
  destruct id as [|c id]; [contradiction|]. simpl. rewrite Hj, Hst, Herr.
  reflexivity.
Qed.

Lemma cleanup_final env jobId (j : Job) :
  final (Scraper.cleanup env jobId j) = j.
Proof.
  unfold Scraper.cleanup.
  destruct (Scraper.launch env); [destruct (Scraper.browserClose env)|]; reflexivity.
Qed.

(** The [catch] block keeps the job as the exception left it, but for
    [status] and [error]. *)
Lemma startScraping_caught env user jobId e :
  outcome (Scraper.startScrapingTry env user Api.newJob) = Throw e ->
  final (Scraper.startScraping env user jobId Api.newJob) =
  failedWith (message e) (final (Scraper.startScrapingTry env user Api.newJob)).
Proof.
  intros He. unfold Scraper.startScraping, tryFinally. cbn [final].
  rewrite cleanup_final. unfold tryCatch. rewrite He. reflexivity.
Qed.

(** C1 (as the code has it).  Along any run the [data] of a job only grows
    at its end, so a failed job holds every record pushed before the
    exception; when the [try] block throws, the job ends as the exception
    left it with [status] failed and [error] the message of the
    exception.  A failed job has a non-null [error], and a poll with the
    id it is stored under answers [status] failed, that error, and an
    empty [data]. *)
Theorem failed_job_polled env user jobId :
  let trace := states Api.newJob (Scraper.startScraping env user jobId Api.newJob) in
  StronglySorted (fun a b => data a `prefix_of` data b) trace /\
  (forall e,
     outcome (Scraper.startScrapingTry env user Api.newJob) = Throw e ->
     final (Scraper.startScraping env user jobId Api.newJob) =
     failedWith (message e) (final (Scraper.startScrapingTry env user Api.newJob))) /\
  (forall j, j ∈ trace -> status j = Failed ->
     exists msg,
       error j = Some msg /\
       forall id (store : gmap (list Z) Job),
         id <> [] -> store !! id = Some j ->
         Api.getHandler (Some id) store = failedReply j msg).
Proof.
  intros trace.
  pose proof (data_run_sorted env user jobId) as Hs. fold trace in Hs.
  split; [|split].
  - eapply StronglySorted_weaken; [|exact Hs]. now intros a b [Hab _].
  - apply startScraping_caught.
  - intros j Hj Hst.
    assert (Hall : Forall failedHasError trace).
    { apply (StronglySorted_invariant dataStep); [|exact Hs|discriminate].
      intros x y [_ Hxy]. exact Hxy. }
    rewrite Forall_forall in Hall.
    destruct (Hall j Hj Hst) as [msg Hmsg].
    exists msg. split; [exact Hmsg|].
    intros id store Hid Hstore. now apply getHandler_failed.
Qed.

(** The job of the sample run whose second page cannot be reached. *)
Lemma secondPageDown_final :
  let j := final (Scraper.startScraping Sample.envSecondPageDown Sample.alice
                    Sample.someJobId Api.newJob) in
  status j = Failed /\ data j = [Sample.arrival] /\
  error j = Some (message Sample.timeout).
Proof. repeat split. Qed.

Lemma failed_job_polled_witness :
  Api.getHandler (Some Sample.someJobId)
    {[ Sample.someJobId :=
         final (Scraper.startScraping Sample.envSecondPageDown Sample.alice
                  Sample.someJobId Api.newJob) ]}
  = failedReply (final (Scraper.startScraping Sample.envSecondPageDown Sample.alice
                          Sample.someJobId Api.newJob))
                (message Sample.timeout).
Proof.
  destruct (failed_job_polled Sample.envSecondPageDown Sample.alice Sample.someJobId)
    as (_ & _ & H).
  destruct (H (final (Scraper.startScraping Sample.envSecondPageDown Sample.alice
                        Sample.someJobId Api.newJob))) as (msg & Hmsg & Hpoll).
  - unfold states. right. apply elem_of_app. right. left.
  - reflexivity.
  - injection Hmsg as <-.
    apply Hpoll; [discriminate | apply lookup_singleton_eq].
Defined.

(** C1 as stated fails: the job of that run failed with one record
    gathered, and the poll answers an empty [data]. *)
Lemma failed_poll_hides_records :
  let j := final (Scraper.startScraping Sample.envSecondPageDown Sample.alice
                    Sample.someJobId Api.newJob) in
  status j = Failed /\ data j = [Sample.arrival] /\
  exists r,
    Api.getHandler (Some Sample.someJobId) {[ Sample.someJobId := j ]} = Api.Get200 r /\
    Api.replyData r = [] /\ Api.replyData r <> data j.
Proof.
  split; [reflexivity|]. split; [reflexivity|].
  eexists. split; [reflexivity|].
  split; [reflexivity | discriminate].
Qed.

(* ===================================================================== *)
(** ** Rating parser *)
(* ===================================================================== *)

(** C3.  The rating of a text is the number of full-star glyphs in it plus
    one half when it holds a half-star glyph; the empty text (also what a
    missing rating element gives) has rating 0; three stars and a half
    give 3.5 and five stars give 5. *)
Theorem rating_counts_glyphs :
  (forall ratingText,
     Parse.parseRating ratingText =
     (inject_Z (Js.countOf Parse.star ratingText)
      + (if Js.includes Parse.half ratingText then 1 # 2 else 0))%Q) /\
  (Parse.parseRating Sample.threeAndHalf == 7 # 2)%Q /\
  (Parse.parseRating [] == 0)%Q /\
  (Parse.parseRating Sample.fiveStars == 5)%Q.
Proof.
  split; [exact parseRating_raw|].
  repeat split.
Qed.

(* ===================================================================== *)
(** ** Profile extractor *)
(* ===================================================================== *)

(** C7.  Whatever the browser does, [scrapeProfile] returns a summary and
    leaves the job alone; when its [try] block throws, the summary is the
    degraded one: both names the identifier, avatar, location and bio
    [null], the four counters 0. *)
Theorem scrapeProfile_never_throws penv user (j : Job) :
  (exists p, outcome (Profile.scrapeProfile penv user j) = Ok p) /\
  final (Profile.scrapeProfile penv user j) = j /\
  (forall e,
     outcome (Profile.scrapeProfileTry penv user j) = Throw e ->
     outcome (Profile.scrapeProfile penv user j) =
     Ok {| displayName := user;
           username := user;
           avatarUrl := Null;
           location := Null;
           bio := Null;
           stats := {| totalFilms := 0; filmsThisYear := 0;
                       following := 0; followers := 0 |} |}).
Proof.
  unfold Profile.scrapeProfile, Profile.scrapeProfileTry, tryCatch.
  destruct penv as [[[]|e1] [[]|e2] [dom|e3]]; simpl;
    (split; [eexists; reflexivity|]); (split; [reflexivity|]);
    intros e He; try discriminate He; reflexivity.
Qed.

Lemma scrapeProfile_never_throws_witness :
  outcome (Profile.scrapeProfile Sample.profileDown Sample.alice Api.newJob) =
  Ok (Profile.degradedProfile Sample.alice).
Proof.
  apply (proj2 (proj2 (scrapeProfile_never_throws Sample.profileDown Sample.alice Api.newJob))
           Sample.timeout).
  reflexivity.
Defined.

(* ===================================================================== *)
(** ** Name and year *)
(* ===================================================================== *)

Lemma yearHere_Some (s m y : list Z) :
  Parse.yearHere s = Some (m, y) -> m = s /\ yearSuffix s y.
Proof.
  destruct s as [|w [|lp [|d1 [|d2 [|d3 [|d4 [|rp [|x s]]]]]]]]; try discriminate.
  unfold Parse.yearHere.
  destruct (Js.isWhiteSpace w && (lp =? Parse.lparen) && Js.isDigit d1
            && Js.isDigit d2 && Js.isDigit d3 && Js.isDigit d4
            && (rp =? Parse.rparen)) eqn:Hb; [|discriminate].
  intros [= <- <-]. split; [reflexivity|].
  repeat (apply andb_prop in Hb as [Hb ?]).
  assert (lp = Parse.lparen) as -> by lia.
  assert (rp = Parse.rparen) as -> by lia.
  exists w, d1, d2, d3, d4. repeat split; assumption.
Qed.

Lemma yearHere_suffix (m y : list Z) :
  yearSuffix m y -> Parse.yearHere m = Some (m, y).
Proof.
  intros (w & d1 & d2 & d3 & d4 & Hw & H1 & H2 & H3 & H4 & -> & ->).
  unfold Parse.yearHere. now rewrite Hw, H1, H2, H3, H4, !Z.eqb_refl.
Qed.

Lemma yearHere_length (s : list Z) :
  length s <> 7%nat -> Parse.yearHere s = None.
Proof.
  destruct s as [|w [|lp [|d1 [|d2 [|d3 [|d4 [|rp [|x s]]]]]]]];
    try reflexivity.
  intros H. now contradiction H.
Qed.

Lemma yearSuffix_length (m y : list Z) : yearSuffix m y -> length m = 7%nat.
Proof. intros (w & d1 & d2 & d3 & d4 & _ & _ & _ & _ & _ & _ & ->). reflexivity. Qed.

Lemma yearMatch_sound (s m y : list Z) :
  Parse.yearMatch s = Some (m, y) -> yearSuffix m y /\ exists p, s = p ++ m.
Proof.
  induction s as [|c s IH].
  - simpl. discriminate.
  - cbn [Parse.yearMatch].
    destruct (Parse.yearHere (c :: s)) as [[m' y']|] eqn:Hh.
    + intros [= -> ->]. apply yearHere_Some in Hh as [-> Hs].
      split; [exact Hs | now exists []].
    + intros H. destruct (IH H) as [Hs [p ->]].
      split; [exact Hs | now exists (c :: p)].
Qed.

Lemma yearMatch_complete (p m y : list Z) :
  yearSuffix m y -> Parse.yearMatch (p ++ m) = Some (m, y).
Proof.
  intros Hs. pose proof (yearSuffix_length _ _ Hs) as Hlen.
  induction p as [|c p IH].
  - simpl. destruct m as [|c m]; [discriminate Hlen|].
    cbn [Parse.yearMatch]. now rewrite (yearHere_suffix _ _ Hs).
  - cbn [app Parse.yearMatch].
    rewrite yearHere_length; [exact IH|].
    simpl. rewrite length_app, Hlen. lia.
Qed.

Lemma yearMatch_None (s : list Z) :
  Parse.yearMatch s = None <-> ~ endsWithYear s.
Proof.
  split.
  - intros Hn (p & m & y & -> & Hs).
    rewrite (yearMatch_complete p m y Hs) in Hn. discriminate.
  - intros Hno. destruct (Parse.yearMatch s) as [[m y]|] eqn:Hm; [|reflexivity].
    exfalso. apply Hno. apply yearMatch_sound in Hm as [Hs [p ->]].
    now exists p, m, y.
Qed.

(** C10.  A combined string that does not end with a white-space unit and
    a parenthesised run of exactly four digits gives no year and keeps the
    whole string as the name; a year comes out only of a string that ends
    so.  No space before the parenthesis, or two digits only, gives no
    year. *)
Theorem year_needs_space_and_four_digits :
  (forall nameWithYear,
     ~ endsWithYear nameWithYear ->
     Parse.parseNameYear nameWithYear = (nameWithYear, None)) /\
  (forall nameWithYear,
     (exists year, snd (Parse.parseNameYear nameWithYear) = Some year) <->
     endsWithYear nameWithYear) /\
  Parse.parseNameYear (Js.lit "Arrival(2016)") = (Js.lit "Arrival(2016)", None) /\
  Parse.parseNameYear (Js.lit "Movie (99)") = (Js.lit "Movie (99)", None).
Proof.
  split; [|split; [|split; reflexivity]].
  - intros s Hno. apply yearMatch_None in Hno.
    unfold Parse.parseNameYear. now rewrite Hno.
  - intros s. unfold Parse.parseNameYear. split.
    + intros [year Hy].
      destruct (Parse.yearMatch s) as [[m y]|] eqn:Hm; [|discriminate Hy].
      apply yearMatch_sound in Hm as [Hs [p ->]]. now exists p, m, y.
    + intros (p & m & y & -> & Hs).
      rewrite (yearMatch_complete p m y Hs). now exists y.
Qed.

Lemma year_needs_space_and_four_digits_witness :
  Parse.parseNameYear (Js.lit "Arrival") = (Js.lit "Arrival", None).
Proof.
  apply (proj1 year_needs_space_and_four_digits).
  apply yearMatch_None. reflexivity.
Defined.

(** When the matched text occurs nowhere earlier in the string, the name
    is what precedes it, trimmed. *)
Lemma replaceFirst_suffix (p m : list Z) :
  (forall i, (i < length p)%nat -> Js.startsWith m (drop i (p ++ m)) = false) ->
  Js.replaceFirst m [] (p ++ m) = p.
Proof.
  induction p as [|c p IH]; intros Hfirst.
  - simpl. destruct m as [|c m]; [reflexivity|].
    cbn [Js.replaceFirst].
    assert (Hsw : forall l, Js.startsWith l l = true).
    { induction l as [|x l IHl]; simpl; [reflexivity | now rewrite Z.eqb_refl]. }
    rewrite Hsw. simpl. now rewrite drop_all.
  - cbn [app Js.replaceFirst].
    pose proof (Hfirst O ltac:(simpl; lia)) as H0. cbn [drop app] in H0.
    rewrite H0. f_equal. apply IH.
    intros i Hi. apply (Hfirst (S i)). simpl. lia.
Qed.

Lemma parseNameYear_suffix (p m y : list Z) :
  yearSuffix m y ->
  (forall i, (i < length p)%nat -> Js.startsWith m (drop i (p ++ m)) = false) ->
  Parse.parseNameYear (p ++ m) = (Js.trim p, Some y).
Proof.
  intros Hs Hfirst. unfold Parse.parseNameYear.
  rewrite (yearMatch_complete p m y Hs). now rewrite replaceFirst_suffix.
Qed.

Example parseNameYear_arrival_2016 :
  Parse.parseNameYear (Js.lit "Arrival (2016)") = (Js.lit "Arrival", Some (Js.lit "2016")).
Proof. reflexivity. Qed.

Example parseNameYear_arrival :
  Parse.parseNameYear (Js.lit "Arrival") = (Js.lit "Arrival", None).
Proof. reflexivity. Qed.

(** C4 at a title that repeats its own year: the text before the matched
    suffix is ["A (2016) B"], and the code removes the first [" (2016)"]
    instead of the last. *)
Lemma name_loses_first_occurrence :
  yearSuffix (Js.lit " (2016)") (Js.lit "2016") /\
  Js.lit "A (2016) B (2016)" = Js.lit "A (2016) B" ++ Js.lit " (2016)" /\
  Parse.parseNameYear (Js.lit "A (2016) B (2016)")
  = (Js.lit "A B (2016)", Some (Js.lit "2016")) /\
  fst (Parse.parseNameYear (Js.lit "A (2016) B (2016)")) <> Js.trim (Js.lit "A (2016) B").
Proof.
  split; [|repeat split; discriminate].
  exists 32, 50, 48, 49, 54. repeat split.
Qed.

(* ===================================================================== *)
(** ** Avatar address *)
(* ===================================================================== *)

Lemma startsWith_app (p r : list Z) : Js.startsWith p (p ++ r) = true.
Proof. induction p as [|c p IH]; simpl; [reflexivity | now rewrite Z.eqb_refl]. Qed.

Lemma startsWith_true (p s : list Z) :
  Js.startsWith p s = true -> s = p ++ drop (length p) s.
Proof.
  revert s. induction p as [|c p IH]; intros s; [reflexivity|].
  destruct s as [|x s]; simpl; [discriminate|].
  intros H. apply andb_prop in H as [Hc Hp].
  apply Z.eqb_eq in Hc as ->. f_equal. now apply IH.
Qed.

Lemma eatLit_Some (p s r : list Z) : Parse.eatLit p s = Some r <-> s = p ++ r.
Proof.
  unfold Parse.eatLit. split.
  - destruct (Js.startsWith p s) eqn:Hp; [|discriminate].
    intros [= <-]. now apply startsWith_true.
  - intros ->. rewrite startsWith_app. f_equal.
    now rewrite drop_app_length.
Qed.

Lemma takeWhile_dropWhile (f : Z -> bool) (s : list Z) :
  s = Js.takeWhile f s ++ Js.dropWhile f s.
Proof.
  induction s as [|c s IH]; simpl; [reflexivity|].
  destruct (f c); simpl; [now f_equal | reflexivity].
Qed.

Lemma takeWhile_all (f : Z -> bool) (s : list Z) :
  Forall (fun c => f c = true) (Js.takeWhile f s).
Proof.
  induction s as [|c s IH]; simpl; [constructor|].
  destruct (f c) eqn:Hc; constructor; assumption.
Qed.

Lemma eatDigits_Some (s r : list Z) :
  Parse.eatDigits s = Some r -> exists d, digits d /\ s = d ++ r.
Proof.
  unfold Parse.eatDigits.
  pose proof (takeWhile_dropWhile Js.isDigit s) as Hs.
  pose proof (takeWhile_all Js.isDigit s) as Hall.
  destruct (Js.takeWhile Js.isDigit s) as [|c d] eqn:Ht; [discriminate|].
  intros [= <-]. exists (c :: d). split; [split; [discriminate | exact Hall] | exact Hs].
Qed.

(** A run of digits followed by a unit that is not a digit is eaten whole. *)
Lemma eatDigits_app (d : list Z) (c : Z) (r : list Z) :
  digits d -> Js.isDigit c = false ->
  Parse.eatDigits (d ++ c :: r) = Some (c :: r).
Proof.
  intros [Hne Hall] Hc. unfold Parse.eatDigits.
  assert (Ht : Js.takeWhile Js.isDigit (d ++ c :: r) = d).
  { clear Hne. induction Hall as [|x d Hx _ IH]; simpl; [now rewrite Hc|].
    now rewrite Hx, IH. }
  assert (Hd : Js.dropWhile Js.isDigit (d ++ c :: r) = c :: r).
  { clear Hne Ht. induction Hall as [|x d Hx _ IH]; simpl; [now rewrite Hc|].
    now rewrite Hx. }
  rewrite Ht, Hd. destruct d; [contradiction | reflexivity].
Qed.

Lemma cropHere_sound (s rest : list Z) :
  Parse.cropHere s = Some rest -> exists seg, cropSegment seg /\ s = seg ++ rest.
Proof.
  unfold Parse.cropHere. intros H.
  apply bind_Some in H as (s1 & H1 & H). apply eatLit_Some in H1 as ->.
  apply bind_Some in H as (s2 & H2 & H). apply eatDigits_Some in H2 as (d1 & Hd1 & ->).
  apply bind_Some in H as (s3 & H3 & H). apply eatLit_Some in H3 as ->.
  apply bind_Some in H as (s4 & H4 & H). apply eatDigits_Some in H4 as (d2 & Hd2 & ->).
  apply bind_Some in H as (s5 & H5 & H). apply eatLit_Some in H5 as ->.
  apply bind_Some in H as (s6 & H6 & H). apply eatDigits_Some in H6 as (d3 & Hd3 & ->).
  apply bind_Some in H as (s7 & H7 & H). apply eatLit_Some in H7 as ->.
  apply bind_Some in H as (s8 & H8 & H). apply eatDigits_Some in H8 as (d4 & Hd4 & ->).
  apply eatLit_Some in H as ->.
  eexists. split; [exists d1, d2, d3, d4; do 4 (split; [assumption|]); reflexivity|].
  now rewrite <- !app_assoc.
Qed.

Lemma eatLit_app (p r : list Z) : Parse.eatLit p (p ++ r) = Some r.
Proof. now apply eatLit_Some. Qed.

Lemma eatDigits_dash (d r : list Z) :
  digits d -> Parse.eatDigits (d ++ Js.lit "-" ++ r) = Some (Js.lit "-" ++ r).
Proof. intros Hd. now apply (eatDigits_app d 45 r). Qed.

Lemma eatDigits_crop (d r : list Z) :
  digits d ->
  Parse.eatDigits (d ++ Js.lit "-crop" ++ r) = Some (Js.lit "-crop" ++ r).
Proof. intros Hd. now apply (eatDigits_app d 45 (Js.lit "crop" ++ r)). Qed.

Lemma cropHere_complete (seg post : list Z) :
  cropSegment seg -> Parse.cropHere (seg ++ post) = Some post.
Proof.
  intros (d1 & d2 & d3 & d4 & Hd1 & Hd2 & Hd3 & Hd4 & ->).
  rewrite <- !app_assoc. unfold Parse.cropHere.
  rewrite eatLit_app. cbn [mbind option_bind].
  rewrite (eatDigits_dash d1) by assumption. cbn [mbind option_bind].
  rewrite eatLit_app. cbn [mbind option_bind].
  rewrite (eatDigits_dash d2) by assumption. cbn [mbind option_bind].
  rewrite eatLit_app. cbn [mbind option_bind].
  rewrite (eatDigits_dash d3) by assumption. cbn [mbind option_bind].
  rewrite eatLit_app. cbn [mbind option_bind].
  rewrite (eatDigits_crop d4) by assumption. cbn [mbind option_bind].
  apply eatLit_app.
Qed.

Lemma cropSegment_nonempty : ~ cropSegment [].
Proof. intros (d1 & d2 & d3 & d4 & _ & _ & _ & _ & H). discriminate H. Qed.

(** The rewrite replaces a match of the pattern, or there is none and the
    string is returned as it is. *)
Lemma rewriteAvatar_cases (s : list Z) :
  (exists pre seg post,
     s = pre ++ seg ++ post /\ cropSegment seg /\ ~ hasCrop pre /\
     Parse.rewriteAvatar s = pre ++ Parse.maxCrop ++ post) \/
  (~ hasCrop s /\ Parse.rewriteAvatar s = s).
Proof.
  induction s as [|c s IH].
  - right. split; [|reflexivity].
    intros (pre & seg & post & Hs & Hseg).
    destruct pre; [|discriminate Hs]. destruct seg; [|discriminate Hs].
    now apply cropSegment_nonempty.
  - cbn [Parse.rewriteAvatar].
    destruct (Parse.cropHere (c :: s)) as [rest|] eqn:Hh.
    + left. apply cropHere_sound in Hh as (seg & Hseg & ->).
      exists [], seg, rest. repeat split; try assumption.
      intros (pre & seg' & post & Hs & Hseg').
      destruct pre; [|discriminate Hs]. destruct seg'; [|discriminate Hs].
      now apply cropSegment_nonempty.
    + destruct IH as [(pre & seg & post & -> & Hseg & Hpre & Hrw) | [Hno Hrw]].
      * left. exists (c :: pre), seg, post. repeat split; try assumption.
        -- intros (pre' & seg' & post' & Hs & Hseg').
           destruct pre' as [|x pre'].
           ++ simpl in Hs.
              assert (Hc : Parse.cropHere ((c :: pre) ++ seg ++ post)
                           = Parse.cropHere (seg' ++ (post' ++ seg ++ post)))
                by now rewrite Hs, <- app_assoc.
              rewrite (cropHere_complete seg' _ Hseg') in Hc.
              simpl in Hc. rewrite Hh in Hc. discriminate.
           ++ injection Hs as -> ->. apply Hpre. now exists pre', seg', post'.
        -- simpl. now rewrite Hrw.
      * right. split; [|now rewrite Hrw].
        intros (pre & seg & post & Hs & Hseg).
        destruct pre as [|x pre].
        -- simpl in Hs. rewrite Hs, (cropHere_complete seg _ Hseg) in Hh.
           discriminate.
        -- injection Hs as -> ->. apply Hno. now exists pre, seg, post.
Qed.





(* ===================================================================== *)
(** ** Submission *)
(* ===================================================================== *)

Lemma lit_inj (s t : string) : Js.lit s = Js.lit t -> s = t.
Proof.
  unfold Js.lit. revert t. induction s as [|a s IH]; intros [|b t]; simpl;
    try discriminate; [reflexivity|].
  intros [= Hab Hst]. f_equal; [|now apply IH].
  apply N2Z.inj in Hab.
  rewrite <- (ascii_N_embedding a), <- (ascii_N_embedding b). now f_equal.
Qed.

Lemma numberToString_inj (m n : Z) :
  Js.numberToString m = Js.numberToString n -> m = n.
Proof.
  unfold Js.numberToString. intros H. apply lit_inj in H.
  apply to_int_inj.
  assert (Hs : Some (Z.to_int m) = Some (Z.to_int n))
    by now rewrite <- !NilEmpty.isi, H.
  now injection Hs.
Qed.

(** A submission with a usable identifier answers [pending] and the id
    made of the clock reading, and stores the job under that id. *)
Lemma postHandler_accepts (now : Z) (user : list Z) (env : Scraper.Env)
    (store : gmap (list Z) Job) :
  user <> [] ->
  exists job : Job,
    Api.postHandler now (Some user) env store =
    (<[Js.lit "job_" ++ Js.numberToString now := job]> store,
     Api.Post200 (Js.lit "job_" ++ Js.numberToString now) Pending
                 (Js.lit "Scraping started")).
Proof.
  intros Hu. unfold Api.postHandler.
  destruct user as [|c u]; [contradiction|]. simpl. eauto.
Qed.

(** Two submissions get different ids exactly when the clock moved by at
    least a millisecond between them. *)
Lemma jobId_distinct_iff (now1 now2 : Z) :
  Js.lit "job_" ++ Js.numberToString now1 <> Js.lit "job_" ++ Js.numberToString now2
  <-> now1 <> now2.
Proof.
  split.
  - intros H ->. now apply H.
  - intros H Heq. apply H. apply app_inv_head in Heq. now apply numberToString_inj.
Qed.

(** C2 at two submissions handled within the same millisecond: both are
    answered [pending] with the same [jobId], and the second job takes the
    place of the first in the store. *)
Lemma same_millisecond_same_jobId :
  let now := 1700000000000 in
  let first := Api.postHandler now (Some Sample.alice) Sample.envTwoPages ∅ in
  let second := Api.postHandler now (Some Sample.bob) Sample.envTwoPages (fst first) in
  snd first = Api.Post200 Sample.someJobId Pending (Js.lit "Scraping started") /\
  snd second = Api.Post200 Sample.someJobId Pending (Js.lit "Scraping started") /\
  size (fst second) = 1%nat.
Proof.
  intros now first second. subst first second.
  destruct (postHandler_accepts now Sample.alice Sample.envTwoPages ∅)
    as [job1 ->]; [discriminate|].
  cbn [fst snd].
  destruct (postHandler_accepts now Sample.bob Sample.envTwoPages
              (<[Js.lit "job_" ++ Js.numberToString now := job1]> ∅))
    as [job2 ->]; [discriminate|].
  cbn [fst snd].
  split; [reflexivity|]. split; [reflexivity|].
  rewrite insert_insert_eq, insert_empty. apply map_size_singleton.
Qed.

(* ===================================================================== *)
(** ** Eviction *)
(* ===================================================================== *)

(** Once the timer of a job has fired, a poll with its id is refused. *)
Lemma getHandler_evicted (t : Scraper.Timer) (store : gmap (list Z) Job) :
  Api.getHandler (Some (Scraper.timerJobId t)) (Api.evict t store)
  = Api.Get400 (Js.lit "Invalid job ID").
Proof.
  unfold Api.getHandler, Api.evict.
  destruct (Parse.present (Some (Scraper.timerJobId t))) as [id|] eqn:Hid;
    [|reflexivity].
  assert (id = Scraper.timerJobId t) as ->.
  { simpl in Hid. destruct (Js.truthy (Scraper.timerJobId t)); congruence. }
  now rewrite lookup_delete_eq.
Qed.

(** A run that is not cut short by the browser at its very end sets the
    timer for its own id, one hour ahead. *)
Lemma startScraping_timer env user jobId t :
  outcome (Scraper.startScraping env user jobId Api.newJob) = Ok t ->
  t = {| Scraper.timerJobId := jobId; Scraper.timerDelay := 3600000 |}.
Proof.
  unfold Scraper.startScraping, tryFinally, Scraper.cleanup. cbn [outcome].
  set (r := tryCatch (Scraper.startScrapingTry env user) Scraper.onError Api.newJob).
  destruct (Scraper.launch env); [destruct (Scraper.browserClose env)|];
    unfold mbind, task_bind, mret, task_ret; simpl; destruct (outcome r); congruence.
Qed.

(* ===================================================================== *)
(** ** What a run computes *)
(* ===================================================================== *)

Lemma bind_outcome {A B} (m : Task A) (k : A -> Task B) (j : Job) :
  outcome ((m ≫= k) j) =
  match outcome (m j) with
  | Ok a => outcome (k a (final (m j)))
  | Throw e => Throw e
  end.
Proof. unfold mbind, task_bind, bind. now destruct (outcome (m j)). Qed.

Lemma bind_final {A B} (m : Task A) (k : A -> Task B) (j : Job) :
  final ((m ≫= k) j) =
  match outcome (m j) with
  | Ok a => final (k a (final (m j)))
  | Throw e => final (m j)
  end.
Proof. unfold mbind, task_bind, bind. now destruct (outcome (m j)). Qed.

Lemma bind_seen {A B} (m : Task A) (k : A -> Task B) (j : Job) :
  seen ((m ≫= k) j) =
  seen (m j) ++ match outcome (m j) with
                | Ok a => seen (k a (final (m j)))
                | Throw _ => []
                end.
Proof.
  unfold mbind, task_bind, bind.
  destruct (outcome (m j)); simpl; [reflexivity | now rewrite app_nil_r].
Qed.

(** The iteration over the items of a page: no [await], the records of
    the items ahead of the first exception appended, and that exception
    thrown. *)
Lemma eachItem_run (items : list Parse.GridItem) : forall j : Job,
  seen (Scraper.eachItem items j) = [] /\
  final (Scraper.eachItem items j) = setData (data j ++ pushedRecords items) j /\
  outcome (Scraper.eachItem items j) = match itemsFailure items with
                                       | Some e => Throw e
                                       | None => Ok tt
                                       end.
Proof.
  assert (Hnil : forall j : Job, j = setData (data j ++ []) j).
  { intros [st d pd pr tp er]. unfold setData. simpl. now rewrite app_nil_r. }
  induction items as [|el rest IH]; intros j; simpl.
  - split; [reflexivity|]. split; [apply Hnil | reflexivity].
  - destruct (Parse.parseItem el) as [[f|]|e].
    + rewrite bind_seen, bind_final, bind_outcome. cbn [update seen final outcome app].
      destruct (IH (Scraper.pushFilm f j)) as (Hs & Hf & Ho).
      split; [exact Hs|]. split; [|exact Ho].
      rewrite Hf. unfold Scraper.pushFilm, setData. simpl.
      now rewrite <- app_assoc.
    + apply IH.
    + split; [reflexivity|]. split; [apply Hnil | reflexivity].
Qed.

Lemma scrapeProfile_run penv user (j : Job) :
  outcome (Profile.scrapeProfile penv user j) = Ok (scrapedProfile penv user) /\
  final (Profile.scrapeProfile penv user j) = j.
Proof.
  unfold Profile.scrapeProfile, Profile.scrapeProfileTry, tryCatch, scrapedProfile.
  destruct penv as [[[]|e1] [[]|e2] [dom|e3]]; split; reflexivity.
Qed.

(** The page loop over the pages [k, k+1, ..., k+n-1]: it throws the first
    failure, touches nothing but [data] and [progress], and when nothing
    fails it has appended the records of every page and set [progress]
    for the last page that has a grid. *)
Lemma pageLoop_result env tp n : forall (k : nat) (j : Job),
  let r := Scraper.pageLoop env n (Z.of_nat k) tp j in
  let pagesRead := List.map Z.of_nat (seq k n) in
  outcome r = match pagesFailure env n (Z.of_nat k) with
              | None => Ok tt
              | Some e => Throw e
              end /\
  status (final r) = status j /\
  profileData (final r) = profileData j /\
  totalPages (final r) = totalPages j /\
  error (final r) = error j /\
  (pagesFailure env n (Z.of_nat k) = None ->
   data (final r) = data j ++ flat_map (pageRecords env) pagesRead /\
   progress (final r) =
   match last (List.filter (hasGrid env) pagesRead) with
   | Some q => (inject_Z q / inject_Z tp)%Q
   | None => progress j
   end).
Proof.
  induction n as [|n IH]; intros k j.
  - simpl. repeat split; try reflexivity. now rewrite app_nil_r.
  - cbn zeta. cbn [Scraper.pageLoop pagesFailure seq List.map flat_map List.filter].
    replace (Z.of_nat k + 1) with (Z.of_nat (S k)) by lia.
    unfold pageRecords at 1, hasGrid at 1.
    set (pg := Scraper.pages env (Z.of_nat k)).
    rewrite ?bind_outcome, ?bind_final.
    assert (Hgo :
      (outcome ((if 1 <? Z.of_nat k then await (Scraper.pageGoto pg) else mret tt) j)
       = match (if 1 <? Z.of_nat k then failure (Scraper.pageGoto pg) else None) with
         | Some e => Throw e | None => Ok tt end) /\
      final ((if 1 <? Z.of_nat k then await (Scraper.pageGoto pg) else mret tt) j) = j).
    { destruct (1 <? Z.of_nat k); [|now split].
      destruct (Scraper.pageGoto pg) as [[]|e]; now split. }
    destruct Hgo as [Hgo1 Hgo2]. rewrite Hgo1, Hgo2. clear Hgo1 Hgo2.
    destruct (if 1 <? Z.of_nat k then failure (Scraper.pageGoto pg) else None) as [e|].
    { repeat split; try reflexivity; discriminate. }
    rewrite ?bind_outcome, ?bind_final. cbn [await outcome final].
    destruct (Scraper.gridExists pg) as [[|]|e]; cbn [negb].
    + rewrite ?bind_outcome, ?bind_final. cbn [await outcome final].
      destruct (Scraper.gridItems pg) as [items|e].
      * rewrite ?bind_outcome, ?bind_final.
        destruct (eachItem_run items j) as (_ & Hef & Heo). rewrite Heo, Hef.
        destruct (itemsFailure items) as [e|].
        { repeat split; try reflexivity; discriminate. }
        rewrite ?bind_outcome, ?bind_final. cbn [update outcome final].
        rewrite ?bind_outcome, ?bind_final. cbn [await outcome final].
        set (j1 := setProgress (inject_Z (Z.of_nat k) / inject_Z tp)%Q
                     (setData (data j ++ pushedRecords items) j)).
        destruct (IH (S k) j1) as (Ho & Hs & Hp & Ht & He & Hd).
        split; [exact Ho|]. split; [exact Hs|]. split; [exact Hp|].
        split; [exact Ht|]. split; [exact He|].
        intros Hnone. destruct (Hd Hnone) as [Hd1 Hd2]. split.
        -- rewrite Hd1. unfold j1. simpl. now rewrite app_assoc.
        -- rewrite Hd2. rewrite last_cons.
           now destruct (last (List.filter (hasGrid env) (List.map Z.of_nat (seq (S k) n)))).
      * repeat split; try reflexivity; discriminate.
    + destruct (IH (S k) j) as (Ho & Hs & Hp & Ht & He & Hd).
      split; [exact Ho|]. split; [exact Hs|]. split; [exact Hp|].
      split; [exact Ht|]. split; [exact He|]. exact Hd.
    + repeat split; try reflexivity; discriminate.
Qed.

(** The [try] block: it throws the first failure; otherwise it leaves the
    job completed, with the records of all pages, the profile and the page
    count. *)
Lemma startScrapingTry_result env user (j : Job) :
  let r := Scraper.startScrapingTry env user j in
  let T := determinedTotalPages env in
  outcome r = match firstFailure env with
              | None => Ok tt
              | Some e => Throw e
              end /\
  error (final r) = error j /\
  (firstFailure env <> None -> status (final r) = InProgress) /\
  (firstFailure env = None ->
   status (final r) = Completed /\
   data (final r) = data j ++ crawlRecords env /\
   profileData (final r) = Some (scrapedProfile (Scraper.profileEnv env) user) /\
   totalPages (final r) = T /\
   progress (final r) =
   match last (List.filter (hasGrid env) (pageNumbers T)) with
   | Some q => (inject_Z q / inject_Z T)%Q
   | None => progress j
   end).
Proof.
  cbn zeta. unfold Scraper.startScrapingTry, firstFailure, crawlRecords,
    determinedTotalPages, pageNumbers.
  rewrite ?bind_outcome, ?bind_final. cbn [update await outcome final].
  destruct (Scraper.launch env) as [[]|e];
    [|repeat split; try reflexivity; try discriminate; congruence].
  rewrite ?bind_outcome, ?bind_final. cbn [update await outcome final].
  destruct (Scraper.newPage env) as [[]|e];
    [|repeat split; try reflexivity; try discriminate; congruence].
  rewrite ?bind_outcome, ?bind_final. cbn [update await outcome final].
  destruct (Scraper.setUserAgent env) as [[]|e];
    [|repeat split; try reflexivity; try discriminate; congruence].
  rewrite ?bind_outcome, ?bind_final.
  destruct (scrapeProfile_run (Scraper.profileEnv env) user (setStatus InProgress j))
    as [Hpo Hpf].
  rewrite Hpo, Hpf.
  rewrite ?bind_outcome, ?bind_final. cbn [update await outcome final].
  rewrite ?bind_outcome, ?bind_final. cbn [update await outcome final].
  destruct (Scraper.filmsGoto env) as [[]|e];
    [|repeat split; try reflexivity; try discriminate; congruence].
  rewrite ?bind_outcome, ?bind_final. cbn [update await outcome final swallow].
  rewrite ?bind_outcome, ?bind_final. cbn [update await outcome final].
  destruct (Scraper.paginateItems env) as [pageItems|e];
    [|repeat split; try reflexivity; try discriminate; congruence].
  rewrite ?bind_outcome, ?bind_final. cbn [update await outcome final].
  set (T := Parse.computeTotalPages pageItems).
  set (j3 := setTotalPages T
               (setProfileData (scrapedProfile (Scraper.profileEnv env) user)
                  (setStatus InProgress j))).
  change 1 with (Z.of_nat 1).
  destruct (pageLoop_result env T (Z.to_nat T) 1 j3) as (Ho & Hs & Hp & Ht & He & Hd).
  rewrite ?bind_outcome, ?bind_final. rewrite Ho.
  destruct (pagesFailure env (Z.to_nat T) (Z.of_nat 1)) as [e|].
  - split; [reflexivity|]. split; [exact He|]. split; [intros _; exact Hs|discriminate].
  - cbn [update outcome final].
    split; [reflexivity|]. split; [simpl; exact He|]. split; [congruence|].
    intros _. destruct (Hd eq_refl) as [Hd1 Hd2]. simpl.
    repeat split; assumption.
Qed.

Lemma startScraping_final env user jobId (j : Job) :
  final (Scraper.startScraping env user jobId j) =
  match outcome (Scraper.startScrapingTry env user j) with
  | Ok _ => final (Scraper.startScrapingTry env user j)
  | Throw e => failedWith (message e) (final (Scraper.startScrapingTry env user j))
  end.
Proof.
  unfold Scraper.startScraping, tryFinally. cbn [final].
  rewrite cleanup_final. unfold tryCatch.
  now destruct (outcome (Scraper.startScrapingTry env user j)).
Qed.

(** X1.  A job ends completed, with no error, exactly when no step of the
    [try] block fails: the launch, the new page, the user agent, the
    navigation to the listing, the read of its markup, and per page the
    navigation, the grid test, the read of the grid and the item callback
    (which throws on an item whose name cheerio coerced to a truthy value
    that is not a string).  Otherwise it ends failed with the message of
    the first of them that fails.  The profile page and the wait for the
    grid are not among them: their failure never fails the job. *)
Theorem job_ends_by_first_failure env user jobId :
  let j := final (Scraper.startScraping env user jobId Api.newJob) in
  match firstFailure env with
  | None => status j = Completed /\ error j = None
  | Some e => status j = Failed /\ error j = Some (message e)
  end.
Proof.
  cbn zeta. rewrite startScraping_final.
  destruct (startScrapingTry_result env user Api.newJob) as (Ho & He & Hf & Hok).
  rewrite Ho. destruct (firstFailure env) as [e|].
  - split; reflexivity.
  - destruct (Hok eq_refl) as (Hs & _). split; [exact Hs | exact He].
Qed.

Lemma completed_no_failure env user jobId :
  status (final (Scraper.startScraping env user jobId Api.newJob)) = Completed ->
  firstFailure env = None.
Proof.
  rewrite startScraping_final.
  destruct (startScrapingTry_result env user Api.newJob) as (Ho & _).
  rewrite Ho. destruct (firstFailure env) as [e|]; [discriminate | reflexivity].
Qed.

Lemma pageNumbers_In (T q : Z) : In q (pageNumbers T) <-> 1 <= q <= T.
Proof.
  unfold pageNumbers. rewrite in_map_iff. split.
  - intros (i & <- & Hi). apply in_seq in Hi. lia.
  - intros Hq. exists (Z.to_nat q). split; [lia|]. apply in_seq. lia.
Qed.

Lemma pageNumbers_last (T : Z) : 1 <= T -> exists l, pageNumbers T = l ++ [T].
Proof.
  intros HT. unfold pageNumbers.
  replace (Z.to_nat T) with (S (Z.to_nat (T - 1))) by lia.
  rewrite seq_S, map_app. eexists. f_equal. simpl. f_equal. lia.
Qed.

Lemma last_filter_In (f : Z -> bool) (l : list Z) (q : Z) :
  last (List.filter f l) = Some q -> In q l /\ f q = true.
Proof.
  intros H. apply last_Some in H as [l' Hl'].
  apply List.filter_In. rewrite Hl'. apply in_or_app. right. now left.
Qed.

Lemma last_filter_snoc (f : Z -> bool) (l : list Z) (x : Z) :
  f x = true -> last (List.filter f (l ++ [x])) = Some x.
Proof.
  intros Hx. rewrite List.filter_app. simpl. rewrite Hx. apply last_snoc.
Qed.

Lemma fraction_is_one (q T : Z) :
  T <> 0 -> (inject_Z q / inject_Z T == 1)%Q -> q = T.
Proof.
  intros HT H.
  assert (HT' : ~ (inject_Z T == 0)%Q).
  { unfold Qeq, inject_Z. simpl. lia. }
  pose proof (Qmult_div_r (inject_Z q) (inject_Z T) HT') as Hm.
  rewrite H, Qmult_1_r in Hm.
  symmetry. revert Hm. unfold Qeq, inject_Z. simpl. lia.
Qed.

(** X2.  A completed job holds exactly the records of the listing pages 1
    to [totalPages] that showed a grid (one for each item with a data
    container, a name and a slug that are truthy), in page order, the
    page count the first page gave and the scraped profile; a poll with
    the id it is stored under answers all of them, with no error. *)
Theorem completed_job_holds_all_records env user jobId :
  let j := final (Scraper.startScraping env user jobId Api.newJob) in
  status j = Completed ->
  data j = crawlRecords env /\
  totalPages j = determinedTotalPages env /\
  profileData j = Some (scrapedProfile (Scraper.profileEnv env) user) /\
  forall id (store : gmap (list Z) Job),
    id <> [] -> store !! id = Some j ->
    Api.getHandler (Some id) store =
    Api.Get200 {| Api.replyStatus := Completed;
                  Api.replyProgress := progress j;
                  Api.replyTotalPages := determinedTotalPages env;
                  Api.replyData := crawlRecords env;
                  Api.replyProfileData :=
                    Some (scrapedProfile (Scraper.profileEnv env) user);
                  Api.replyError := None |}.
Proof.
  intros j Hc. pose proof (completed_no_failure env user jobId Hc) as Hnone.
  assert (Hj : data j = crawlRecords env /\
               totalPages j = determinedTotalPages env /\
               profileData j = Some (scrapedProfile (Scraper.profileEnv env) user) /\
               error j = None).
  { unfold j. rewrite startScraping_final.
    destruct (startScrapingTry_result env user Api.newJob) as (Ho & He & _ & Hok).
    rewrite Ho, Hnone in *. destruct (Hok eq_refl) as (_ & Hd & Hp & Ht & _).
    repeat split; assumption. }
  destruct Hj as (Hd & Ht & Hp & He).
  split; [exact Hd|]. split; [exact Ht|]. split; [exact Hp|].
  intros id store Hid Hstore. unfold Api.getHandler.
  destruct id as [|c id]; [contradiction|]. simpl.
  rewrite Hstore, Hc, Hd, Ht, Hp, He. reflexivity.
Qed.

Lemma completed_job_holds_all_records_witness :
  data (final (Scraper.startScraping Sample.envTwoPages Sample.alice
                 Sample.someJobId Api.newJob))
  = crawlRecords Sample.envTwoPages.
Proof.
  apply (completed_job_holds_all_records Sample.envTwoPages Sample.alice Sample.someJobId).
  reflexivity.
Defined.

(** X3.  A completed job has [progress] 1 exactly when there is at least
    one page and the last page showed a grid: a page without a grid is
    skipped before [progress] is assigned, so a listing whose last page
    has none (or a user with no rated films at all) completes below 1. *)
Theorem completed_progress_one_iff env user jobId :
  let j := final (Scraper.startScraping env user jobId Api.newJob) in
  let T := determinedTotalPages env in
  status j = Completed ->
  ((progress j == 1)%Q <-> 1 <= T /\ hasGrid env T = true).
Proof.
  intros j T Hc. pose proof (completed_no_failure env user jobId Hc) as Hnone.
  assert (Hp : progress j =
               match last (List.filter (hasGrid env) (pageNumbers T)) with
               | Some q => (inject_Z q / inject_Z T)%Q
               | None => 0%Q
               end).
  { unfold j. rewrite startScraping_final.
    destruct (startScrapingTry_result env user Api.newJob) as (Ho & _ & _ & Hok).
    rewrite Ho, Hnone. now destruct (Hok Hnone) as (_ & _ & _ & _ & Hp). }
  rewrite Hp. split.
  - destruct (last (List.filter (hasGrid env) (pageNumbers T))) as [q|] eqn:Hq.
    + intros H1. apply last_filter_In in Hq as [Hin Hg].
      apply pageNumbers_In in Hin.
      apply fraction_is_one in H1; [|lia]. subst q. split; [lia | exact Hg].
    + intros H1. discriminate H1.
  - intros [HT Hg]. destruct (pageNumbers_last T HT) as [l ->].
    rewrite (last_filter_snoc _ _ _ Hg).
    unfold Qdiv. apply Qmult_inv_r. unfold Qeq, inject_Z. simpl. lia.
Qed.

Lemma completed_progress_one_iff_witness :
  (progress (final (Scraper.startScraping Sample.envTwoPages Sample.alice
                      Sample.someJobId Api.newJob)) == 1)%Q.
Proof.
  apply (completed_progress_one_iff Sample.envTwoPages Sample.alice Sample.someJobId);
    [reflexivity|].
  split; [vm_compute; discriminate | reflexivity].
Defined.

(* ===================================================================== *)
(** ** Progress, page by page *)
(* ===================================================================== *)

Lemma bind_after {A B} (m : Task A) (k : A -> Task B) (j : Job) :
  seen ((m ≫= k) j) ++ [final ((m ≫= k) j)] =
  seen (m j) ++ match outcome (m j) with
                | Ok a => seen (k a (final (m j))) ++ [final (k a (final (m j)))]
                | Throw _ => [final (m j)]
                end.
Proof.
  rewrite bind_seen, bind_final.
  destruct (outcome (m j)); [now rewrite app_assoc | now rewrite app_nil_r].
Qed.

Lemma scrapeProfile_seen penv user (j : Job) :
  Forall (fun j' => j' = j) (seen (Profile.scrapeProfile penv user j)).
Proof.
  unfold Profile.scrapeProfile, Profile.scrapeProfileTry, tryCatch.
  destruct penv as [[[]|e1] [[]|e2] [dom|e3]]; simpl; repeat constructor.
Qed.

(** The page loop over the pages [k, k+1, ..., k+n-1], as far as
    [progress] goes: every state has the [progress] the loop started
    with or the fraction of a page whose assignment was reached, each
    such page shows its fraction at the [await] that follows, and the
    loop ends with the fraction of the last of them. *)
Lemma pageLoop_progress env tp n : forall (k : nat) (j : Job),
  let r := Scraper.pageLoop env n (Z.of_nat k) tp j in
  let reached := progressPagesFrom env n (Z.of_nat k) in
  Forall (fun j' => totalPages j' = totalPages j /\
                    (progress j' = progress j \/
                     exists q, q ∈ reached /\
                       progress j' = (inject_Z q / inject_Z tp)%Q))
         (seen r ++ [final r]) /\
  Forall (fun q => Z.of_nat k <= q < Z.of_nat k + Z.of_nat n /\
                   exists j', j' ∈ seen r /\ totalPages j' = totalPages j /\
                     progress j' = (inject_Z q / inject_Z tp)%Q) reached /\
  progress (final r) = match last reached with
                       | Some q => (inject_Z q / inject_Z tp)%Q
                       | None => progress j
                       end.
Proof.
  induction n as [|n IH]; intros k j.
  - simpl. split; [|split].
    + constructor; [split; [reflexivity | now left] | constructor].
    + constructor.
    + reflexivity.
  - cbn zeta. cbn [Scraper.pageLoop progressPagesFrom].
    replace (Z.of_nat k + 1) with (Z.of_nat (S k)) by lia.
    set (pg := Scraper.pages env (Z.of_nat k)).
    assert (Hself : forall (l : list Z) (j' : Job),
              totalPages j' = totalPages j -> progress j' = progress j ->
              totalPages j' = totalPages j /\
              (progress j' = progress j \/
               exists q, q ∈ l /\ progress j' = (inject_Z q / inject_Z tp)%Q)).
    { intros l j' Ht Hp. split; [exact Ht | now left]. }
    (* the part of the body after the navigation *)
    set (body := (posterListExists ← await (Scraper.gridExists pg);
                  if negb posterListExists
                  then Scraper.pageLoop env n (Z.of_nat (S k)) tp
                  else
                    filmsOnPage ← await (Scraper.gridItems pg);
                    Scraper.eachItem filmsOnPage;;
                    update (setProgress (inject_Z (Z.of_nat k) / inject_Z tp)%Q);;
                    await (Ok tt);;
                    Scraper.pageLoop env n (Z.of_nat (S k)) tp)).
    set (reachedBody :=
           match Scraper.gridExists pg with
           | Throw _ => []
           | Ok false => progressPagesFrom env n (Z.of_nat (S k))
           | Ok true =>
               match Scraper.gridItems pg with
               | Throw _ => []
               | Ok items =>
                   match itemsFailure items with
                   | Some _ => []
                   | None => Z.of_nat k :: progressPagesFrom env n (Z.of_nat (S k))
                   end
               end
           end).
    assert (Hbody :
      Forall (fun j' => totalPages j' = totalPages j /\
                        (progress j' = progress j \/
                         exists q, q ∈ reachedBody /\
                           progress j' = (inject_Z q / inject_Z tp)%Q))
             (seen (body j) ++ [final (body j)]) /\
      Forall (fun q => Z.of_nat k <= q < Z.of_nat k + Z.of_nat (S n) /\
                       exists j', j' ∈ seen (body j) /\ totalPages j' = totalPages j /\
                         progress j' = (inject_Z q / inject_Z tp)%Q) reachedBody /\
      progress (final (body j)) = match last reachedBody with
                                  | Some q => (inject_Z q / inject_Z tp)%Q
                                  | None => progress j
                                  end).
    { unfold body, reachedBody.
      rewrite (bind_after (await _)), (bind_seen (await _)), (bind_final (await _)).
      cbn [await seen final outcome].
      destruct (Scraper.gridExists pg) as [[|]|e]; cbn [negb].
      - rewrite (bind_after (await _)), (bind_seen (await _)), (bind_final (await _)).
        cbn [await seen final outcome].
        destruct (Scraper.gridItems pg) as [items|e].
        + destruct (eachItem_run items j) as (Hes & Hef & Heo).
          rewrite (bind_after (Scraper.eachItem _)), (bind_seen (Scraper.eachItem _)),
            (bind_final (Scraper.eachItem _)), Hes, Heo, Hef.
          destruct (itemsFailure items) as [e|].
          * split; [|split; [apply Forall_nil_2 | reflexivity]]; cbn [app].
            repeat (apply Forall_cons_2; [now apply Hself|]). apply Forall_nil_2.
          * set (j0 := setData (data j ++ pushedRecords items) j).
            rewrite (bind_after (update _)), (bind_seen (update _)), (bind_final (update _)).
            cbn [update seen final outcome].
            set (j1 := setProgress (inject_Z (Z.of_nat k) / inject_Z tp)%Q j0).
            rewrite (bind_after (await _)), (bind_seen (await _)), (bind_final (await _)).
            cbn [await seen final outcome app].
            destruct (IH (S k) j1) as (Hall & Hreached & Hlast).
            split; [|split].
            -- constructor; [now apply Hself|]. constructor; [now apply Hself|].
               constructor.
               { split; [reflexivity|]. right. exists (Z.of_nat k).
                 split; [left | reflexivity]. }
               eapply Forall_impl; [exact Hall|].
               intros j' [Ht [Hp | (q & Hq & Hp)]]; (split; [exact Ht|]); right.
               ++ exists (Z.of_nat k). split; [left | exact Hp].
               ++ exists q. split; [now right | exact Hp].
            -- constructor.
               { split; [lia|]. exists j1.
                 split; [right; right; left|]. split; reflexivity. }
               eapply Forall_impl; [exact Hreached|].
               intros q [Hq (j' & Hj' & Ht & Hp)]. split; [lia|].
               exists j'. split; [now do 3 right|]. split; assumption.
            -- rewrite Hlast, last_cons.
               now destruct (last (progressPagesFrom env n (Z.of_nat (S k)))).
        + split; [|split; [apply Forall_nil_2 | reflexivity]]; cbn [app].
          repeat (apply Forall_cons_2; [now apply Hself|]). apply Forall_nil_2.
      - destruct (IH (S k) j) as (Hall & Hreached & Hlast).
        split; [|split].
        + constructor; [now apply Hself | exact Hall].
        + eapply Forall_impl; [exact Hreached|].
          intros q [Hq (j' & Hj' & Ht & Hp)]. split; [lia|].
          exists j'. split; [now right|]. split; assumption.
        + exact Hlast.
      - split; [|split; [apply Forall_nil_2 | reflexivity]]; cbn [app].
        repeat (apply Forall_cons_2; [now apply Hself|]). apply Forall_nil_2. }
    fold body.
    destruct (1 <? Z.of_nat k).
    + rewrite (bind_after (await _)), (bind_seen (await _)), (bind_final (await _)).
      cbn [await seen final outcome].
      destruct (Scraper.pageGoto pg) as [[]|e]; cbn [failure].
      * fold reachedBody. destruct Hbody as (Hall & Hreached & Hlast).
        split; [|split].
        -- constructor; [now apply Hself | exact Hall].
        -- eapply Forall_impl; [exact Hreached|].
           intros q [Hq (j' & Hj' & Ht & Hp)]. split; [lia|].
           exists j'. split; [now right|]. split; assumption.
        -- exact Hlast.
      * split; [|split; [apply Forall_nil_2 | reflexivity]]; cbn [app].
        repeat (apply Forall_cons_2; [now apply Hself|]). apply Forall_nil_2.
    + rewrite (bind_after (mret _)), (bind_seen (mret _)), (bind_final (mret _)).
      cbn [mret task_ret ret seen final outcome app].
      fold reachedBody. exact Hbody.
Qed.

(** The [try] block as far as [progress] goes. *)
Lemma startScrapingTry_progress env user :
  let r := Scraper.startScrapingTry env user Api.newJob in
  let T := determinedTotalPages env in
  Forall (fun j => progress j = 0%Q \/
                   exists q, q ∈ progressPages env /\ progressOfPage T q j)
         (seen r ++ [final r]) /\
  Forall (fun q => 1 <= q <= T /\ exists j, j ∈ seen r /\ progressOfPage T q j)
         (progressPages env) /\
  progress (final r) = match last (progressPages env) with
                       | Some q => (inject_Z q / inject_Z T)%Q
                       | None => 0%Q
                       end.
Proof.
  cbn zeta. unfold Scraper.startScrapingTry, progressPages, determinedTotalPages.
  rewrite (bind_after (update _)), (bind_seen (update _)), (bind_final (update _)).
  cbn [update seen final outcome app]. fold started.
  rewrite (bind_after (await (Scraper.launch env))), (bind_seen (await (Scraper.launch env))), (bind_final (await (Scraper.launch env))).
  cbn [await seen final outcome].
  destruct (Scraper.launch env) as [[]|e];
    [|split; [|split; [apply Forall_nil_2 | reflexivity]]; cbn [app];
      repeat (apply Forall_cons_2; [now left|]); apply Forall_nil_2].
  rewrite (bind_after (await (Scraper.newPage env))), (bind_seen (await (Scraper.newPage env))), (bind_final (await (Scraper.newPage env))).
  cbn [await seen final outcome].
  destruct (Scraper.newPage env) as [[]|e];
    [|split; [|split; [apply Forall_nil_2 | reflexivity]]; cbn [app];
      repeat (apply Forall_cons_2; [now left|]); apply Forall_nil_2].
  rewrite (bind_after (await (Scraper.setUserAgent env))), (bind_seen (await (Scraper.setUserAgent env))), (bind_final (await (Scraper.setUserAgent env))).
  cbn [await seen final outcome].
  destruct (Scraper.setUserAgent env) as [[]|e];
    [|split; [|split; [apply Forall_nil_2 | reflexivity]]; cbn [app];
      repeat (apply Forall_cons_2; [now left|]); apply Forall_nil_2].
  rewrite (bind_after (Profile.scrapeProfile _ _)), (bind_seen (Profile.scrapeProfile _ _)),
    (bind_final (Profile.scrapeProfile _ _)).
  destruct (scrapeProfile_run (Scraper.profileEnv env) user started) as [Hpo Hpf].
  pose proof (scrapeProfile_seen (Scraper.profileEnv env) user started) as Hps.
  rewrite Hpo, Hpf.
  set (seenProfile := seen (Profile.scrapeProfile (Scraper.profileEnv env) user started)) in *.
  assert (Hps0 : forall (P : Job -> Prop), P started -> Forall P seenProfile).
  { intros P HP. eapply Forall_impl; [exact Hps|]. now intros j' ->. }
  rewrite (bind_after (await (Ok tt))), (bind_seen (await (Ok tt))), (bind_final (await (Ok tt))).
  cbn [await seen final outcome].
  rewrite (bind_after (update _)), (bind_seen (update _)), (bind_final (update _)).
  cbn [update seen final outcome].
  fold (profiled (scrapedProfile (Scraper.profileEnv env) user)).
  set (pj := profiled (scrapedProfile (Scraper.profileEnv env) user)).
  rewrite (bind_after (await (Scraper.filmsGoto env))), (bind_seen (await (Scraper.filmsGoto env))), (bind_final (await (Scraper.filmsGoto env))).
  cbn [await seen final outcome].
  destruct (Scraper.filmsGoto env) as [[]|e];
    [|split; [|split; [apply Forall_nil_2 | reflexivity]]; cbn [app];
      repeat (apply Forall_cons_2; [now left|]);
      (apply Forall_app; split; [apply Hps0; now left|]);
      repeat (apply Forall_cons_2; [now left|]); apply Forall_nil_2].
  rewrite (bind_after (await (swallow (Scraper.gridWait env)))), (bind_seen (await (swallow (Scraper.gridWait env)))), (bind_final (await (swallow (Scraper.gridWait env)))).
  cbn [await seen final outcome swallow].
  rewrite (bind_after (await (Scraper.paginateItems env))), (bind_seen (await (Scraper.paginateItems env))), (bind_final (await (Scraper.paginateItems env))).
  cbn [await seen final outcome].
  destruct (Scraper.paginateItems env) as [pageItems|e];
    [|split; [|split; [apply Forall_nil_2 | reflexivity]]; cbn [app];
      repeat (apply Forall_cons_2; [now left|]);
      (apply Forall_app; split; [apply Hps0; now left|]);
      repeat (apply Forall_cons_2; [now left|]); apply Forall_nil_2].
  set (T := Parse.computeTotalPages pageItems).
  rewrite (bind_after (update _)), (bind_seen (update _)), (bind_final (update _)).
  cbn [update seen final outcome].
  set (j3 := setTotalPages T pj).
  change 1 with (Z.of_nat 1).
  destruct (pageLoop_progress env T (Z.to_nat T) 1 j3) as (Hall & Hreached & Hlast).
  set (loop := Scraper.pageLoop env (Z.to_nat T) (Z.of_nat 1) T j3) in *.
  set (reached := progressPagesFrom env (Z.to_nat T) (Z.of_nat 1)) in *.
  assert (Hstate : forall j', j' ∈ seen loop ++ [final loop] ->
            progress j' = 0%Q \/ exists q, q ∈ reached /\ progressOfPage T q j').
  { intros j' Hj'. rewrite Forall_forall in Hall.
    destruct (Hall j' Hj') as [Ht [Hp | (q & Hq & Hp)]]; [now left|].
    right. exists q. split; [exact Hq|]. split; [exact Ht | exact Hp]. }
  rewrite (bind_after (Scraper.pageLoop _ _ _ _)), (bind_seen (Scraper.pageLoop _ _ _ _)),
    (bind_final (Scraper.pageLoop _ _ _ _)).
  fold loop. cbn [update seen final outcome app].
  split; [|split].
  - repeat (apply Forall_cons_2; [now left|]).
    apply Forall_app. split; [apply Hps0; now left|].
    repeat (apply Forall_cons_2; [now left|]).
    apply Forall_forall. intros j' Hj'.
    apply elem_of_app in Hj' as [Hj' | Hj'].
    + apply Hstate. apply elem_of_app. now left.
    + assert (Hfin : progress (final loop) = 0%Q \/
                     exists q, q ∈ reached /\ progressOfPage T q (final loop)).
      { apply Hstate. apply elem_of_app. right. left. }
      destruct (outcome loop) as [[]|e].
      * apply list_elem_of_singleton in Hj' as ->. exact Hfin.
      * apply list_elem_of_singleton in Hj' as ->. exact Hfin.
  - eapply Forall_impl; [exact Hreached|].
    intros q [Hq (j' & Hj' & Ht & Hp)]. split; [lia|].
    exists j'. split; [|split; assumption].
    repeat (rewrite elem_of_app || rewrite elem_of_cons). tauto.
  - destruct (outcome loop) as [[]|e]; exact Hlast.
Qed.

(** The whole task: the [catch] and [finally] blocks leave [progress]
    and [totalPages] as they are. *)
Lemma startScraping_progress env user jobId :
  let r := Scraper.startScraping env user jobId Api.newJob in
  let T := determinedTotalPages env in
  Forall (fun j => progress j = 0%Q \/
                   exists q, q ∈ progressPages env /\ progressOfPage T q j)
         (states Api.newJob r) /\
  Forall (fun q => 1 <= q <= T /\
                   exists j, j ∈ states Api.newJob r /\ progressOfPage T q j)
         (progressPages env) /\
  progress (final r) = match last (progressPages env) with
                       | Some q => (inject_Z q / inject_Z T)%Q
                       | None => 0%Q
                       end.
Proof.
  cbn zeta.
  destruct (startScrapingTry_progress env user) as (Hall & Hreached & Hlast).
  set (try := Scraper.startScrapingTry env user Api.newJob) in *.
  assert (Hseen : exists tail,
            seen (Scraper.startScraping env user jobId Api.newJob) = seen try ++ tail /\
            Forall (fun j => progress j = progress (final try) /\
                             totalPages j = totalPages (final try))
                   (tail ++ [final (Scraper.startScraping env user jobId Api.newJob)])).
  { unfold Scraper.startScraping, tryFinally, tryCatch. cbn [seen final]. fold try.
    rewrite cleanup_final.
    set (caught := match outcome try with
                   | Ok _ => try
                   | Throw e =>
                       {| seen := seen try ++ seen (Scraper.onError e (final try));
                          final := final (Scraper.onError e (final try));
                          outcome := outcome (Scraper.onError e (final try)) |}
                   end).
    assert (Hc : seen caught = seen try /\
                 progress (final caught) = progress (final try) /\
                 totalPages (final caught) = totalPages (final try)).
    { unfold caught. destruct (outcome try) as [[]|e]; cbn [seen final];
        [now split|].
      unfold Scraper.onError, update. cbn [seen final].
      rewrite app_nil_r. now split. }
    destruct Hc as (Hcs & Hcp & Hct). rewrite Hcs.
    exists (seen (Scraper.cleanup env jobId (final caught))). split; [reflexivity|].
    apply Forall_app. split; [|apply Forall_cons_2; [now split | apply Forall_nil_2]].
    unfold Scraper.cleanup.
    rewrite bind_seen. cbn [mret task_ret ret seen].
    destruct (Scraper.launch env) as [[]|e]; cbn [await seen final outcome mret task_ret ret].
    - destruct (Scraper.browserClose env) as [[]|e]; cbn [app];
        (apply Forall_cons_2; [now split | apply Forall_nil_2]).
    - apply Forall_nil_2. }
  destruct Hseen as (tail & Hseen & Htail).
  assert (Hfinal : progress (final try) = 0%Q \/
                   exists q, q ∈ progressPages env /\
                     progressOfPage (determinedTotalPages env) q (final try)).
  { rewrite Forall_forall in Hall. apply Hall. apply elem_of_app. right. left. }
  unfold states. rewrite Hseen, <- app_assoc.
  split; [|split].
  - apply Forall_cons_2; [now left|].
    apply Forall_app. split.
    + apply Forall_app in Hall as [Hall _]. exact Hall.
    + eapply Forall_impl; [exact Htail|].
      intros j' [Hp Ht]. destruct Hfinal as [H0 | (q & Hq & Htq & Hpq)].
      * left. congruence.
      * right. exists q. split; [exact Hq|]. split; congruence.
  - eapply Forall_impl; [exact Hreached|].
    intros q [Hq (j' & Hj' & Hpq)]. split; [exact Hq|].
    exists j'. split; [|exact Hpq].
    right. apply elem_of_app. now left.
  - rewrite <- Hlast. rewrite Forall_forall in Htail.
    apply Htail. apply elem_of_app. right. left.
Qed.

(** When nothing fails, the pages whose assignment is reached are the
    pages that show a grid. *)
Lemma progressPagesFrom_no_failure env n : forall k : nat,
  pagesFailure env n (Z.of_nat k) = None ->
  progressPagesFrom env n (Z.of_nat k)
  = List.filter (hasGrid env) (List.map Z.of_nat (seq k n)).
Proof.
  induction n as [|n IH]; intros k; [reflexivity|].
  cbn [pagesFailure progressPagesFrom seq List.map List.filter].
  replace (Z.of_nat k + 1) with (Z.of_nat (S k)) by lia.
  unfold hasGrid at 1.
  destruct (if 1 <? Z.of_nat k
            then failure (Scraper.pageGoto (Scraper.pages env (Z.of_nat k)))
            else None) as [e|]; [discriminate|].
  destruct (Scraper.gridExists (Scraper.pages env (Z.of_nat k))) as [[|]|e];
    [|apply IH|discriminate].
  destruct (Scraper.gridItems (Scraper.pages env (Z.of_nat k))) as [items|e];
    [|discriminate].
  destruct (itemsFailure items) as [e|]; [discriminate|].
  intros Hnone. now rewrite IH.
Qed.

Lemma progressPages_no_failure env :
  firstFailure env = None ->
  progressPages env
  = List.filter (hasGrid env) (pageNumbers (determinedTotalPages env)).
Proof.
  unfold firstFailure, progressPages, determinedTotalPages, pageNumbers.
  destruct (Scraper.launch env) as [[]|e]; [|discriminate].
  destruct (Scraper.newPage env) as [[]|e]; [|discriminate].
  destruct (Scraper.setUserAgent env) as [[]|e]; [|discriminate].
  destruct (Scraper.filmsGoto env) as [[]|e]; [|discriminate].
  destruct (Scraper.paginateItems env) as [pageItems|e]; [|discriminate].
  change 1 with (Z.of_nat 1). apply progressPagesFrom_no_failure.
Qed.

Example progressPages_two_pages : progressPages Sample.envTwoPages = [1; 2].
Proof. reflexivity. Qed.

Example progressPages_second_page_down : progressPages Sample.envSecondPageDown = [1].
Proof. reflexivity. Qed.

Example progressPages_item_throws : progressPages Sample.envItemThrows = [].
Proof. reflexivity. Qed.

(** C8.  From its creation on, through every state a poll can observe and
    up to its last state, a job has a [progress] that starts at 0, never
    decreases, stays within [0, 1], and is either 0 or
    [currentPage / totalPages] for a page [1 <= currentPage <= totalPages].
    The per-page assignment is what sets it: [progress] is 0 or the
    quotient [currentPage / totalPages], as the assignment computes it,
    of a page whose assignment the run reached; every page whose
    assignment the run reached lies in [1 .. totalPages] and shows its
    quotient in some state of the job; and the job ends with the quotient
    of the last such page (with 0 when there is none). *)
Theorem progress_monotone_in_unit_interval env user jobId :
  let r := Scraper.startScraping env user jobId Api.newJob in
  let trace := states Api.newJob r in
  let T := determinedTotalPages env in
  progress <$> head trace = Some 0%Q /\
  StronglySorted (fun a b => (progress a <= progress b)%Q) trace /\
  Forall (fun j => (0 <= progress j <= 1)%Q) trace /\
  Forall pageFraction trace /\
  Forall (fun j => progress j = 0%Q \/
                   exists currentPage,
                     currentPage ∈ progressPages env /\
                     progressOfPage T currentPage j) trace /\
  Forall (fun currentPage =>
            1 <= currentPage <= T /\
            exists j, j ∈ trace /\ progressOfPage T currentPage j)
         (progressPages env) /\
  progress (final r) = match last (progressPages env) with
                       | Some currentPage => (inject_Z currentPage / inject_Z T)%Q
                       | None => 0%Q
                       end.
Proof.
  intros r trace T.
  pose proof (progress_run_sorted env user jobId) as Hs. fold r trace in Hs.
  assert (Hfrac : Forall pageFraction trace).
  { apply (StronglySorted_invariant progressStep); [|exact Hs|now left].
    intros x y [_ Hxy]. exact Hxy. }
  destruct (startScraping_progress env user jobId) as (Hall & Hreached & Hlast).
  split; [reflexivity|]. split; [|split; [|split; [|split; [|split]]]].
  - eapply StronglySorted_weaken; [|exact Hs]. now intros a b [Hab _].
  - eapply Forall_impl; [exact Hfrac|]. intros j Hj. now apply pageFraction_range.
  - exact Hfrac.
  - exact Hall.
  - exact Hreached.
  - exact Hlast.
Qed.

(** The sample run of two pages shows 1/2 and then 2/2. *)
Example progress_two_pages :
  List.map progress
    (distinctStates
       (states Api.newJob
          (Scraper.startScraping Sample.envTwoPages Sample.alice
             Sample.someJobId Api.newJob)))
  = [0%Q; 0%Q; 0%Q; (inject_Z 1 / inject_Z 2)%Q; (inject_Z 2 / inject_Z 2)%Q;
     (inject_Z 2 / inject_Z 2)%Q].
Proof. reflexivity. Qed.

(* ===================================================================== *)
(** ** Status, profile and records along a run *)
(* ===================================================================== *)

(** The first [await] of [startScraping] comes right after the assignment
    of [status]. *)
Lemma startScraping_seen_head env user jobId (j : Job) :
  exists rest,
    seen (Scraper.startScraping env user jobId j) = setStatus InProgress j :: rest.
Proof.
  unfold Scraper.startScraping, tryFinally, tryCatch. cbn [seen].
  assert (Htry : exists rest,
            seen (Scraper.startScrapingTry env user j) = setStatus InProgress j :: rest).
  { unfold Scraper.startScrapingTry. rewrite bind_seen. cbn [update seen outcome final].
    rewrite bind_seen. cbn [await seen app]. eauto. }
  destruct Htry as [rest Hrest].
  destruct (outcome (Scraper.startScrapingTry env user j)); cbn [seen];
    rewrite Hrest; cbn [app]; eauto.
Qed.

Lemma statusStep_pre : PreOrder statusStep.
Proof.
  split.
  - intros a. split; [lia | trivial].
  - intros a b c [Hab Iab] [Hbc Ibc]. split; [lia|].
    intros Ha. specialize (Iab Ha). rewrite Iab in Ibc. now apply Ibc.
Qed.

#[local] Existing Instance statusStep_pre.

Lemma status_run_sorted env user jobId :
  StronglySorted statusStep
    (states Api.newJob (Scraper.startScraping env user jobId Api.newJob)).
Proof.
  apply (run_sorted statusStep (fun _ _ j => status j = InProgress)
           (fun j => status j = InProgress)).
  - split; [simpl; lia | discriminate].
  - intros p. split; [simpl; lia | discriminate].
  - intros p items _. split; [simpl; lia | discriminate].
  - reflexivity.
  - trivial.
  - intros tp q j el f _ Hj. split; [|exact Hj].
    split; [simpl; lia | reflexivity].
  - intros tp q j _ Hj. split; [|exact Hj].
    split; [simpl; lia | reflexivity].
  - intros tp q j Hj. split; simpl; rewrite Hj; [simpl; lia | discriminate].
  - reflexivity.
  - reflexivity.
  - trivial.
  - intros m j Hj. split; simpl; rewrite Hj; [simpl; lia | discriminate].
Qed.

Lemma final_status_terminal env user jobId :
  let j := final (Scraper.startScraping env user jobId Api.newJob) in
  status j = Completed \/ status j = Failed.
Proof.
  cbn zeta. rewrite startScraping_final.
  destruct (startScrapingTry_result env user Api.newJob) as (Ho & _ & _ & Hok).
  rewrite Ho. destruct (firstFailure env) as [e|]; [now right|].
  left. now destruct (Hok eq_refl).
Qed.

(** X4.  The status of a job never goes back: along any run it is pending
    at creation, in progress at every later state but the last ones, and
    once completed or failed it stays so.  No state after the creation is
    pending (the first assignment precedes the first [await]), and every
    run ends completed or failed. *)
Theorem status_only_advances env user jobId :
  let r := Scraper.startScraping env user jobId Api.newJob in
  StronglySorted statusStep (states Api.newJob r) /\
  Forall (fun j => status j <> Pending) (seen r ++ [final r]) /\
  (status (final r) = Completed \/ status (final r) = Failed).
Proof.
  intros r. pose proof (status_run_sorted env user jobId) as Hs. fold r in Hs.
  split; [exact Hs|]. split; [|apply final_status_terminal].
  destruct (startScraping_seen_head env user jobId Api.newJob) as [rest Hrest].
  fold r in Hrest. unfold states in Hs. rewrite Hrest in *.
  inversion Hs as [|? ? Hs' _]; subst.
  cbn [app] in Hs' |- *.
  inversion Hs' as [|? ? _ Hall]; subst.
  constructor; [discriminate|].
  eapply Forall_impl; [exact Hall|].
  intros x [Hrank _] Hx. rewrite Hx in Hrank. simpl in Hrank. lia.
Qed.

(** X5.  [startScraping] sets the eviction timer, for its own job id and
    one hour, on every exit of the [try] block except one: when the
    browser was launched and closing it fails, the [finally] block is
    left before the timer is set. *)
Theorem timer_set_unless_close_fails env user jobId (j : Job) :
  outcome (Scraper.startScraping env user jobId j) =
  match Scraper.launch env, Scraper.browserClose env with
  | Ok _, Throw e => Throw e
  | _, _ => Ok {| Scraper.timerJobId := jobId; Scraper.timerDelay := 3600000 |}
  end.
Proof.
  unfold Scraper.startScraping, tryFinally, Scraper.cleanup. cbn [outcome].
  set (r := tryCatch (Scraper.startScrapingTry env user) Scraper.onError j).
  assert (Hr : exists u, outcome r = Ok u).
  { unfold r, tryCatch.
    destruct (outcome (Scraper.startScrapingTry env user j)) eqn:Ho; [eauto|].
    simpl. eauto. }
  destruct Hr as [u Hu]. rewrite Hu.
  destruct (Scraper.launch env); [destruct (Scraper.browserClose env)|];
    reflexivity.
Qed.

(* ===================================================================== *)
(** ** Handlers and the job map *)
(* ===================================================================== *)

Lemma atFirstAwait_startScraping env user jobId (j : Job) :
  Api.atFirstAwait (Scraper.startScraping env user jobId j) = setStatus InProgress j.
Proof.
  unfold Api.atFirstAwait.
  destruct (startScraping_seen_head env user jobId j) as [rest ->]. reflexivity.
Qed.

Lemma postHandler_valid (now : Z) (user : list Z) (env : Scraper.Env)
    (store : gmap (list Z) Job) :
  user <> [] ->
  Api.postHandler now (Some user) env store =
  (<[Js.lit "job_" ++ Js.numberToString now := started]> store,
   Api.Post200 (Js.lit "job_" ++ Js.numberToString now) Pending
               (Js.lit "Scraping started")).
Proof.
  intros Hu. unfold Api.postHandler.
  destruct user as [|c u]; [contradiction|]. cbn [Parse.present Js.truthy].
  now rewrite atFirstAwait_startScraping.
Qed.

(** X6.  A poll right after an accepted submission, with the id the
    submission returned, finds the job already in progress (the response
    of the submission said pending), with progress 0, one page, no data,
    no profile and no error, whatever was stored under that id before. *)
Theorem submit_then_poll (now : Z) (user : list Z) (env : Scraper.Env)
    (store : gmap (list Z) Job) :
  user <> [] ->
  let out := Api.postHandler now (Some user) env store in
  exists jobId,
    snd out = Api.Post200 jobId Pending (Js.lit "Scraping started") /\
    Api.getHandler (Some jobId) (fst out) =
    Api.Get200 {| Api.replyStatus := InProgress;
                  Api.replyProgress := 0%Q;
                  Api.replyTotalPages := 1;
                  Api.replyData := [];
                  Api.replyProfileData := None;
                  Api.replyError := None |}.
Proof.
  intros Hu out. unfold out. rewrite (postHandler_valid now user env store Hu).
  exists (Js.lit "job_" ++ Js.numberToString now). split; [reflexivity|].
  cbn [fst]. unfold Api.getHandler.
  change (Js.lit "job_" ++ Js.numberToString now)
    with (106 :: (Js.lit "ob_" ++ Js.numberToString now)).
  cbn [Parse.present Js.truthy]. now rewrite lookup_insert_eq.
Qed.

Lemma submit_then_poll_witness :
  exists jobId,
    snd (Api.postHandler 1700000000000 (Some Sample.alice) Sample.envTwoPages ∅)
    = Api.Post200 jobId Pending (Js.lit "Scraping started") /\
    Api.getHandler (Some jobId)
      (fst (Api.postHandler 1700000000000 (Some Sample.alice) Sample.envTwoPages ∅))
    = Api.Get200 {| Api.replyStatus := InProgress;
                    Api.replyProgress := 0%Q;
                    Api.replyTotalPages := 1;
                    Api.replyData := [];
                    Api.replyProfileData := None;
                    Api.replyError := None |}.
Proof.
  apply (submit_then_poll 1700000000000 Sample.alice Sample.envTwoPages ∅).
  discriminate.
Defined.

(** X7.  A submission changes the answer of a poll for no id but the one
    it creates: a refused submission (no username, or an empty one) is
    answered 400 and leaves the job map as it is, and an accepted one
    touches only the entry of its own id. *)
Theorem submission_leaves_other_jobs :
  (forall (now : Z) (env : Scraper.Env) (store : gmap (list Z) Job),
     Api.postHandler now None env store
     = (store, Api.Post400 (Js.lit "Username is required.")) /\
     Api.postHandler now (Some []) env store
     = (store, Api.Post400 (Js.lit "Username is required."))) /\
  (forall (now : Z) (user : option (list Z)) (env : Scraper.Env)
          (store : gmap (list Z) Job) (id : list Z),
     id <> Js.lit "job_" ++ Js.numberToString now ->
     Api.getHandler (Some id) (fst (Api.postHandler now user env store))
     = Api.getHandler (Some id) store).
Proof.
  split; [intros; split; reflexivity|].
  intros now user env store id Hid. unfold Api.postHandler.
  destruct (Parse.present user) as [u|]; [|reflexivity].
  cbn [fst]. unfold Api.getHandler.
  destruct (Parse.present (Some id)) as [i|] eqn:Hi; [|reflexivity].
  assert (i = id) as ->.
  { simpl in Hi. destruct (Js.truthy id); congruence. }
  now rewrite lookup_insert_ne by congruence.
Qed.

Lemma submission_leaves_other_jobs_witness :
  Api.getHandler (Some (Js.lit "job_1"))
    (fst (Api.postHandler 2 (Some Sample.alice) Sample.envTwoPages
            {[ Js.lit "job_1" := Api.newJob ]}))
  = Api.getHandler (Some (Js.lit "job_1")) {[ Js.lit "job_1" := Api.newJob ]}.
Proof.
  apply (proj2 submission_leaves_other_jobs). vm_compute. discriminate.
Defined.

(** X8.  A poll with no id, with the empty id or with an id that is not in
    the job map is refused; so is a poll with the id of a run once its
    timer has fired, and that eviction changes the answer for no other
    id. *)
Theorem poll_refused_when_absent_or_evicted :
  (forall store : gmap (list Z) Job,
     Api.getHandler None store = Api.Get400 (Js.lit "Invalid job ID") /\
     Api.getHandler (Some []) store = Api.Get400 (Js.lit "Invalid job ID")) /\
  (forall (store : gmap (list Z) Job) id,
     store !! id = None ->
     Api.getHandler (Some id) store = Api.Get400 (Js.lit "Invalid job ID")) /\
  (forall env user jobId (j : Job) t (store : gmap (list Z) Job),
     outcome (Scraper.startScraping env user jobId j) = Ok t ->
     Api.getHandler (Some jobId) (Api.evict t store)
     = Api.Get400 (Js.lit "Invalid job ID") /\
     forall id, id <> jobId ->
       Api.getHandler (Some id) (Api.evict t store) = Api.getHandler (Some id) store).
Proof.
  split; [intros store; split; reflexivity|]. split.
  - intros store id Hnone. unfold Api.getHandler.
    destruct (Parse.present (Some id)) as [i|] eqn:Hi; [|reflexivity].
    assert (i = id) as ->.
    { simpl in Hi. destruct (Js.truthy id); congruence. }
    now rewrite Hnone.
  - intros env user jobId j t store Ht.
    assert (Hid : Scraper.timerJobId t = jobId).
    { revert Ht. unfold Scraper.startScraping, tryFinally, Scraper.cleanup.
      cbn [outcome].
      set (r := tryCatch (Scraper.startScrapingTry env user) Scraper.onError j).
      destruct (Scraper.launch env); [destruct (Scraper.browserClose env)|];
        unfold mbind, task_bind, mret, task_ret; simpl; destruct (outcome r);
        intros H; try discriminate H; injection H as <-; reflexivity. }
    unfold Api.evict. rewrite Hid. split.
    + unfold Api.getHandler.
      destruct (Parse.present (Some jobId)) as [i|] eqn:Hi; [|reflexivity].
      assert (i = jobId) as ->.
      { simpl in Hi. destruct (Js.truthy jobId); congruence. }
      now rewrite lookup_delete_eq.
    + intros id Hne. unfold Api.getHandler.
      destruct (Parse.present (Some id)) as [i|] eqn:Hi; [|reflexivity].
      assert (i = id) as ->.
      { simpl in Hi. destruct (Js.truthy id); congruence. }
      now rewrite lookup_delete_ne by congruence.
Qed.

Lemma poll_refused_when_absent_or_evicted_witness :
  Api.getHandler (Some Sample.someJobId) (∅ : gmap (list Z) Job)
  = Api.Get400 (Js.lit "Invalid job ID").
Proof.
  apply (proj1 (proj2 poll_refused_when_absent_or_evicted)).
  apply lookup_empty.
Defined.

(* ===================================================================== *)
(** ** Records and profile of a job *)
(* ===================================================================== *)


Lemma parseItem_crawledRecord (el : Parse.GridItem) (f : FilmRecord) :
  Parse.parseItem el = Ok (Some f) -> crawledRecord f.
Proof.
  intros Hel.
  apply parseItem_Some in Hel as (dc & n & t & _ & _ & _ & Hslug & Ht & ->).
  split; simpl.
  - now exists (Parse.itemSlug dc), t.
  - unfold Parse.parseNameYear.
    destruct (Parse.yearMatch n) as [[m y]|] eqn:Hm; simpl; [|discriminate].
    intros y' [= <-]. apply yearMatch_sound in Hm as [Hs _].
    destruct Hs as (w & d1 & d2 & d3 & d4 & _ & H1 & H2 & H3 & H4 & -> & _).
    split; [reflexivity | repeat constructor; assumption].
Qed.

(** The callback throws on two kinds of item only, both with a name and a
    slug that are truthy: a name that is not a string, and a slug whose
    conversion to text throws. *)
Lemma parseItem_Throw (el : Parse.GridItem) (e : Exn) :
  Parse.parseItem el = Throw e <->
  exists dc,
    Parse.dataContainer el = Some dc /\
    Parse.truthyData (Parse.itemSlug dc) = true /\
    ((exists shown, Parse.itemName dc = Parse.Coerced true shown /\
                    e = Parse.matchIsNotAFunction) \/
     (exists nameWithYear, Parse.itemName dc = Parse.Text nameWithYear /\
                           nameWithYear <> [] /\
                           Parse.interpolate (Parse.itemSlug dc) = Throw e)).
Proof.
  unfold Parse.parseItem. split.
  - destruct (Parse.dataContainer el) as [dc|]; [|discriminate].
    destruct (Parse.itemName dc) as [|n|b t] eqn:Hname; cbn [Parse.truthyData negb orb].
    + discriminate.
    + destruct (Js.truthy n) eqn:Hn; cbn [negb orb]; [|discriminate].
      destruct (Parse.truthyData (Parse.itemSlug dc)) eqn:Hs; cbn [negb]; [|discriminate].
      destruct (Parse.parseNameYear n).
      destruct (Parse.interpolate (Parse.itemSlug dc)) as [t|e'] eqn:Hi; [discriminate|].
      intros [= <-]. exists dc. split; [reflexivity|]. split; [exact Hs|].
      right. exists n. split; [exact Hname|]. split; [now destruct n | exact Hi].
    + destruct b; cbn [negb orb]; [|discriminate].
      destruct (Parse.truthyData (Parse.itemSlug dc)) eqn:Hs; cbn [negb]; [|discriminate].
      intros [= <-]. exists dc. split; [reflexivity|]. split; [exact Hs|].
      left. exists t. split; [exact Hname | reflexivity].
  - intros (dc & -> & Hs & [(t & -> & ->) | (n & -> & Hn & Hi)]);
      cbn [Parse.truthyData negb orb]; rewrite Hs; cbn [negb orb].
    + reflexivity.
    + destruct n as [|c n]; [contradiction|]. cbn [Js.truthy negb orb].
      destruct (Parse.parseNameYear (c :: n)). now rewrite Hi.
Qed.

(** An item the callback returns early on is as good as not there. *)
Lemma eachItem_skip (before : list Parse.GridItem) (el : Parse.GridItem)
    (after : list Parse.GridItem) :
  Parse.parseItem el = Ok None ->
  forall j : Job,
    Scraper.eachItem (before ++ el :: after) j = Scraper.eachItem (before ++ after) j.
Proof.
  intros Hel. induction before as [|x before IH]; intros j; simpl.
  - now rewrite Hel.
  - destruct (Parse.parseItem x) as [[f|]|e]; [|apply IH|reflexivity].
    unfold mbind, task_bind, bind. cbn [update outcome final seen].
    now rewrite IH.
Qed.

Lemma recordsStep_pre : PreOrder recordsStep.
Proof. split; [intros a; exact id | intros a b c Hab Hbc Ha; auto]. Qed.

#[local] Existing Instance recordsStep_pre.

Lemma records_run_sorted env user jobId :
  StronglySorted recordsStep
    (states Api.newJob (Scraper.startScraping env user jobId Api.newJob)).
Proof.
  apply (run_sorted recordsStep (fun _ _ _ => True) (fun _ => True));
    try (intros; exact I); try (intros; exact id).
  - intros tp q j el f Hel _. split; [|exact I].
    intros Hj. simpl. apply Forall_app.
    split; [exact Hj | constructor; [now apply (parseItem_crawledRecord el) | constructor]].
  - intros tp q j _ _. split; [exact (fun H => H) | exact I].
Qed.

(** X9.  Every record in the [data] of a job, at any state of any run,
    has an address made of the site's origin followed by the text a
    template literal gives for a truthy slug (the slug itself when it is a
    string, and then it is not empty), and a year that is either [null] or
    exactly four digits.  An item without data container, or whose name
    or slug is falsy, adds no record and does not stop the items after
    it.  The callback throws on two kinds of item only, both with a
    truthy slug: one whose name cheerio coerced to a truthy value that is
    not a string (the [TypeError] of the call of [match]), and one with a
    string name whose slug throws when turned into text. *)
Theorem records_are_well_formed :
  (forall env user jobId,
     Forall (fun j => Forall crawledRecord (data j))
       (states Api.newJob (Scraper.startScraping env user jobId Api.newJob))) /\
  (forall slug,
     Parse.truthyData (Parse.Text slug) = true ->
     slug <> [] /\ Parse.interpolate (Parse.Text slug) = Ok slug) /\
  (forall before el after j,
     match Parse.dataContainer el with
     | None => True
     | Some dc => Parse.truthyData (Parse.itemName dc) = false \/
                  Parse.truthyData (Parse.itemSlug dc) = false
     end ->
     Scraper.eachItem (before ++ el :: after) j
     = Scraper.eachItem (before ++ after) j) /\
  (forall el e,
     Parse.parseItem el = Throw e <->
     exists dc,
       Parse.dataContainer el = Some dc /\
       Parse.truthyData (Parse.itemSlug dc) = true /\
       ((exists shown, Parse.itemName dc = Parse.Coerced true shown /\
                       e = Parse.matchIsNotAFunction) \/
        (exists nameWithYear, Parse.itemName dc = Parse.Text nameWithYear /\
                              nameWithYear <> [] /\
                              Parse.interpolate (Parse.itemSlug dc) = Throw e))).
Proof.
  split; [|split; [|split]].
  - intros env user jobId.
    apply (StronglySorted_invariant recordsStep);
      [|apply records_run_sorted|constructor].
    intros x y Hxy. exact Hxy.
  - intros slug Hs. split; [|reflexivity]. now destruct slug.
  - intros before el after j Hel. apply eachItem_skip.
    unfold Parse.parseItem. destruct (Parse.dataContainer el) as [dc|]; [|reflexivity].
    destruct Hel as [-> | ->]; [reflexivity|].
    now rewrite orb_true_r.
  - apply parseItem_Throw.
Qed.

Lemma records_are_well_formed_witness :
  Scraper.eachItem ([Sample.arrivalItem] ++ Sample.zeroNameItem :: [Sample.sixStarItem])
    Api.newJob
  = Scraper.eachItem ([Sample.arrivalItem] ++ [Sample.sixStarItem]) Api.newJob.
Proof.
  apply (proj1 (proj2 (proj2 records_are_well_formed))). left. reflexivity.
Defined.

Lemma implStep_pre (P : Job -> Prop) : PreOrder (fun a b => P a -> P b).
Proof. split; [intros a; exact id | intros a b c Hab Hbc Ha; auto]. Qed.

Lemma profileStep_pre (p : ProfileSummary) : PreOrder (profileStep p).
Proof.
  split.
  - intros a. now left.
  - intros a b c [Hab | [Ha Hb]] [Hbc | [Hb' Hc]].
    + left. congruence.
    + right. split; congruence.
    + right. split; congruence.
    + congruence.
Qed.

Lemma profile_split (p : ProfileSummary) (l : list Job) :
  StronglySorted (profileStep p) l ->
  Forall (fun j => profileData j = None \/ profileData j = Some p) l ->
  exists before after,
    l = before ++ after /\
    Forall (fun j => profileData j = None) before /\
    Forall (fun j => profileData j = Some p) after.
Proof.
  induction 1 as [|a l Hs IH Hall]; intros Hvals.
  - exists [], []. repeat split; constructor.
  - inversion Hvals as [|? ? Ha Hl]; subst.
    destruct (profileData a) as [pa|] eqn:Hpa.
    + exists [], (a :: l). repeat split; [constructor|].
      assert (HaP : Some pa = Some p) by (destruct Ha; [discriminate | assumption]).
      constructor; [congruence|].
      eapply Forall_impl; [exact Hall|].
      intros x [Hx | [Hx _]]; congruence.
    + destruct (IH Hl) as (before & after & -> & Hb & Hafter).
      exists (a :: before), after. repeat split; [constructor|]; assumption.
Qed.

Section RunShapeProfile.

Context (R : Job -> Job -> Prop) {R_pre : PreOrder R}.

Variable Inv : Z -> Z -> Job -> Prop.
Variable Live : Job -> Prop.
Variable env : Scraper.Env.
Variable user : list Z.

(** As in [RunShape], with the profile known to be the scraped one. *)

Hypothesis R_started : R Api.newJob started.
Hypothesis R_profiled : R started (profiled (scrapedProfile (Scraper.profileEnv env) user)).
Hypothesis R_counted : forall tp, R (profiled (scrapedProfile (Scraper.profileEnv env) user)) (counted (scrapedProfile (Scraper.profileEnv env) user) tp).
Hypothesis Inv_counted : forall tp, Inv tp 1 (counted (scrapedProfile (Scraper.profileEnv env) user) tp).
Hypothesis Inv_skip : forall tp q j, Inv tp q j -> Inv tp (q + 1) j.
Hypothesis Inv_push : forall tp q j el f,
  Parse.parseItem el = Ok (Some f) -> Inv tp q j ->
  R j (Scraper.pushFilm f j) /\ Inv tp q (Scraper.pushFilm f j).
Hypothesis Inv_page : forall tp q j, 1 <= q <= tp -> Inv tp q j ->
  R j (setProgress (inject_Z q / inject_Z tp)%Q j) /\
  Inv tp (q + 1) (setProgress (inject_Z q / inject_Z tp)%Q j).
Hypothesis R_completed : forall tp q j, Inv tp q j -> R j (setStatus Completed j).
Hypothesis Live_started : Live started.
Hypothesis Live_profiled : Live (profiled (scrapedProfile (Scraper.profileEnv env) user)).
Hypothesis Live_loop : forall tp q j, Inv tp q j -> Live j.
Hypothesis R_failed : forall m j, Live j -> R j (failedWith m j).

Lemma wp_scrapeProfile_exact penv (Q : ProfileSummary -> Job -> Prop) E j :
  Q (scrapedProfile penv user) j -> wp R (Profile.scrapeProfile penv user) Q E j.
Proof using R_pre.
  intros HQ. unfold Profile.scrapeProfile, Profile.scrapeProfileTry, scrapedProfile in *.
  apply wp_tryCatch; [exact R_pre|].
  apply wp_bind, wp_await; try exact R_pre.
  destruct (Profile.profileGoto penv); [|now apply wp_ret].
  apply wp_bind, wp_await; try exact R_pre.
  destruct (Profile.profileSummaryWait penv); [|now apply wp_ret].
  apply wp_bind, wp_await; try exact R_pre.
  destruct (Profile.profileContent penv); [|now apply wp_ret].
  now apply wp_ret.
Qed.

Lemma run_sorted_profile jobId :
  StronglySorted R (states Api.newJob (Scraper.startScraping env user jobId Api.newJob)).
Proof using All.
  apply chainFrom_sorted; [exact R_pre|].
  assert (Hwp : wp R (Scraper.startScraping env user jobId)
                  (fun _ _ => True) (fun _ _ => True) Api.newJob).
  { unfold Scraper.startScraping.
    apply wp_tryFinally; [exact R_pre|].
    apply wp_mono with (Q := fun _ _ => True) (E := fun _ _ => True);
      [|intros; apply (wp_cleanup R)..].
    apply wp_tryCatch; [exact R_pre|].
    apply wp_mono with (Q := fun _ _ => True) (E := fun _ j' => Live j');
      [|trivial|intros; now apply (wp_onError R Live R_failed)].
    unfold Scraper.startScrapingTry.
    apply wp_bind, wp_update; [exact R_pre|exact R_started|]. fold started.
    apply wp_bind, wp_await; try exact R_pre.
    destruct (Scraper.launch env); [|exact Live_started].
    apply wp_bind, wp_await; try exact R_pre.
    destruct (Scraper.newPage env); [|exact Live_started].
    apply wp_bind, wp_await; try exact R_pre.
    destruct (Scraper.setUserAgent env); [|exact Live_started].
    apply wp_bind, wp_scrapeProfile_exact; try exact R_pre.
    apply wp_bind, wp_await; try exact R_pre.
    apply wp_bind, wp_update; [exact R_pre|apply R_profiled|]. fold (profiled (scrapedProfile (Scraper.profileEnv env) user)).
    apply wp_bind, wp_await; try exact R_pre.
    destruct (Scraper.filmsGoto env); [|apply Live_profiled].
    apply wp_bind, wp_await; try exact R_pre. simpl.
    apply wp_bind, wp_await; try exact R_pre.
    destruct (Scraper.paginateItems env) as [pageItems|]; [|apply Live_profiled].
    set (tp := Parse.computeTotalPages pageItems).
    apply wp_bind, wp_update; [exact R_pre|apply R_counted|]. fold (counted (scrapedProfile (Scraper.profileEnv env) user) tp).
    apply wp_bind; [exact R_pre|].
    eapply wp_mono.
    - apply (wp_pageLoop R env tp (Inv tp));
        [apply Inv_skip | apply Inv_push | apply Inv_page | | | apply Inv_counted]; lia.
    - intros _ j' [q Hj']. simpl. apply wp_update; [|exact I].
      now apply (R_completed tp q).
    - intros _ j' [q Hj']. now apply (Live_loop tp q). }
  exact (proj1 Hwp).
Qed.

End RunShapeProfile.

(** X10.  The profile of a job is stored once, before anything is
    crawled: along any run [profileData] is unset up to the assignment and
    what [scrapeProfile] returned from then on (the extracted summary, or
    the degraded one when the profile page failed), and as long as it is
    unset the job has no data, the initial page count and progress 0. *)
Theorem profile_stored_once_before_crawl env user jobId :
  let trace := states Api.newJob (Scraper.startScraping env user jobId Api.newJob) in
  let p := scrapedProfile (Scraper.profileEnv env) user in
  (exists before after,
     trace = before ++ after /\
     Forall (fun j => profileData j = None) before /\
     Forall (fun j => profileData j = Some p) after) /\
  Forall (fun j => profileData j = None ->
                   data j = [] /\ totalPages j = 1 /\ progress j = 0%Q) trace.
Proof.
  intros trace p. split.
  - assert (Hs : StronglySorted (profileStep p) trace).
    { apply (@run_sorted_profile _ (profileStep_pre p)
               (fun _ _ _ => True) (fun _ => True));
        try (intros; exact I); try (intros; now left).
      - right. split; reflexivity.
      - intros; split; [now left | exact I].
      - intros; split; [now left | exact I]. }
    apply (profile_split p _ Hs).
    apply (StronglySorted_invariant (profileStep p)); [|exact Hs|now left].
    intros x y [Hxy | [_ Hy]] [Hx | Hx]; [left | right | right | right]; congruence.
  - apply (StronglySorted_invariant
             (fun a b => (profileData a = None ->
                          data a = [] /\ totalPages a = 1 /\ progress a = 0%Q) ->
                         (profileData b = None ->
                          data b = [] /\ totalPages b = 1 /\ progress b = 0%Q))).
    + intros x y Hxy. exact Hxy.
    + apply (@run_sorted _ (implStep_pre _)
               (fun _ _ j => profileData j <> None) (fun _ => True)).
      * intros _ _. repeat split.
      * intros p' _. discriminate.
      * intros p' items _ _. discriminate.
      * intros p' items _. discriminate.
      * trivial.
      * intros tp q j el f _ Hj. split; [|exact Hj]. intros _ Hn. now contradiction Hj.
      * intros tp q j _ Hj. split; [|exact Hj]. intros _ Hn. now contradiction Hj.
      * intros tp q j Hj _ Hn. now contradiction Hj.
      * exact I.
      * intros; exact I.
      * intros; exact I.
      * intros m j _ Hj Hn. apply Hj. exact Hn.
    + intros _. repeat split.
Qed.

(* ===================================================================== *)
(** ** Facts on [trim] and on runs of digits *)
(* ===================================================================== *)

Ltac split_numeral :=
  repeat match goal with
         | |- context [match ?x with _ => _ end] =>
             is_var x; destruct x; try reflexivity; try (exfalso; lia)
         end.

Ltac decide_units :=
  repeat match goal with
         | |- context [?a <=? ?b] => destruct (Z.leb_spec a b); try lia
         | |- context [?a =? ?b] => destruct (Z.eqb_spec a b); try lia
         end;
  try reflexivity.

Lemma digit_not_space (c : Z) : Js.isDigit c = true -> Js.isWhiteSpace c = false.
Proof.
  unfold Js.isDigit, Js.isWhiteSpace. intros H.
  apply andb_prop in H as [H1 H2]. apply Z.leb_le in H1, H2. decide_units.
Qed.

Lemma dropWhile_no_space (s : list Z) :
  Forall (fun c => Js.isWhiteSpace c = false) s -> Js.dropWhile Js.isWhiteSpace s = s.
Proof. intros H. destruct H as [|c s Hc _]; simpl; [reflexivity | now rewrite Hc]. Qed.

Lemma trim_no_space (s : list Z) :
  Forall (fun c => Js.isWhiteSpace c = false) s -> Js.trim s = s.
Proof.
  intros H. unfold Js.trim, Js.trimEnd, Js.trimStart.
  rewrite (dropWhile_no_space s H), dropWhile_no_space, rev_involutive;
    [reflexivity|].
  apply Forall_forall. intros c Hc. rewrite Forall_forall in H. apply H.
  apply list_elem_of_In. apply in_rev. now apply list_elem_of_In.
Qed.

Lemma dropWhile_snoc (f : Z -> bool) (p : list Z) (w : Z) :
  f w = true ->
  Js.dropWhile f (p ++ [w]) = if forallb f p then [] else Js.dropWhile f p ++ [w].
Proof.
  intros Hw. induction p as [|c p IH]; simpl; [now rewrite Hw|].
  destruct (f c); simpl; [exact IH | reflexivity].
Qed.

Lemma dropWhile_all (f : Z -> bool) (p : list Z) :
  forallb f p = true -> Js.dropWhile f p = [].
Proof.
  induction p as [|c p IH]; simpl; [reflexivity|].
  destruct (f c); simpl; [exact IH | discriminate].
Qed.

(** A white-space unit at the end does not show after [trim]. *)
Lemma trim_snoc_space (p : list Z) (w : Z) :
  Js.isWhiteSpace w = true -> Js.trim (p ++ [w]) = Js.trim p.
Proof.
  intros Hw. unfold Js.trim, Js.trimEnd, Js.trimStart.
  rewrite (dropWhile_snoc _ _ _ Hw).
  destruct (forallb Js.isWhiteSpace p) eqn:Hall.
  - now rewrite (dropWhile_all _ _ Hall).
  - rewrite rev_app_distr. simpl. now rewrite Hw.
Qed.

Lemma readDigits_acc (d : list Z) : forall a : Z,
  Forall (fun c => Js.isDigit c = true) d ->
  Js.readDigits 10 (Some a) d
  = Some (fold_left (fun acc c => 10 * acc + (c - 48)) d a).
Proof.
  induction d as [|c d IH]; intros a Hd; [reflexivity|].
  inversion Hd as [|? ? Hc Hd']; subst. simpl.
  unfold Js.digitValue. rewrite Hc. simpl. now apply IH.
Qed.

(** Reading stops at the first unit that is not a digit. *)
Lemma readDigits_stop (d : list Z) (c : Z) (rest : list Z) : forall acc,
  Forall (fun c => Js.isDigit c = true) d -> Js.isDigit c = false ->
  (c < 65 \/ 70 < c) -> (c < 97 \/ 102 < c) ->
  Js.readDigits 10 acc (d ++ c :: rest) = Js.readDigits 10 acc d.
Proof.
  induction d as [|x d IH]; intros acc Hd Hc H1 H2.
  - simpl. unfold Js.digitValue. rewrite Hc. simpl. reflexivity.
  - inversion Hd as [|? ? Hx Hd']; subst. simpl.
    unfold Js.digitValue. rewrite Hx. now apply IH.
Qed.

Lemma readDigits_value (d : list Z) :
  d <> [] -> Forall (fun c => Js.isDigit c = true) d ->
  Js.readDigits 10 None d = Some (decimalValue d).
Proof.
  intros Hne Hd. destruct d as [|c d]; [contradiction|].
  inversion Hd as [|? ? Hc Hd']; subst. simpl.
  unfold Js.digitValue. rewrite Hc. simpl.
  rewrite readDigits_acc by assumption. reflexivity.
Qed.

(** [parseInt] of a text that starts with a digit and holds no letter
    reads in radix 10, with no sign. *)
Lemma toNumber_safe (n : Z) : safeInteger n -> Js.toNumber n = n.
Proof.
  unfold safeInteger, Js.toNumber. intros Hn.
  now destruct (Z.leb_spec (Z.abs n) (2 ^ 53)); [|lia].
Qed.

Lemma parseInt_digit_first (c : Z) (s : list Z) :
  Js.isDigit c = true ->
  match s with x :: _ => x <> 120 /\ x <> 88 | [] => True end ->
  Js.parseInt (c :: s) = Js.toNumber <$> Js.readDigits 10 None (c :: s).
Proof.
  intros Hc Hs. unfold Js.parseInt, Js.trimStart.
  cbn [Js.dropWhile]. rewrite (digit_not_space c Hc).
  assert (H45 : c <> 45 /\ c <> 43).
  { unfold Js.isDigit in Hc. apply andb_prop in Hc as [H1 H2].
    apply Z.leb_le in H1, H2. lia. }
  destruct H45 as [H45 H43].
  assert (Hsign : match c :: s with
                  | 45 :: r => (-1, r)
                  | 43 :: r => (1, r)
                  | _ => (1, c :: s)
                  end = (1, c :: s)).
  { clear Hc Hs. split_numeral. }
  rewrite Hsign.
  assert (Hradix : match c :: s with
                   | 48 :: 120 :: r => (16, r)
                   | 48 :: 88 :: r => (16, r)
                   | _ => (10, c :: s)
                   end = (10, c :: s)).
  { clear Hc Hsign. destruct s as [|x s]; [split_numeral|].
    destruct Hs as [Hx1 Hx2]. split_numeral. }
  rewrite Hradix.
  destruct (Js.readDigits 10 None (c :: s)) as [v|]; [|reflexivity].
  cbn [fmap option_fmap option_map]. do 2 f_equal. lia.
Qed.

(* ===================================================================== *)
(** ** Counters with thousands separators *)
(* ===================================================================== *)

Lemma grouped_no_space (t : list Z) :
  grouped t -> Forall (fun c => Js.isWhiteSpace c = false) t.
Proof.
  intros H. eapply Forall_impl; [exact H|].
  intros c [Hc | ->]; [now apply digit_not_space | reflexivity].
Qed.

Lemma removeAll_grouped (t : list Z) :
  grouped t -> Forall (fun c => Js.isDigit c = true) (Js.removeAll 44 t).
Proof.
  unfold Js.removeAll. induction 1 as [|c t Hc _ IH]; simpl; [constructor|].
  destruct (Z.eqb_spec c 44) as [->|Hne]; simpl; [exact IH|].
  constructor; [|exact IH]. destruct Hc; [assumption | contradiction].
Qed.

Lemma digit_not_x (c : Z) : Js.isDigit c = true -> c <> 120 /\ c <> 88.
Proof.
  unfold Js.isDigit. intros H. apply andb_prop in H as [H1 H2].
  apply Z.leb_le in H1, H2. lia.
Qed.

Lemma parseInt_digits (d : list Z) :
  d <> [] -> Forall (fun c => Js.isDigit c = true) d ->
  Js.parseInt d = Some (Js.toNumber (decimalValue d)).
Proof.
  intros Hne Hd.
  change (Some (Js.toNumber (decimalValue d)))
    with (Js.toNumber <$> Some (decimalValue d)).
  rewrite <- readDigits_value by assumption.
  destruct d as [|c d]; [contradiction|].
  inversion Hd as [|? ? Hc Hd']; subst.
  apply parseInt_digit_first; [exact Hc|].
  destruct Hd' as [|x d Hx _]; [exact I | now apply digit_not_x].
Qed.

(** X11.  The counter parser of the profile extractor reads a counter
    written with thousands separators as the number its digits denote,
    because the commas are taken out before [parseInt]; the parser of the
    older variant calls [parseInt] on the text as it is and stops at the
    first comma.  Both for numbers up to [2 ^ 53], which a double holds
    exactly. *)
Theorem counter_reads_grouped_digits :
  (forall t,
     grouped t -> Js.removeAll 44 t <> [] ->
     safeInteger (decimalValue (Js.removeAll 44 t)) ->
     Parse.parseCounter t = decimalValue (Js.removeAll 44 t)) /\
  (forall d rest,
     digits d -> grouped rest -> safeInteger (decimalValue d) ->
     Legacy.parseCounter (d ++ 44 :: rest) = decimalValue d).
Proof.
  split.
  - intros t Ht Hne Hsafe. unfold Parse.parseCounter.
    rewrite (trim_no_space t (grouped_no_space t Ht)).
    rewrite (parseInt_digits _ Hne (removeAll_grouped t Ht)).
    now apply toNumber_safe.
  - intros d rest [Hne Hd] Hrest Hsafe. unfold Legacy.parseCounter.
    rewrite trim_no_space.
    + destruct d as [|c d]; [contradiction|].
      inversion Hd as [|? ? Hc Hd']; subst.
      cbn [app]. rewrite parseInt_digit_first.
      * change (c :: d ++ 44 :: rest) with ((c :: d) ++ 44 :: rest).
        rewrite readDigits_stop by (assumption || reflexivity || lia).
        rewrite readDigits_value by assumption.
        cbn [fmap option_fmap option_map]. now apply toNumber_safe.
      * exact Hc.
      * destruct Hd' as [|x d Hx _]; [cbn; lia | cbn [app]; now apply digit_not_x].
    + apply Forall_app. split.
      * eapply Forall_impl; [exact Hd|]. intros c. apply digit_not_space.
      * constructor; [reflexivity | now apply grouped_no_space].
Qed.

Lemma counter_reads_grouped_digits_witness :
  Parse.parseCounter (Js.lit "1,204") = 1204 /\
  Legacy.parseCounter (Js.lit "1,204") = 1.
Proof.
  assert (Hg : forall t, forallb (fun c => Js.isDigit c || (c =? 44)) t = true -> grouped t).
  { intros t Ht. apply Forall_forall. intros c Hc.
    rewrite forallb_forall in Ht. apply list_elem_of_In in Hc.
    specialize (Ht c Hc). apply orb_prop in Ht as [Hd | He]; [now left | right; lia]. }
  split.
  - apply (proj1 counter_reads_grouped_digits (Js.lit "1,204")).
    + now apply Hg.
    + discriminate.
    + vm_compute. discriminate.
  - apply (proj2 counter_reads_grouped_digits (Js.lit "1") (Js.lit "204")).
    + split; [discriminate | repeat constructor].
    + now apply Hg.
    + vm_compute. discriminate.
Defined.

(* ===================================================================== *)
(** ** The name parser of the older variant *)
(* ===================================================================== *)

Lemma yearTailHere_length (s : list Z) :
  length s <> 6%nat -> Legacy.yearTailHere s = false.
Proof.
  destruct s as [|lp [|d1 [|d2 [|d3 [|d4 [|rp [|x s]]]]]]]; try reflexivity.
  intros H. now contradiction H.
Qed.

Lemma yearTailHere_true_length (s : list Z) :
  Legacy.yearTailHere s = true -> length s = 6%nat.
Proof.
  intros H. destruct (Nat.eq_dec (length s) 6%nat) as [|Hne]; [assumption|].
  rewrite (yearTailHere_length s Hne) in H. discriminate.
Qed.

Lemma stripYearTail_tail (p t : list Z) :
  Legacy.yearTailHere t = true -> Legacy.stripYearTail (p ++ t) = p.
Proof.
  intros Ht. pose proof (yearTailHere_true_length t Ht) as Hlen.
  induction p as [|c p IH].
  - simpl. destruct t as [|x t]; [discriminate Hlen|].
    cbn [Legacy.stripYearTail]. now rewrite Ht.
  - cbn [app Legacy.stripYearTail].
    rewrite yearTailHere_length; [now rewrite IH|].
    simpl. rewrite length_app, Hlen. lia.
Qed.

Lemma yearSuffix_tail (m y : list Z) :
  yearSuffix m y ->
  exists w t, m = w :: t /\ Js.isWhiteSpace w = true /\ Legacy.yearTailHere t = true.
Proof.
  intros (w & d1 & d2 & d3 & d4 & Hw & H1 & H2 & H3 & H4 & _ & ->).
  exists w, [Parse.lparen; d1; d2; d3; d4; Parse.rparen].
  split; [reflexivity|]. split; [exact Hw|].
  unfold Legacy.yearTailHere. now rewrite H1, H2, H3, H4, !Z.eqb_refl.
Qed.

(** X12.  The name parser of the older variant takes the parenthesised
    four-digit year off the end of the title, whatever precedes it: the
    name is the text before the year, trimmed, also when the same year
    text occurs earlier in the title; on a title that ends with a
    white-space unit and the year, and holds that text nowhere else, the
    current parser gives the same name. *)
Theorem legacy_name_strips_trailing_year :
  (forall p t,
     Legacy.yearTailHere t = true -> Legacy.stripYearTail (p ++ t) = p) /\
  (forall p m y,
     yearSuffix m y -> Js.trim (Legacy.stripYearTail (p ++ m)) = Js.trim p) /\
  (forall p m y,
     yearSuffix m y ->
     (forall i, (i < length p)%nat -> Js.startsWith m (drop i (p ++ m)) = false) ->
     fst (Parse.parseNameYear (p ++ m)) = Js.trim (Legacy.stripYearTail (p ++ m))).
Proof.
  assert (Hname : forall p m y,
            yearSuffix m y -> Js.trim (Legacy.stripYearTail (p ++ m)) = Js.trim p).
  { intros p m y Hs. destruct (yearSuffix_tail m y Hs) as (w & t & -> & Hw & Ht).
    change (p ++ w :: t) with (p ++ [w] ++ t). rewrite app_assoc.
    rewrite (stripYearTail_tail _ _ Ht). now apply trim_snoc_space. }
  split; [exact stripYearTail_tail|]. split; [exact Hname|].
  intros p m y Hs Hfirst.
  rewrite (parseNameYear_suffix p m y Hs Hfirst). cbn [fst].
  symmetry. now apply (Hname p m y).
Qed.

Lemma legacy_name_strips_trailing_year_witness :
  Js.trim (Legacy.stripYearTail (Js.lit "A (2016) B" ++ Js.lit " (2016)"))
  = Js.trim (Js.lit "A (2016) B").
Proof.
  apply (proj1 (proj2 legacy_name_strips_trailing_year)
           (Js.lit "A (2016) B") (Js.lit " (2016)") (Js.lit "2016")).
  exists 32, 50, 48, 49, 54. repeat split.
Defined.

(* ===================================================================== *)
(** ** Page count read back from its decimal form *)
(* ===================================================================== *)

Lemma lit_cons (a : ascii) (s : string) :
  Js.lit (String a s) = Z.of_N (N_of_ascii a) :: Js.lit s.
Proof. reflexivity. Qed.

Lemma readDigits_uint_acc (d : Decimal.uint) : forall p : positive,
  Js.readDigits 10 (Some (Z.pos p)) (Js.lit (NilEmpty.string_of_uint d))
  = Some (Z.pos (Pos.of_uint_acc d p)).
Proof.
  induction d as [|d IH|d IH|d IH|d IH|d IH|d IH|d IH|d IH|d IH|d IH]; intros p;
    [reflexivity|..];
    cbn [NilEmpty.string_of_uint Pos.of_uint_acc]; rewrite lit_cons;
    cbn [Js.readDigits]; unfold Js.digitValue; cbn -[Z.mul Z.add Js.readDigits Js.lit];
    rewrite <- IH; do 2 f_equal; lia.
Qed.

Lemma readDigits_uint (d : Decimal.uint) :
  Js.readDigits 10 (Some 0) (Js.lit (NilEmpty.string_of_uint d))
  = Some (Z.of_N (Pos.of_uint d)).
Proof.
  induction d as [|d IH|d IH|d IH|d IH|d IH|d IH|d IH|d IH|d IH|d IH];
    [reflexivity|..];
    cbn [NilEmpty.string_of_uint Pos.of_uint]; rewrite lit_cons;
    cbn [Js.readDigits]; unfold Js.digitValue; cbn -[Z.mul Z.add Js.readDigits Js.lit];
    [exact IH|..]; cbn [Z.of_N]; rewrite <- readDigits_uint_acc; reflexivity.
Qed.

Lemma uint_units_digits (d : Decimal.uint) :
  Forall (fun c => Js.isDigit c = true) (Js.lit (NilEmpty.string_of_uint d)).
Proof.
  induction d; cbn [NilEmpty.string_of_uint]; rewrite ?lit_cons;
    constructor; (reflexivity || assumption).
Qed.

Lemma uint_units_nonempty (d : Decimal.uint) :
  d <> Decimal.Nil -> Js.lit (NilEmpty.string_of_uint d) <> [].
Proof. destruct d; [contradiction | discriminate..]. Qed.

Lemma readDigits_None_Some0 (s : list Z) :
  s <> [] -> Forall (fun c => Js.isDigit c = true) s ->
  Js.readDigits 10 None s = Js.readDigits 10 (Some 0) s.
Proof.
  intros Hne Hs. destruct Hs as [|c s Hc _]; [contradiction|].
  simpl. unfold Js.digitValue. now rewrite Hc.
Qed.

Lemma parseInt_pos (p : positive) :
  Js.parseInt (Js.lit (NilEmpty.string_of_uint (Pos.to_uint p)))
  = Some (Js.toNumber (Z.pos p)).
Proof.
  pose proof (uint_units_digits (Pos.to_uint p)) as Hd.
  pose proof (uint_units_nonempty _ (DecimalPos.Unsigned.to_uint_nonnil p)) as Hne.
  pose proof (readDigits_uint (Pos.to_uint p)) as Hr.
  rewrite DecimalPos.Unsigned.of_to in Hr.
  rewrite <- readDigits_None_Some0 in Hr by assumption.
  destruct (Js.lit (NilEmpty.string_of_uint (Pos.to_uint p))) as [|c s];
    [contradiction|].
  inversion Hd as [|? ? Hc Hs]; subst.
  rewrite parseInt_digit_first; [now rewrite Hr | exact Hc |].
  destruct Hs as [|x s Hx _]; [exact I | now apply digit_not_x].
Qed.


Lemma parseInt_minus_digit (c : Z) (s : list Z) :
  Js.isDigit c = true ->
  match s with x :: _ => x <> 120 /\ x <> 88 | [] => True end ->
  Js.parseInt (45 :: c :: s) =
  match Js.readDigits 10 None (c :: s) with
  | Some v => Some (Js.toNumber (- v))
  | None => None
  end.
Proof.
  intros Hc Hs. unfold Js.parseInt, Js.trimStart.
  cbn [Js.dropWhile]. change (Js.isWhiteSpace 45) with false. cbv iota.
  assert (Hradix : match c :: s with
                   | 48 :: 120 :: r => (16, r)
                   | 48 :: 88 :: r => (16, r)
                   | _ => (10, c :: s)
                   end = (10, c :: s)).
  { clear Hc. destruct s as [|x s]; [split_numeral|].
    destruct Hs as [Hx1 Hx2]. split_numeral. }
  rewrite Hradix.
  destruct (Js.readDigits 10 None (c :: s)); [do 2 f_equal; lia | reflexivity].
Qed.

Lemma parseInt_numberToString (n : Z) :
  Js.parseInt (Js.numberToString n) = Some (Js.toNumber n).
Proof.
  destruct n as [|p|p]; [reflexivity| |].
  - apply parseInt_pos.
  - unfold Js.numberToString.
    change (Js.lit (NilEmpty.string_of_int (Z.to_int (Z.neg p))))
      with (45 :: Js.lit (NilEmpty.string_of_uint (Pos.to_uint p))).
    pose proof (uint_units_digits (Pos.to_uint p)) as Hd.
    pose proof (uint_units_nonempty _ (DecimalPos.Unsigned.to_uint_nonnil p)) as Hne.
    pose proof (readDigits_uint (Pos.to_uint p)) as Hr.
    rewrite DecimalPos.Unsigned.of_to in Hr.
    rewrite <- readDigits_None_Some0 in Hr by assumption.
    destruct (Js.lit (NilEmpty.string_of_uint (Pos.to_uint p))) as [|c s];
      [contradiction|].
    inversion Hd as [|? ? Hc Hs]; subst.
    rewrite parseInt_minus_digit; [now rewrite Hr | exact Hc |].
    destruct Hs as [|x s Hx _]; [exact I | now apply digit_not_x].
Qed.

Lemma numberToString_no_space (n : Z) :
  Forall (fun c => Js.isWhiteSpace c = false) (Js.numberToString n).
Proof.
  assert (Hu : forall d, Forall (fun c => Js.isWhiteSpace c = false)
                           (Js.lit (NilEmpty.string_of_uint d))).
  { intros d. eapply Forall_impl; [apply uint_units_digits|].
    intros c. apply digit_not_space. }
  destruct n as [|p|p]; [repeat constructor | apply Hu |].
  unfold Js.numberToString.
  change (Js.lit (NilEmpty.string_of_int (Z.to_int (Z.neg p))))
    with (45 :: Js.lit (NilEmpty.string_of_uint (Pos.to_uint p))).
  constructor; [reflexivity | apply Hu].
Qed.

(** X13.  When the last entry of the pagination list shows an integer in
    decimal, of magnitude up to [2 ^ 53], the page count is that integer,
    whatever the entries before it: a negative number or 0 is taken as
    it is, not raised to 1. *)
Theorem totalPages_is_last_entry (pageItems : list (list Z)) (n : Z) :
  safeInteger n ->
  Parse.computeTotalPages (pageItems ++ [Js.numberToString n]) = n.
Proof.
  intros Hn. unfold Parse.computeTotalPages. rewrite last_snoc.
  rewrite (trim_no_space _ (numberToString_no_space n)).
  rewrite parseInt_numberToString. now rewrite toNumber_safe.
Qed.

Lemma totalPages_is_last_entry_witness :
  Parse.computeTotalPages ([Js.lit "1"; Js.lit "2"] ++ [Js.numberToString (-3)]) = -3.
Proof.
  apply (totalPages_is_last_entry [Js.lit "1"; Js.lit "2"] (-3)).
  vm_compute. discriminate.
Defined.

(** X14.  When the browser operations before the page loop succeed and the
    page count read from the pagination list is 0 or negative, no listing
    page is looked at and the job ends completed with no data and
    progress 0. *)
Theorem no_pages_completes_empty env user jobId pageItems :
  Scraper.launch env = Ok tt -> Scraper.newPage env = Ok tt ->
  Scraper.setUserAgent env = Ok tt -> Scraper.filmsGoto env = Ok tt ->
  Scraper.paginateItems env = Ok pageItems ->
  Parse.computeTotalPages pageItems <= 0 ->
  final (Scraper.startScraping env user jobId Api.newJob) =
  {| status := Completed;
     data := [];
     profileData := Some (scrapedProfile (Scraper.profileEnv env) user);
     progress := 0%Q;
     totalPages := Parse.computeTotalPages pageItems;
     error := None |}.
Proof.
  intros H1 H2 H3 H4 H5 HT. rewrite startScraping_final.
  destruct (startScrapingTry_result env user Api.newJob) as (Ho & He & _ & Hok).
  assert (Hn : Z.to_nat (Parse.computeTotalPages pageItems) = O) by lia.
  assert (Hnone : firstFailure env = None).
  { unfold firstFailure. now rewrite H1, H2, H3, H4, H5, Hn. }
  rewrite Ho, Hnone. destruct (Hok Hnone) as (Hs & Hd & Hp & Ht & Hpr).
  unfold crawlRecords, determinedTotalPages, pageNumbers in *.
  rewrite H5 in *. rewrite Hn in *. cbn in Hd, Hpr.
  destruct (final (Scraper.startScrapingTry env user Api.newJob)) as [s d pd pr tp er].
  cbn in *. now subst.
Qed.

Lemma no_pages_completes_empty_witness :
  status (final (Scraper.startScraping (Sample.envWith [Js.lit "0"] (fun _ => Sample.pageDown))
                   Sample.alice Sample.someJobId Api.newJob)) = Completed.
Proof.
  rewrite (no_pages_completes_empty
             (Sample.envWith [Js.lit "0"] (fun _ => Sample.pageDown))
             Sample.alice Sample.someJobId [Js.lit "0"]);
    reflexivity.
Defined.

(* ===================================================================== *)
(** ** Rewriting an avatar address twice *)
(* ===================================================================== *)

Lemma digits_no_slash (d : list Z) :
  Forall (fun c => Js.isDigit c = true) d -> Forall (fun c => c <> 47) d.
Proof.
  intros H. eapply Forall_impl; [exact H|]. intros c Hc.
  unfold Js.isDigit in Hc. apply andb_prop in Hc as [H1 _].
  apply Z.leb_le in H1. lia.
Qed.

(** A match of the pattern has its only [/] in front. *)
Lemma cropSegment_slash (seg : list Z) :
  cropSegment seg -> exists tl, seg = 47 :: tl /\ Forall (fun c => c <> 47) tl.
Proof.
  intros (d1 & d2 & d3 & d4 & [_ H1] & [_ H2] & [_ H3] & [_ H4] & ->).
  eexists. split; [reflexivity|].
  cbn [Js.lit list_ascii_of_string List.map app].
  repeat first [ apply digits_no_slash; assumption
               | apply Forall_nil_2
               | apply Forall_cons_2; [discriminate|]
               | apply Forall_app; split ].
Qed.

Lemma maxCrop_segment : cropSegment Parse.maxCrop.
Proof.
  exists (Js.lit "0"), (Js.lit "1000"), (Js.lit "0"), (Js.lit "1000").
  repeat split; try discriminate; repeat constructor.
Qed.

(** A match that starts before a [/] ends before it. *)
Lemma cropHere_before_slash (a x r : list Z) :
  a <> [] -> Parse.cropHere (a ++ 47 :: x) = Some r ->
  exists seg r', cropSegment seg /\ a = seg ++ r' /\ r = r' ++ 47 :: x.
Proof.
  intros Ha Hc. apply cropHere_sound in Hc as (seg & Hseg & Heq).
  destruct (cropSegment_slash seg Hseg) as (tl & -> & Htl).
  apply app_eq_inv in Heq as [(k & -> & ->) | (k & Hk & Hx)].
  - now exists (47 :: tl), k.
  - destruct k as [|c k].
    + rewrite app_nil_r in Hk. simpl in Hx. subst.
      exists (47 :: tl), []. now rewrite app_nil_r.
    + exfalso. injection Hx as <- _.
      destruct a as [|a0 a]; [contradiction|].
      injection Hk as _ ->. rewrite Forall_app in Htl.
      destruct Htl as [_ Htl]. inversion Htl as [|? ? Hne _]. now apply Hne.
Qed.

Lemma cropHere_slash_None (a x y : list Z) :
  a <> [] -> Parse.cropHere (a ++ 47 :: x) = None ->
  Parse.cropHere (a ++ 47 :: y) = None.
Proof.
  intros Ha Hx. destruct (Parse.cropHere (a ++ 47 :: y)) as [r|] eqn:Hy;
    [|reflexivity].
  destruct (cropHere_before_slash a y r Ha Hy) as (seg & r' & Hseg & -> & _).
  rewrite <- app_assoc, (cropHere_complete seg _ Hseg) in Hx. discriminate.
Qed.

(** X15.  Rewriting an avatar address that has been rewritten changes
    nothing more. *)
Theorem rewriteAvatar_idempotent (s : list Z) :
  Parse.rewriteAvatar (Parse.rewriteAvatar s) = Parse.rewriteAvatar s.
Proof.
  induction s as [|c s IH]; [reflexivity|].
  cbn [Parse.rewriteAvatar].
  destruct (Parse.cropHere (c :: s)) as [rest|] eqn:Hh.
  - assert (Hm : Parse.cropHere (Parse.maxCrop ++ rest) = Some rest)
      by apply (cropHere_complete _ _ maxCrop_segment).
    destruct (Parse.maxCrop ++ rest) as [|x l] eqn:Hl; [discriminate Hl|].
    cbn [Parse.rewriteAvatar]. now rewrite Hm.
  - assert (Hnone : Parse.cropHere (c :: Parse.rewriteAvatar s) = None).
    { destruct (rewriteAvatar_cases s)
        as [(pre & seg & post & -> & Hseg & _ & ->) | [_ ->]]; [|exact Hh].
      destruct (cropSegment_slash seg Hseg) as (tl & -> & _).
      destruct (cropSegment_slash _ maxCrop_segment) as (mtl & -> & _).
      change (c :: pre ++ (47 :: tl) ++ post)
        with ((c :: pre) ++ 47 :: (tl ++ post)) in Hh.
      change (c :: pre ++ (47 :: mtl) ++ post)
        with ((c :: pre) ++ 47 :: (mtl ++ post)).
      now apply (cropHere_slash_None (c :: pre) (tl ++ post)). }
    cbn [Parse.rewriteAvatar]. now rewrite Hnone, IH.
Qed.

(* ===================================================================== *)
(** ** Records of the older variant *)
(* ===================================================================== *)






